(** * Entry generation for Basys projects

    A shallow embedding of the webpack plugins of the [basys] package:

    - [GenerateEntriesWebpackPlugin] (the espree-based revision): scanning of
      the [.vue] files of a project, static extraction of the [info] option,
      membership filtering, compilation of page paths, rendering and writing
      of the entry modules, and the chokidar watch handlers;
    - [BackendWebpackPlugin]: the [done] hook that writes the assets;
    - the JSON5-based earlier revision of the first plugin, as far as it
      differs ([Legacy]).

    JavaScript objects are insertion-ordered association lists and
    exceptions are an explicit completion type.  A call to [glob], [fs] or
    [nunjucks] returns or throws as the file system of the pass has it, and
    the calls that render and write are recorded as a list of effects. *)

From Stdlib Require Import String Ascii List ZArith Bool Lia.
Import ListNotations.
Local Open Scope string_scope.
Local Open Scope list_scope.
Set Warnings "-register-all".

(** ** Strings *)

Module JS.

(** [s.indexOf(searchString)]: position of the first occurrence, or [-1]. *)
Fixpoint indexOfFrom (searchString : string) (i : Z) (s : string) : Z :=
  if String.prefix searchString s then i
  else match s with
       | EmptyString => (-1)%Z
       | String _ rest => indexOfFrom searchString (i + 1)%Z rest
       end.

Definition indexOf (s searchString : string) : Z :=
  indexOfFrom searchString 0%Z s.

(** [s.substring(indexStart, indexEnd)]: both arguments are clamped to
    [0 .. s.length] and swapped when they come in the wrong order. *)
Definition clamp (s : string) (n : Z) : nat :=
  Z.to_nat (Z.min (Z.max n 0) (Z.of_nat (String.length s))).

Definition substring (s : string) (indexStart indexEnd : Z) : string :=
  let a := clamp s indexStart in
  let b := clamp s indexEnd in
  String.substring (Nat.min a b) (Nat.max a b - Nat.min a b) s.

(** [s.startsWith(searchString)] *)
Definition startsWith (s searchString : string) : bool :=
  String.prefix searchString s.

(** [array.includes(x)] on an array of strings *)
Definition includes (array : list string) (x : string) : bool :=
  existsb (String.eqb x) array.

(** [marker] occurs nowhere in [content]. *)
Definition lacks (marker content : string) : Prop :=
  forall pre post, content <> (pre ++ marker ++ post)%string.

(** Truthiness of a string: only the empty string is falsy. *)
Definition truthy (s : string) : bool :=
  negb (String.eqb s "").

End JS.

(** ** Objects used as maps

    A JavaScript object with string keys, in insertion order: [for .. in]
    visits the keys in the order of [keys], assigning to an existing key keeps
    its place, [delete] removes it.  The keys of the tables modelled here are
    file paths matching [<projectDir>/src/**/*.vue] or fixed property names,
    so that neither array-index keys (which [for .. in] would visit first) nor
    names inherited from [Object.prototype] occur. *)

Module Obj.
Section Obj.
Context {V : Type}.

Definition t := list (string * V).

Definition empty : t := [].

(** [o[k]] ([None] is [undefined]) *)
Fixpoint get (k : string) (o : t) : option V :=
  match o with
  | [] => None
  | (k', v) :: o' => if String.eqb k' k then Some v else get k o'
  end.

(** [o[k] = v] *)
Fixpoint set (k : string) (v : V) (o : t) : t :=
  match o with
  | [] => [(k, v)]
  | (k', v') :: o' =>
      if String.eqb k' k then (k, v) :: o' else (k', v') :: set k v o'
  end.

(** [delete o[k]] *)
Fixpoint delete (k : string) (o : t) : t :=
  match o with
  | [] => []
  | (k', v') :: o' =>
      if String.eqb k' k then delete k o' else (k', v') :: delete k o'
  end.

(** [k in o] *)
Definition has (k : string) (o : t) : bool :=
  match get k o with Some _ => true | None => false end.

(** The keys in [for .. in] order. *)
Definition keys (o : t) : list string := map fst o.
End Obj.
Arguments t : clear implicits.
End Obj.

(** ** The syntax tree returned by espree

    Only what the plugin reads: the [type] of a node (the constructor), the
    [name] of an identifier, the [value] of a literal, the [elements] of an
    array expression ([None] is the [null] that ESTree puts in place of an
    elided element, as in [[ , 'a']]), the [properties] of an object
    expression, and the [body] of the program. *)

Module ESTree.

Inductive LiteralValue : Type :=
| LString (s : string)
| LNumber (raw : string)
| LBoolean (b : bool)
| LNull
| LRegExp (raw : string).

Inductive Node : Type :=
| Identifier (name : string)
| Literal (value : LiteralValue)
| ArrayExpression (elements : list (option Node))
| ObjectExpression (properties : list Property)
| OtherNode
with Property : Type :=
| mkProperty (key : Node) (value : Node).

Definition key (p : Property) : Node := let '(mkProperty k _) := p in k.
Definition value (p : Property) : Node := let '(mkProperty _ v) := p in v.

Inductive Statement : Type :=
| ExportDefaultDeclaration (declaration : Node)
| OtherStatement.

Record Program : Type := { body : list Statement }.

End ESTree.
Import ESTree.

(** ** Errors and exceptions *)

(** An [Error] object: its [name] and [message], and the [file] property that
    [GenerateEntriesWebpackPlugin.error] adds. *)
Record JSError : Type := {
  name : string;
  message : string;
  file : option string
}.

(** [new Error(message)] *)
Definition Error (message : string) : JSError :=
  {| name := "Error"; message := message; file := None |}.

Definition TypeError (message : string) : JSError :=
  {| name := "TypeError"; message := message; file := None |}.

(** How a call ends: with a value, or by throwing. *)
Inductive Completion (A : Type) : Type :=
| Normal (a : A)
| Throw (e : JSError).
Arguments Normal {A} a.
Arguments Throw {A} e.

Definition bind {A B : Type} (c : Completion A) (k : A -> Completion B)
  : Completion B :=
  match c with
  | Normal a => k a
  | Throw e => Throw e
  end.

(** [try { body } catch (e) { handler }] *)
Definition tryCatch {A : Type} (body : Completion A)
    (handler : JSError -> Completion A) : Completion A :=
  match body with
  | Normal a => Normal a
  | Throw e => handler e
  end.

Notation "x <- c ;; k" := (bind c (fun x => k))
  (at level 61, c at next level, right associativity).
Notation "' pat <- c ;; k" := (bind c (fun x => match x with pat => k end))
  (at level 61, pat pattern, c at next level, right associativity).

(** ** Values and configuration *)

(** Configuration values: the plugin only copies them. *)
Inductive JSValue : Type :=
| VUndefined
| VNull
| VBoolean (b : bool)
| VNumber (n : Z)
| VString (s : string)
| VArray (items : list JSValue)
| VObject (props : list (string * JSValue)).

(** The value of a component in the table: an object whose only property ever
    assigned is [path]. *)
Definition Info : Type := Obj.t string.

Record Config : Type := {
  projectDir : string;
  tempDir : string;
  appName : string;
  type : string;
  env : string;
  caseSensitive : bool;             (* truthiness of [config.caseSensitive] *)
  backendEntry : option string;
  entry : option string;
  custom : Obj.t JSValue;
  host : JSValue;
  port : JSValue;
  backendPort : JSValue;
  vueComponents : Obj.t Info;       (* {vuePath: info} *)
  others : Obj.t JSValue            (* every other key of the configuration *)
}.

Definition set_vueComponents (table : Obj.t Info) (c : Config) : Config :=
  {| projectDir := projectDir c; tempDir := tempDir c; appName := appName c;
     type := type c; env := env c; caseSensitive := caseSensitive c;
     backendEntry := backendEntry c; entry := entry c; custom := custom c;
     host := host c; port := port c; backendPort := backendPort c;
     vueComponents := table; others := others c |}.

(** The data handed to the two templates. *)
Inductive TemplateData : Type :=
| BackendData (env appName : string) (pagePaths : list string)
              (entry : option string) (conf : Obj.t JSValue)
| FrontendData (vueComponents : Obj.t Info) (entry : option string)
               (caseSensitive : bool).

(** A call of the plugin to [glob], [fs] or [nunjucks]: [glob.sync],
    [fs.readFileSync], [nunjucks.render], [fs.writeFileSync] and
    [fs.utimesSync].  None of them is made inside a [try] block. *)
Inductive Call : Type :=
| GlobSync (pattern : string)
| ReadFileSync (path : string)
| NunjucksRender (template : string) (data : TemplateData)
| WriteFileSync (path data : string)
| UtimesSync (path : string) (atime mtime : Z).

(** What the file system answers during one generation pass: the files that
    [glob.sync] finds and the text that [fs.readFileSync] reads, when they
    return, and for every call the exception that it throws, when it does
    not ([nunjucks] reads its templates from the file system too). *)
Record FileSystem : Type := {
  glob_sync : string -> list string;
  readFileSync : string -> string;
  throws : Call -> option JSError
}.

(** A call that returns [result], unless it throws. *)
Definition call {A : Type} (fs : FileSystem) (c : Call) (result : A)
  : Completion A :=
  match throws fs c with
  | Some e => Throw e
  | None => Normal result
  end.

(** [Date.now()]: what the clock shows at the first, second, ... reading of
    a generation pass. *)
Definition Clock : Type := nat -> Z.

(** The calls that a pass has made to render and to write, in the order
    they were made. *)
Inductive Effect : Type :=
| Render (template : string) (data : TemplateData)
| WriteFile (path : string) (data : string)
| Utimes (path : string) (atime mtime : Z).

(** ** The earlier revision of the plugin

    [packages/basys/lib/webpack/generate-entries-plugin.js] reads the metadata
    from a custom [<info>] block with JSON5.  Its [generateEntries] evaluates
    [glob.sync(vuePattern)] with [vuePattern] undeclared, so that every call
    throws a [ReferenceError] before a file is read; what is kept here are
    the two computations that the current revision states differently. *)

Module Legacy.

(** [!Array.isArray(info.apps) || info.apps.includes(config.appName)],
    [apps] being the value of [info.apps]. *)
Definition usedInApp (apps : JSValue) (appName : string) : bool :=
  match apps with
  | VArray items =>
      existsb (fun item => match item with
                           | VString s => String.eqb s appName
                           | _ => false
                           end) items
  | _ => true
  end.

(** [config[key]] for the keys read by name. *)
Definition configKey (config : Config) (key : string) : JSValue :=
  if String.eqb key "host" then host config
  else if String.eqb key "port" then port config
  else if String.eqb key "backendPort" then backendPort config
  else match Obj.get key (others config) with
       | Some v => v
       | None => VUndefined
       end.

(** "Expose only whitelisted and custom config options to backend code":
    the two loops that fill [conf]. *)
Definition conf (config : Config) : Obj.t JSValue :=
  let conf : Obj.t JSValue := Obj.empty in
  let conf :=
    fold_left (fun conf kv => Obj.set (fst kv) (snd kv) conf)
              (custom config) conf in
  fold_left (fun conf key => Obj.set key (configKey config key) conf)
            ["host"; "port"; "backendPort"] conf.

End Legacy.

(** ** GenerateEntriesWebpackPlugin *)

(** The fields of the plugin instance. *)
Record Plugin : Type := {
  config : Config;
  errors : list JSError;
  vuePattern : option string
}.

(** The state of the scanning loop: [this.config.vueComponents] and
    [this.errors]. *)
Record Scan : Type := {
  table : Obj.t Info;
  scanErrors : list JSError
}.

(** How the body of a loop goes on after a block: to the next statement, or
    to the next iteration ([continue]). *)
Inductive Flow : Type := Proceed | Continue.

Definition isExportDefault (node : Statement) : bool :=
  match node with
  | ExportDefaultDeclaration _ => true
  | OtherStatement => false
  end.

(** [node => node.key.type === 'Identifier' && node.key.name === name] *)
Definition isNamed (name : string) (node : Property) : bool :=
  match key node with
  | Identifier n => String.eqb n name
  | _ => false
  end.

Module GenerateEntriesWebpackPlugin.
Section WithLibraries.

(** The libraries the plugin calls.  [espree_parse] is [espree.parse] with
    the options of the plugin, [None] when it throws; [pathToRegexp path
    sensitive] is [pathToRegexp(path, [], {sensitive}).toString()], [inr
    message] when it throws. *)
Variable espree_parse : string -> option Program.
Variable pathToRegexp : string -> bool -> string + string.
Variable path_join : list string -> string.
Variable path_relative : string -> string -> string.
Variable nunjucks_render : string -> TemplateData -> string.

(** [this.error(filePath, message)] *)
Definition error (config : Config) (filePath message : string) (st : Scan)
  : Scan :=
  let err := {| name := "Error"; message := message;
                file := Some (path_relative (projectDir config) filePath) |} in
  {| table := table st; scanErrors := scanErrors st ++ [err] |}.

Definition setComponent (vuePath : string) (info : Info) (st : Scan) : Scan :=
  {| table := Obj.set vuePath info (table st); scanErrors := scanErrors st |}.

Definition deleteComponent (vuePath : string) (st : Scan) : Scan :=
  {| table := Obj.delete vuePath (table st); scanErrors := scanErrors st |}.

(** [for (const appElem of appsProp.value.elements) ...]: an elided element
    is [null] in the syntax tree, and reading [appElem.type] of it throws a
    [TypeError].  The message is the engine's and differs between versions
    of Node; nothing below depends on it. *)
Fixpoint collectApps (config : Config) (vuePath : string)
    (elements : list (option Node)) (apps : list string) (st : Scan)
  : Completion (list string * Scan) :=
  match elements with
  | [] => Normal (apps, st)
  | None :: _ => Throw (TypeError "Cannot read property 'type' of null")
  | Some (Literal (LString s)) :: rest =>
      collectApps config vuePath rest (apps ++ [s]) st
  | Some _ :: rest =>
      collectApps config vuePath rest apps
        (error config vuePath
           "All items of 'info.apps' option be string literals" st)
  end.

(** The block on [info.apps]. *)
Definition scanApps (config : Config) (vuePath : string)
    (props : list Property) (st : Scan) : Completion (Flow * Scan) :=
  match find (isNamed "apps") props with
  | None => Normal (Proceed, st)
  | Some appsProp =>
      match value appsProp with
      | ArrayExpression elements =>
          if (0 <? List.length elements)%nat then
            '(apps, st) <- collectApps config vuePath elements [] st ;;
            if negb (JS.includes apps (appName config))
            then Normal (Continue, deleteComponent vuePath st)
            else Normal (Proceed, st)
          else Normal (Proceed, st)
      | _ =>
          Normal (Continue,
                  error config vuePath
                    "'info.apps' option must be an array of string literals"
                    st)
      end
  end.

(** The block on [info.path]. *)
Definition scanPath (config : Config) (vuePath : string)
    (props : list Property) (st : Scan) : Completion Scan :=
  match find (isNamed "path") props with
  | None => Normal st
  | Some pathProp =>
      match value pathProp with
      | Literal (LString s) =>
          if negb (JS.startsWith s "/") then
            Normal (error config vuePath
                      "'info.path' option must start with '/'" st)
          else
            match Obj.get vuePath (table st) with
            | Some info =>
                Normal (setComponent vuePath (Obj.set "path" s info) st)
            | None =>
                Throw (TypeError "Cannot set property 'path' of undefined")
            end
      | _ =>
          Normal (error config vuePath
                    "'info.path' option must be a string literal" st)
      end
  end.

(** The body of [for (const vuePath of vuePaths)] once the file is read,
    [content] being its text. *)
Definition scanContent (config : Config) (vuePath content : string)
    (st : Scan) : Completion Scan :=
  let start := JS.indexOf content "<script>" in
  let end_ := JS.indexOf content "</script>" in
  if (start =? -1)%Z || (end_ =? -1)%Z || (start >? end_)%Z then
    Normal (error config vuePath "<script>...</script> block was not found" st)
  else
    match espree_parse (JS.substring content (start + 8)%Z end_) with
    | None => Normal st
    | Some ast =>
        match find isExportDefault (body ast) with
        | Some (ExportDefaultDeclaration (ObjectExpression properties)) =>
            match find (isNamed "info") properties with
            | None => Normal st
            | Some infoProp =>
                match value infoProp with
                | ObjectExpression props =>
                    '(flow, st) <- scanApps config vuePath props st ;;
                    match flow with
                    | Continue => Normal st
                    | Proceed => scanPath config vuePath props st
                    end
                | _ =>
                    Normal (error config vuePath
                              "'info' option must be an object" st)
                end
            end
        | _ =>
            Normal (error config vuePath
              "Expected `export default { ... }` inside <script> block" st)
        end
    end.

(** The body of [for (const vuePath of vuePaths)]. *)
Definition scanFile (config : Config) (fs : FileSystem) (vuePath : string)
    (st : Scan) : Completion Scan :=
  let st := setComponent vuePath Obj.empty st in
  content <- call fs (ReadFileSync vuePath) (readFileSync fs vuePath) ;;
  scanContent config vuePath content st.

Fixpoint scanFiles (config : Config) (fs : FileSystem)
    (vuePaths : list string) (st : Scan) : Completion Scan :=
  match vuePaths with
  | [] => Normal st
  | vuePath :: rest =>
      st <- scanFile config fs vuePath st ;;
      scanFiles config fs rest st
  end.

(** [for (const vuePath in this.config.vueComponents)]: the compiled page
    paths and the errors of the paths that do not compile. *)
Fixpoint compilePagePaths (config : Config) (components : Obj.t Info)
    (pagePaths : list string) (errs : list JSError)
  : list string * list JSError :=
  match components with
  | [] => (pagePaths, errs)
  | (vuePath, info) :: rest =>
      match Obj.get "path" info with
      | Some p =>
          if JS.truthy p then
            match pathToRegexp p (caseSensitive config) with
            | inl re => compilePagePaths config rest (pagePaths ++ [re]) errs
            | inr msg =>
                compilePagePaths config rest pagePaths
                  (errs ++
                   [Error (vuePath ++ " page path error: " ++ msg)%string])
            end
          else compilePagePaths config rest pagePaths errs
      | None => compilePagePaths config rest pagePaths errs
      end
  end.

(** [entry && path.join(this.config.projectDir, 'src', entry)] *)
Definition entryPath (config : Config) (entry : option string)
  : option string :=
  match entry with
  | None => None
  | Some e =>
      if JS.truthy e then Some (path_join [projectDir config; "src"; e])
      else Some e
  end.

(** Modelled from the spec: [codeConfig] is imported from [../config], which
    is not among the sources.  "Only configuration keys the project
    explicitly exposes, plus a small fixed set of network-addressing keys,
    are passed into the backend entry": the keys of [config.custom], then
    [host], [port] and [backendPort], as the earlier revision of the plugin
    computes [conf] in place ([Legacy.conf]). *)
Definition codeConfig (config : Config) : Obj.t JSValue :=
  let conf :=
    fold_left (fun conf kv => Obj.set (fst kv) (snd kv) conf)
              (custom config) Obj.empty in
  Obj.set "backendPort" (backendPort config)
    (Obj.set "port" (port config)
       (Obj.set "host" (host config) conf)).

(** [for (const entryType in entries)]: the files written and the
    timestamps set.  [Date.now()] is read in the body of the loop, once for
    each file when [init] holds; [k] readings have been made before. *)
Fixpoint writeEntries (config : Config) (init : bool) (fs : FileSystem)
    (now : Clock) (k : nat) (entries : Obj.t string)
  : Completion (list Effect) :=
  match entries with
  | [] => Normal []
  | (entryType, text) :: rest =>
      let entryPath :=
        path_join [tempDir config; (entryType ++ "-entry.js")%string] in
      _ <- call fs (WriteFileSync entryPath text) tt ;;
      if init then
        let time := (now k - 100000)%Z in
        _ <- call fs (UtimesSync entryPath time time) tt ;;
        effects <- writeEntries config init fs now (S k) rest ;;
        Normal (WriteFile entryPath text :: Utimes entryPath time time
                  :: effects)
      else
        effects <- writeEntries config init fs now k rest ;;
        Normal (WriteFile entryPath text :: effects)
  end.

(** [generateEntries(init)]: the plugin afterwards and the calls made, or
    the exception that ends the pass.  [nunjucks.configure] selects the
    directory of the templates and is left out. *)
Definition generateEntries (init : bool) (fs : FileSystem) (now : Clock)
    (self : Plugin) : Completion (Plugin * list Effect) :=
  let pattern := path_join [projectDir (config self); "src"; "**"; "*.vue"] in
  vuePaths <- call fs (GlobSync pattern) (glob_sync fs pattern) ;;
  st <- scanFiles (config self) fs vuePaths
          {| table := Obj.empty; scanErrors := [] |} ;;
  let config := set_vueComponents (table st) (config self) in
  let entries : Obj.t string := Obj.empty in
  '(entries, errs, renders) <-
    (if String.eqb (type config) "web" then
       let '(pagePaths, errs) :=
         compilePagePaths config (vueComponents config) [] (scanErrors st) in
       let data :=
         BackendData (env config) (appName config) pagePaths
           (entryPath config (backendEntry config)) (codeConfig config) in
       text <- call fs (NunjucksRender "backend.js" data)
                 (nunjucks_render "backend.js" data) ;;
       Normal (Obj.set "backend" text entries, errs,
               [Render "backend.js" data])
     else Normal (entries, scanErrors st, [])) ;;
  let data :=
    FrontendData (vueComponents config) (entryPath config (entry config))
      (caseSensitive config) in
  text <- call fs (NunjucksRender "frontend.js" data)
            (nunjucks_render "frontend.js" data) ;;
  let entries := Obj.set "frontend" text entries in
  writes <- writeEntries config init fs now 0 entries ;;
  Normal ({| config := config; errors := errs; vuePattern := Some pattern |},
          renders ++ [Render "frontend.js" data] ++ writes).

(** *** The watch handlers *)

(** The plugin once [apply] has run: [watched] is the pattern given to
    [chokidar.watch], [None] when no watcher was set up. *)
Record Controller : Type := {
  plugin : Plugin;
  watched : option string
}.

Inductive WatchEvent : Type :=
| Add (filePath : string)
| Change (filePath : string)
| Unlink (filePath : string).

(** [apply(compiler)] *)
Definition apply (fs : FileSystem) (now : Clock) (self : Plugin)
  : Completion (Controller * list Effect) :=
  '(self, effects) <- generateEntries true fs now self ;;
  let watched :=
    if String.eqb (env (config self)) "dev" then vuePattern self else None in
  Normal ({| plugin := self; watched := watched |}, effects).

(** [this.generateEntries()] from a handler: [init] is [undefined]. *)
Definition regenerate (fs : FileSystem) (now : Clock) (ctl : Controller)
  : Completion (Controller * list Effect) :=
  '(self, effects) <- generateEntries false fs now (plugin ctl) ;;
  Normal ({| plugin := self; watched := watched ctl |}, effects).

(** One event of the watcher, with the file system and the clock as they
    are then. *)
Definition handle (fs : FileSystem) (now : Clock) (event : WatchEvent)
    (ctl : Controller) : Completion (Controller * list Effect) :=
  match watched ctl with
  | None => Normal (ctl, [])
  | Some _ =>
      match event with
      | Add _ => regenerate fs now ctl
      | Change _ => regenerate fs now ctl
      | Unlink filePath =>
          if Obj.has filePath (vueComponents (config (plugin ctl)))
          then regenerate fs now ctl
          else Normal (ctl, [])
      end
  end.

Fixpoint run (events : list (WatchEvent * FileSystem * Clock))
    (ctl : Controller) : Completion (Controller * list Effect) :=
  match events with
  | [] => Normal (ctl, [])
  | (event, fs, now) :: rest =>
      '(ctl, effects) <- handle fs now event ctl ;;
      '(ctl, effects') <- run rest ctl ;;
      Normal (ctl, effects ++ effects')
  end.

(** The number of generation passes behind a list of calls: each pass
    renders the frontend entry once. *)
Definition isFrontendRender (e : Effect) : bool :=
  match e with
  | Render template _ => String.eqb template "frontend.js"
  | _ => false
  end.

Definition generations (effects : list Effect) : nat :=
  List.length (filter isFrontendRender effects).

(** The [done] hook: [Array.prototype.push.apply(compilation.errors,
    this.errors)]. *)
Definition done (self : Plugin) (compilationErrors : list JSError)
  : list JSError :=
  compilationErrors ++ errors self.

(** *** What a component file declares

    The parts of a file that the scanning loop looks at, named for the
    statements below. *)

Definition scriptBlock (content : string) : option string :=
  let start := JS.indexOf content "<script>" in
  let end_ := JS.indexOf content "</script>" in
  if (start =? -1)%Z || (end_ =? -1)%Z || (start >? end_)%Z then None
  else Some (JS.substring content (start + 8)%Z end_).

(** The properties of the default-exported object literal. *)
Definition exportedOptions (content : string) : option (list Property) :=
  match scriptBlock content with
  | Some script =>
      match espree_parse script with
      | Some ast =>
          match find isExportDefault (body ast) with
          | Some (ExportDefaultDeclaration (ObjectExpression properties)) =>
              Some properties
          | _ => None
          end
      | None => None
      end
  | None => None
  end.

(** The properties of the [info] object literal. *)
Definition infoProps (content : string) : option (list Property) :=
  match exportedOptions content with
  | Some properties =>
      match find (isNamed "info") properties with
      | Some infoProp =>
          match value infoProp with
          | ObjectExpression props => Some props
          | _ => None
          end
      | None => None
      end
  | None => None
  end.

(** The value of [info.apps] and of [info.path]. *)
Definition infoOption (name : string) (content : string) : option Node :=
  match infoProps content with
  | Some props => option_map value (find (isNamed name) props)
  | None => None
  end.

Definition stringLiteral (s : string) : option Node :=
  Some (Literal (LString s)).

Definition isStringLiteral (element : option Node) : bool :=
  match element with
  | Some (Literal (LString _)) => true
  | _ => false
  end.

(** What the body of the loop makes of the text of one file on its own,
    starting from an empty table and no errors. *)
Definition fileScan (config : Config) (fs : FileSystem) (vuePath : string)
  : Completion Scan :=
  scanContent config vuePath (readFileSync fs vuePath)
    (setComponent vuePath Obj.empty {| table := Obj.empty; scanErrors := [] |}).

Definition fileErrors (config : Config) (fs : FileSystem) (vuePath : string)
  : list JSError :=
  match fileScan config fs vuePath with
  | Normal r => scanErrors r
  | Throw _ => []
  end.

Definition fileInfo (config : Config) (fs : FileSystem) (vuePath : string)
  : option Info :=
  match fileScan config fs vuePath with
  | Normal r => Obj.get vuePath (table r)
  | Throw _ => None
  end.

(** [st] is what a run of the body on the file [vuePath] makes of the table
    [T] and the errors [E], when [r] is what it makes of the empty ones:
    the component is still in the table ([kept]), or it may have been
    deleted ([settled]). *)
Definition kept (T : Obj.t Info) (E : list JSError) (vuePath : string)
    (r st : Scan) : Prop :=
  scanErrors st = E ++ scanErrors r /\
  exists info, table r = [(vuePath, info)] /\
               table st = Obj.set vuePath info T.

Definition settled (T : Obj.t Info) (E : list JSError) (vuePath : string)
    (r st : Scan) : Prop :=
  scanErrors st = E ++ scanErrors r /\
  ((exists info, table r = [(vuePath, info)] /\
                 table st = Obj.set vuePath info T) \/
   (table r = [] /\ table st = Obj.delete vuePath T)).

(** Two calls end the same way, with values related by [R]. *)
Definition agree {A B : Type} (R : A -> B -> Prop)
    (c1 : Completion A) (c2 : Completion B) : Prop :=
  match c1, c2 with
  | Normal a, Normal b => R a b
  | Throw e1, Throw e2 => e1 = e2
  | _, _ => False
  end.

(** No element of the array literal is elided. *)
Definition noElision (elements : list (option Node)) : bool :=
  forallb (fun element => match element with
                          | Some _ => true
                          | None => false
                          end) elements.

(** The files found by one pass. *)
Definition vuePathsOf (config : Config) (fs : FileSystem) : list string :=
  glob_sync fs (path_join [projectDir config; "src"; "**"; "*.vue"]).

(** The errors that [this.error] recorded for a file. *)
Definition fileOf (config : Config) (vuePath : string) : option string :=
  Some (path_relative (projectDir config) vuePath).

Definition fileError (config : Config) (vuePath message : string) : JSError :=
  {| name := "Error"; message := message; file := fileOf config vuePath |}.

(** [glob.sync] answers each file once, and no two under the same relative
    path. *)
Definition distinctFiles (config : Config) (fs : FileSystem) : Prop :=
  NoDup (map (path_relative (projectDir config)) (vuePathsOf config fs)).

Definition option_eqb (a b : option string) : bool :=
  match a, b with
  | Some x, Some y => String.eqb x y
  | None, None => true
  | _, _ => false
  end.

Definition errorsOf (config : Config) (vuePath : string)
    (errs : list JSError) : list JSError :=
  filter (fun e => option_eqb (file e) (fileOf config vuePath)) errs.

(** The data of the backend template among the calls of a pass. *)
Fixpoint backendData (effects : list Effect) : option TemplateData :=
  match effects with
  | [] => None
  | Render template data :: rest =>
      if String.eqb template "backend.js" then Some data
      else backendData rest
  | _ :: rest => backendData rest
  end.

(** The page paths that the loop over the table compiles. *)
Definition compiledPaths (config : Config) (components : Obj.t Info)
  : list string :=
  fst (compilePagePaths config components [] []).

Definition pagePathErrors (config : Config) (components : Obj.t Info)
  : list JSError :=
  snd (compilePagePaths config components [] []).

Definition pagePathsOf (effects : list Effect) : option (list string) :=
  match backendData effects with
  | Some (BackendData _ _ pagePaths _ _) => Some pagePaths
  | _ => None
  end.

(** *** What a pass renders and writes *)

(** The templates rendered, the files written and the timestamps set, among
    the calls of a pass. *)
Definition rendersOf (effects : list Effect) : list (string * TemplateData) :=
  flat_map (fun e => match e with
                     | Render template data => [(template, data)]
                     | _ => []
                     end) effects.

Definition writesOf (effects : list Effect) : list (string * string) :=
  flat_map (fun e => match e with
                     | WriteFile path data => [(path, data)]
                     | _ => []
                     end) effects.

Definition utimesOf (effects : list Effect) : list (string * Z * Z) :=
  flat_map (fun e => match e with
                     | Utimes path atime mtime => [(path, atime, mtime)]
                     | _ => []
                     end) effects.

(** The data of the two templates, for the configuration of the plugin once
    the table is filled in. *)
Definition backendTemplateData (config : Config) : TemplateData :=
  BackendData (env config) (appName config)
    (compiledPaths config (vueComponents config))
    (entryPath config (backendEntry config)) (codeConfig config).

Definition frontendTemplateData (config : Config) : TemplateData :=
  FrontendData (vueComponents config) (entryPath config (entry config))
    (caseSensitive config).

(** The templates that a pass renders, in order, and the object [entries]
    that it fills. *)
Definition templatesOf (config : Config) : list (string * TemplateData) :=
  (if String.eqb (type config) "web"
   then [("backend.js", backendTemplateData config)] else [])
  ++ [("frontend.js", frontendTemplateData config)].

Definition entriesOf (config : Config) : Obj.t string :=
  (if String.eqb (type config) "web"
   then [("backend",
          nunjucks_render "backend.js" (backendTemplateData config))]
   else [])
  ++ [("frontend",
       nunjucks_render "frontend.js" (frontendTemplateData config))].

(** The file of an entry in the temporary directory. *)
Definition entryFile (config : Config) (entryType : string) : string :=
  path_join [tempDir config; (entryType ++ "-entry.js")%string].

(** The timestamps of the files of a first pass: the file written after [k]
    readings of the clock gets the next reading, less 100000 ms, for both of
    its times. *)
Fixpoint backdated (now : Clock) (k : nat) (paths : list string)
  : list (string * Z * Z) :=
  match paths with
  | [] => []
  | path :: rest =>
      (path, (now k - 100000)%Z, (now k - 100000)%Z)
        :: backdated now (S k) rest
  end.

(** No call of the pass to [glob], [fs] or [nunjucks] throws. *)
Definition returning (fs : FileSystem) : Prop :=
  forall c, throws fs c = None.

End WithLibraries.
End GenerateEntriesWebpackPlugin.
Import GenerateEntriesWebpackPlugin.

(** ** BackendWebpackPlugin *)

Module BackendWebpackPlugin.

(** [asset.source()] returns the text or throws. *)
Record Asset : Type := { source : string + JSError }.

Record Compilation : Type := {
  errors : list JSError;
  assets : Obj.t Asset
}.

Section Done.

(** The output directory, and [fs.outputFileSync(file, data)]: the
    directory afterwards and the exception, if it throws. *)
Variable Disk : Type.
Variable outputFileSync : string -> string -> Disk -> Disk * option JSError.
Variable path_join : list string -> string.

(** The body of the [try] block for one asset. *)
Definition writeAsset (outputPath : string) (asset : string * Asset)
    (disk : Disk) : Disk * Completion unit :=
  let file := path_join [outputPath; fst asset] in
  match source (snd asset) with
  | inr e => (disk, Throw e)
  | inl data =>
      let '(disk, thrown) := outputFileSync file data disk in
      (disk, match thrown with
             | None => Normal tt
             | Some e => Throw e
             end)
  end.

(** [for (const assetPath in stats.compilation.assets)] *)
Fixpoint writeAssets (outputPath : string) (assets : Obj.t Asset)
    (errors : list JSError) (disk : Disk)
  : Completion (list JSError * Disk) :=
  match assets with
  | [] => Normal (errors, disk)
  | asset :: rest =>
      let '(disk, written) := writeAsset outputPath asset disk in
      errors <- tryCatch (_ <- written ;; Normal errors)
                  (fun e => Normal (errors ++ [e])) ;;
      writeAssets outputPath rest errors disk
  end.

(** The [done] hook: the error list of the compilation and the output
    directory afterwards. *)
Definition done (outputPath : string) (compilation : Compilation)
    (disk : Disk) : Completion (list JSError * Disk) :=
  if (0 <? List.length (errors compilation))%nat
  then Normal (errors compilation, disk)
  else writeAssets outputPath (assets compilation)
         (errors compilation) disk.

End Done.

End BackendWebpackPlugin.

(** ** A sample project

    Concrete collaborators and files, on which the definitions are run. *)

Module Sample.

Definition path_join (parts : list string) : string := String.concat "/" parts.

(** Both paths are absolute and [to] lies under [from]. *)
Definition path_relative (from to : string) : string :=
  String.substring (String.length from + 1)
                   (String.length to - (String.length from + 1)) to.

(** A pattern with an unbalanced group does not compile. *)
Definition pathToRegexp (path : string) (sensitive : bool) : string + string :=
  if String.eqb path "/(" then inr "Unterminated group"
  else inl ("/^" ++ path ++ "(?:\/(?=$))?$/" ++ (if sensitive then "" else "i"))%string.

Definition nunjucks_render (template : string) (data : TemplateData) : string :=
  match data with
  | BackendData env appName pagePaths _ _ =>
      ("// " ++ template ++ " " ++ appName ++ " " ++ String.concat "," pagePaths)%string
  | FrontendData vueComponents _ _ =>
      ("// " ++ template ++ " " ++ String.concat "," (Obj.keys vueComponents))%string
  end.

Definition infoScript (info : list Property) : Program :=
  {| body := [OtherStatement;
              ExportDefaultDeclaration
                (ObjectExpression
                   [mkProperty (Identifier "name") (Literal (LString "page"));
                    mkProperty (Identifier "info") (ObjectExpression info)])] |}.

Definition prop (name : string) (v : Node) : Property :=
  mkProperty (Identifier name) v.

Definition strings (items : list string) : Node :=
  ArrayExpression (map (fun s => Some (Literal (LString s))) items).

(** The scripts of the sample files and their syntax trees. *)
Definition scripts : list (string * Program) :=
  [ ("export default {name: 'page', info: {path: '/a'}}",
     infoScript [prop "path" (Literal (LString "/a"))]);
    ("export default {name: 'page', info: {apps: ['admin'], path: 'foo'}}",
     infoScript [prop "apps" (strings ["admin"]);
                 prop "path" (Literal (LString "foo"))]);
    ("export default {name: 'page', info: {apps: ['main'], path: '/m'}}",
     infoScript [prop "apps" (strings ["main"]);
                 prop "path" (Literal (LString "/m"))]);
    ("export default {name: 'page', info: {path: 'foo'}}",
     infoScript [prop "path" (Literal (LString "foo"))]);
    ("export default {name: 'page', info: {apps: [x, 1]}}",
     infoScript [prop "apps" (ArrayExpression
                                [Some (Identifier "x");
                                 Some (Literal (LNumber "1"))])]);
    ("export default {name: 'page', info: {apps: [,]}}",
     infoScript [prop "apps" (ArrayExpression [None])]);
    ("export default {name: 'page', info: {apps: []}}",
     infoScript [prop "apps" (ArrayExpression [])]);
    ("export default {name: 'page'}",
     {| body := [ExportDefaultDeclaration
                   (ObjectExpression
                      [prop "name" (Literal (LString "page"))])] |}) ].

Definition espree_parse (script : string) : option Program :=
  Obj.get script scripts.

Definition vue (script : string) : string :=
  ("<template><div/></template><script>" ++ script ++ "</script>")%string.

Definition files : list (string * string) :=
  [ ("/p/src/a.vue", vue "export default {name: 'page', info: {path: '/a'}}");
    ("/p/src/admin.vue",
     vue "export default {name: 'page', info: {apps: ['admin'], path: 'foo'}}");
    ("/p/src/m.vue",
     vue "export default {name: 'page', info: {apps: ['main'], path: '/m'}}");
    ("/p/src/foo.vue", vue "export default {name: 'page', info: {path: 'foo'}}");
    ("/p/src/dyn.vue", vue "export default {name: 'page', info: {apps: [x, 1]}}");
    ("/p/src/plain.vue", vue "export default {name: 'page'}");
    ("/p/src/broken.vue", vue "export default {");
    ("/p/src/none.vue", "<template><div/></template>");
    ("/p/src/all.vue", vue "export default {name: 'page', info: {apps: []}}") ].

Definition fs : FileSystem :=
  {| glob_sync := fun pattern =>
       if String.eqb pattern "/p/src/**/*.vue" then Obj.keys files else [];
     readFileSync := fun path =>
       match Obj.get path files with Some content => content | None => "" end;
     throws := fun _ => None |}.

(** The same project with one more file, whose [apps] has an elision. *)
Definition fs_elision : FileSystem :=
  {| glob_sync := fun pattern =>
       if String.eqb pattern "/p/src/**/*.vue"
       then Obj.keys files ++ ["/p/src/hole.vue"] else [];
     readFileSync := fun path =>
       if String.eqb path "/p/src/hole.vue"
       then vue "export default {name: 'page', info: {apps: [,]}}"
       else match Obj.get path files with Some content => content | None => "" end;
     throws := fun _ => None |}.

(** The same project when [m.vue] cannot be read. *)
Definition fs_unreadable : FileSystem :=
  {| glob_sync := glob_sync fs;
     readFileSync := readFileSync fs;
     throws := fun c =>
       match c with
       | ReadFileSync path =>
           if String.eqb path "/p/src/m.vue"
           then Some (Error "EISDIR: illegal operation on a directory, read")
           else None
       | _ => None
       end |}.

Definition project (type env : string) : Config :=
  {| projectDir := "/p"; tempDir := "/p/.basys"; appName := "main";
     type := type; env := env; caseSensitive := false;
     backendEntry := Some "backend.js"; entry := None;
     custom := [("title", VString "Sample")];
     host := VString "localhost"; port := VNumber 8080;
     backendPort := VNumber 3000;
     vueComponents := Obj.empty;
     others := [("db", VObject [("password", VString "secret")])] |}.

Definition fresh (type env : string) : Plugin :=
  {| config := project type env; errors := []; vuePattern := None |}.

(** A clock that starts at [start] and has moved on by 7 ms at each
    reading. *)
Definition clock (start : Z) : Clock :=
  fun k => (start + 7 * Z.of_nat k)%Z.

Definition generateEntries :=
  generateEntries espree_parse pathToRegexp path_join path_relative
    nunjucks_render.

(** The plugin and the calls after the first pass. *)
Definition outcome (type env : string) : Plugin * list Effect :=
  match generateEntries true fs (clock 1000000) (fresh type env) with
  | Normal result => result
  | Throw _ => (fresh type env, [])
  end.

(** The same project, with another temporary directory and other
    credentials. *)
Definition fresh' (type env : string) : Plugin :=
  {| config :=
       {| projectDir := "/p"; tempDir := "/tmp/basys"; appName := "main";
          type := type; env := env; caseSensitive := false;
          backendEntry := Some "backend.js"; entry := Some "main.js";
          custom := [("title", VString "Sample")];
          host := VString "localhost"; port := VNumber 8080;
          backendPort := VNumber 3000;
          vueComponents := [("/p/src/old.vue", Obj.empty)];
          others := [("db", VObject [("password", VString "other")]);
                     ("apiKey", VString "k")] |};
     errors := [Error "stale"];
     vuePattern := None |}.

Definition outcome' (type env : string) : Plugin * list Effect :=
  match generateEntries false fs (clock 5) (fresh' type env) with
  | Normal result => result
  | Throw _ => (fresh' type env, [])
  end.

(** The controller after [apply]. *)
Definition started (type env : string) : Controller * list Effect :=
  match apply espree_parse pathToRegexp path_join path_relative
          nunjucks_render fs (clock 1000000) (fresh type env) with
  | Normal result => result
  | Throw _ => ({| plugin := fresh type env; watched := None |}, [])
  end.

(** An output directory where one file cannot be written. *)
Definition outputFileSync (file data : string) (disk : Obj.t string)
  : Obj.t string * option JSError :=
  if String.eqb file "/out/locked.js"
  then (disk, Some (Error "EACCES: permission denied"))
  else (Obj.set file data disk, None).

Definition asset (text : string) : BackendWebpackPlugin.Asset :=
  {| BackendWebpackPlugin.source := inl text |}.

Definition compiled : BackendWebpackPlugin.Compilation :=
  {| BackendWebpackPlugin.errors := [];
     BackendWebpackPlugin.assets :=
       [("backend.js", asset "a"); ("locked.js", asset "b");
        ("backend.js.map", asset "c")] |}.

Definition failed : BackendWebpackPlugin.Compilation :=
  {| BackendWebpackPlugin.errors := [Error "Module not found"];
     BackendWebpackPlugin.assets := [("backend.js", asset "a")] |}.

End Sample.

(** * Properties *)

(** ** Objects *)

Module ObjFacts.
Section ObjFacts.
Context {V : Type}.
Implicit Types (o : Obj.t V) (k : string) (v : V).

Lemma get_set_same k v o : Obj.get k (Obj.set k v o) = Some v.
Proof.
  induction o as [|[k' v'] o IH]; simpl.
  - now rewrite String.eqb_refl.
  - destruct (String.eqb k' k) eqn:E; simpl.
    + now rewrite String.eqb_refl.
    + now rewrite E.
Qed.

Lemma get_set_other k k' v o :
  k <> k' -> Obj.get k' (Obj.set k v o) = Obj.get k' o.
Proof.
  intros Hne. induction o as [|[k0 v0] o IH]; simpl.
  - apply String.eqb_neq in Hne. now rewrite Hne.
  - destruct (String.eqb k0 k) eqn:E; simpl.
    + apply String.eqb_eq in E. subst k0.
      apply String.eqb_neq in Hne. now rewrite Hne.
    + now rewrite IH.
Qed.

Lemma get_delete_same k o : Obj.get k (Obj.delete k o) = None.
Proof.
  induction o as [|[k' v'] o IH]; simpl; [reflexivity|].
  destruct (String.eqb k' k) eqn:E; simpl; [assumption|].
  now rewrite E.
Qed.

Lemma get_delete_other k k' o :
  k <> k' -> Obj.get k' (Obj.delete k o) = Obj.get k' o.
Proof.
  intros Hne. induction o as [|[k0 v0] o IH]; simpl; [reflexivity|].
  destruct (String.eqb k0 k) eqn:E; simpl.
  - apply String.eqb_eq in E. subst k0.
    apply String.eqb_neq in Hne. now rewrite Hne.
  - now rewrite IH.
Qed.

Lemma set_set_same k v v' o :
  Obj.set k v' (Obj.set k v o) = Obj.set k v' o.
Proof.
  induction o as [|[k0 v0] o IH]; simpl.
  - now rewrite String.eqb_refl.
  - destruct (String.eqb k0 k) eqn:E; simpl.
    + now rewrite String.eqb_refl.
    + now rewrite E, IH.
Qed.

Lemma delete_set_same k v o :
  Obj.delete k (Obj.set k v o) = Obj.delete k o.
Proof.
  induction o as [|[k0 v0] o IH]; simpl.
  - now rewrite String.eqb_refl.
  - destruct (String.eqb k0 k) eqn:E; simpl.
    + now rewrite String.eqb_refl.
    + now rewrite E, IH.
Qed.

Lemma in_keys_get k o : In k (Obj.keys o) <-> Obj.get k o <> None.
Proof.
  induction o as [|[k0 v0] o IH]; simpl.
  - split; [tauto | congruence].
  - destruct (String.eqb k0 k) eqn:E.
    + apply String.eqb_eq in E. split; [congruence | auto].
    + apply String.eqb_neq in E. rewrite <- IH. tauto.
Qed.

Lemma has_in_keys k o : Obj.has k o = true <-> In k (Obj.keys o).
Proof.
  rewrite in_keys_get. unfold Obj.has.
  destruct (Obj.get k o); split; congruence.
Qed.

Lemma in_keys_set k k' v o :
  In k' (Obj.keys (Obj.set k v o)) <-> k' = k \/ In k' (Obj.keys o).
Proof.
  rewrite !in_keys_get. destruct (string_dec k k') as [->|Hne].
  - rewrite get_set_same. split; [auto | congruence].
  - rewrite get_set_other by assumption. split; [auto|].
    intros [H|H]; congruence.
Qed.

Lemma in_keys_delete k k' o :
  In k' (Obj.keys (Obj.delete k o)) <-> k' <> k /\ In k' (Obj.keys o).
Proof.
  rewrite !in_keys_get. destruct (string_dec k k') as [->|Hne].
  - rewrite get_delete_same. split; [congruence | tauto].
  - rewrite get_delete_other by assumption. split; [auto | tauto].
Qed.

(** An object has no two properties of the same name. *)
Lemma keys_set_NoDup k v o :
  NoDup (Obj.keys o) -> NoDup (Obj.keys (Obj.set k v o)).
Proof.
  induction o as [|[k0 v0] o IH]; simpl; intros H.
  - constructor; [simpl; tauto | constructor].
  - inversion H as [|? ? Hnin Hnd]; subst.
    destruct (String.eqb k0 k) eqn:E; simpl.
    + apply String.eqb_eq in E. subst k0. now constructor.
    + constructor; [|now apply IH].
      fold (Obj.keys (Obj.set k v o)). rewrite in_keys_set.
      apply String.eqb_neq in E. intros [->|Hin]; [congruence | auto].
Qed.

Lemma keys_delete_NoDup k o :
  NoDup (Obj.keys o) -> NoDup (Obj.keys (Obj.delete k o)).
Proof.
  induction o as [|[k0 v0] o IH]; simpl; intros H; [constructor|].
  inversion H as [|? ? Hnin Hnd]; subst.
  destruct (String.eqb k0 k) eqn:E; simpl; [now apply IH|].
  constructor; [|now apply IH].
  fold (Obj.keys (Obj.delete k o)). rewrite in_keys_delete. tauto.
Qed.

Lemma get_app_notin k o1 o2 :
  ~ In k (Obj.keys o1) -> Obj.get k (o1 ++ o2) = Obj.get k o2.
Proof.
  induction o1 as [|[k0 v0] o1 IH]; simpl; intros H; [reflexivity|].
  destruct (String.eqb k0 k) eqn:E.
  - apply String.eqb_eq in E. tauto.
  - apply IH. tauto.
Qed.

(** Reading a property finds the entry that [for .. in] visits. *)
Lemma get_split k v o :
  Obj.get k o = Some v ->
  exists o1 o2, o = o1 ++ (k, v) :: o2 /\ ~ In k (Obj.keys o1).
Proof.
  induction o as [|[k0 v0] o IH]; simpl; [congruence|].
  destruct (String.eqb k0 k) eqn:E.
  - apply String.eqb_eq in E. subst k0. intros [= ->].
    exists [], o. simpl. tauto.
  - apply String.eqb_neq in E. intros H.
    destruct (IH H) as (o1 & o2 & -> & Hnin).
    exists ((k0, v0) :: o1), o2. simpl. split; [reflexivity|].
    intros [?|?]; [congruence | tauto].
Qed.

Lemma get_middle k v o1 o2 :
  NoDup (Obj.keys (o1 ++ (k, v) :: o2)) ->
  Obj.get k (o1 ++ (k, v) :: o2) = Some v.
Proof.
  intros Hnd. rewrite get_app_notin.
  - simpl. now rewrite String.eqb_refl.
  - unfold Obj.keys in Hnd. rewrite map_app in Hnd. simpl in Hnd.
    apply NoDup_remove_2 in Hnd. intros Hin. apply Hnd.
    apply in_or_app. now left.
Qed.

Lemma delete_notin k o : ~ In k (Obj.keys o) -> Obj.delete k o = o.
Proof.
  induction o as [|[k0 v0] o IH]; simpl; intros H; [reflexivity|].
  destruct (String.eqb k0 k) eqn:E.
  - apply String.eqb_eq in E. tauto.
  - f_equal. apply IH. tauto.
Qed.

Lemma delete_middle k v o1 o2 :
  NoDup (Obj.keys (o1 ++ (k, v) :: o2)) ->
  Obj.delete k (o1 ++ (k, v) :: o2) = o1 ++ o2 /\
  ~ In k (Obj.keys (o1 ++ o2)).
Proof.
  intros Hnd. unfold Obj.keys in Hnd. rewrite map_app in Hnd.
  simpl in Hnd. apply NoDup_remove_2 in Hnd.
  assert (~ In k (Obj.keys (o1 ++ o2))) as Hn.
  { unfold Obj.keys. now rewrite map_app. }
  split; [|assumption].
  unfold Obj.keys in Hn. rewrite map_app in Hn.
  induction o1 as [|[k0 v0] o1 IH]; simpl.
  - rewrite String.eqb_refl. apply delete_notin. exact Hn.
  - destruct (String.eqb k0 k) eqn:E.
    + apply String.eqb_eq in E. simpl in Hn. tauto.
    + f_equal. apply IH; simpl in *; tauto.
Qed.

End ObjFacts.
End ObjFacts.

(** ** Strings *)

Module JSFacts.

Import JS.

Lemma prefix_app (n s : string) :
  String.prefix n s = true <-> exists post, s = (n ++ post)%string.
Proof.
  revert s. induction n as [|a n IH]; intros s.
  - destruct s; simpl; split; intros; eauto.
  - destruct s as [|b s]; simpl.
    + split; [discriminate | intros [post H]; discriminate].
    + destruct (ascii_dec a b) as [->|Hne].
      * rewrite IH. split; intros [post H]; exists post; congruence.
      * split; [discriminate | intros [post H]; congruence].
Qed.

Lemma indexOfFrom_nil (n : string) (i : Z) :
  JS.indexOfFrom n i "" = if String.prefix n "" then i else (-1)%Z.
Proof. reflexivity. Qed.

Lemma indexOfFrom_cons (n : string) (i : Z) (c : ascii) (s : string) :
  JS.indexOfFrom n i (String c s) =
  if String.prefix n (String c s) then i
  else JS.indexOfFrom n (i + 1)%Z s.
Proof. reflexivity. Qed.

Lemma indexOfFrom_range (n s : string) (i : Z) :
  JS.indexOfFrom n i s = (-1)%Z \/ (i <= JS.indexOfFrom n i s)%Z.
Proof.
  revert i. induction s as [|c s IH]; intros i.
  - rewrite indexOfFrom_nil.
    destruct (String.prefix n ""); [right; lia | now left].
  - rewrite indexOfFrom_cons.
    destruct (String.prefix n (String c s)); [right; lia|].
    destruct (IH (i + 1)%Z) as [H|H]; [now left | right; lia].
Qed.

Lemma indexOfFrom_lacks (n s : string) (i : Z) :
  (0 <= i)%Z -> (JS.indexOfFrom n i s = (-1)%Z <-> lacks n s).
Proof.
  revert i. induction s as [|c s IH]; intros i Hi.
  - rewrite indexOfFrom_nil. destruct (String.prefix n "") eqn:E.
    + apply prefix_app in E. destruct E as [post E]. split; [lia|].
      intros H. exfalso. apply (H ""%string post). exact E.
    + split; [|reflexivity]. intros _ pre post H.
      assert (String.prefix n "" = true) as F; [|congruence].
      apply prefix_app. destruct pre; [now exists post | discriminate].
  - rewrite indexOfFrom_cons.
    destruct (String.prefix n (String c s)) eqn:E.
    + apply prefix_app in E. destruct E as [post E]. split; [lia|].
      intros H. exfalso. apply (H ""%string post). exact E.
    + rewrite (IH (i + 1)%Z) by lia. split; intros H pre post Heq.
      * destruct pre as [|a pre].
        -- assert (String.prefix n (String c s) = true) as F; [|congruence].
           apply prefix_app. now exists post.
        -- simpl in Heq. injection Heq as _ Heq. exact (H pre post Heq).
      * apply (H (String c pre) post). simpl. now rewrite Heq.
Qed.

(** [indexOf] answers [-1] exactly for the strings that lack the marker. *)
Lemma indexOf_lacks (s n : string) :
  JS.indexOf s n = (-1)%Z <-> lacks n s.
Proof. apply indexOfFrom_lacks. lia. Qed.

Lemma indexOf_range (s n : string) :
  JS.indexOf s n = (-1)%Z \/ (0 <= JS.indexOf s n)%Z.
Proof. apply indexOfFrom_range. Qed.

Lemma includes_In (array : list string) (x : string) :
  JS.includes array x = true <-> In x array.
Proof.
  unfold JS.includes. rewrite existsb_exists. split.
  - intros (y & Hin & E). apply String.eqb_eq in E. now subst.
  - intros Hin. exists x. split; [assumption | apply String.eqb_refl].
Qed.

Lemma startsWith_truthy (s : string) :
  JS.startsWith s "/" = true -> JS.truthy s = true.
Proof. destruct s; [discriminate | reflexivity]. Qed.

End JSFacts.

(** ** The scanning loop *)

Section ScanFacts.

Variable espree_parse : string -> option Program.
Variable path_relative : string -> string -> string.

Local Abbreviation error := (GenerateEntriesWebpackPlugin.error path_relative).
Local Abbreviation collectApps :=
  (GenerateEntriesWebpackPlugin.collectApps path_relative).
Local Abbreviation scanApps :=
  (GenerateEntriesWebpackPlugin.scanApps path_relative).
Local Abbreviation scanPath :=
  (GenerateEntriesWebpackPlugin.scanPath path_relative).
Local Abbreviation scanContent :=
  (GenerateEntriesWebpackPlugin.scanContent espree_parse path_relative).
Local Abbreviation scanFile :=
  (GenerateEntriesWebpackPlugin.scanFile espree_parse path_relative).
Local Abbreviation scanFiles :=
  (GenerateEntriesWebpackPlugin.scanFiles espree_parse path_relative).
Local Abbreviation fileScan :=
  (GenerateEntriesWebpackPlugin.fileScan espree_parse path_relative).
Local Abbreviation fileErrors :=
  (GenerateEntriesWebpackPlugin.fileErrors espree_parse path_relative).
Local Abbreviation fileInfo :=
  (GenerateEntriesWebpackPlugin.fileInfo espree_parse path_relative).

Implicit Types (T : Obj.t Info) (E : list JSError) (r st : Scan).

Lemma kept_settled T E p r st : kept T E p r st -> settled T E p r st.
Proof. intros [He Ht]. split; [assumption | now left]. Qed.

Lemma error_kept T E p config f m r st :
  kept T E p r st -> kept T E p (error config f m r) (error config f m st).
Proof.
  intros [He Ht]. split; simpl; [|assumption].
  now rewrite He, app_assoc.
Qed.

Lemma setComponent_kept T E p info r st :
  kept T E p r st ->
  kept T E p (setComponent p info r) (setComponent p info st).
Proof.
  intros [He (i & Hr & Ht)]. split; simpl; [assumption|].
  exists info. rewrite Hr, Ht. simpl. rewrite String.eqb_refl.
  split; [reflexivity | apply ObjFacts.set_set_same].
Qed.

Lemma deleteComponent_settled T E p r st :
  kept T E p r st ->
  settled T E p (deleteComponent p r) (deleteComponent p st).
Proof.
  intros [He (i & Hr & Ht)]. split; simpl; [assumption|].
  right. rewrite Hr, Ht. simpl. rewrite String.eqb_refl.
  split; [reflexivity | apply ObjFacts.delete_set_same].
Qed.

Lemma collectApps_kept T E p config elements apps r st :
  kept T E p r st ->
  agree (fun x y => fst x = fst y /\ kept T E p (snd x) (snd y))
    (collectApps config p elements apps r)
    (collectApps config p elements apps st).
Proof.
  revert apps r st.
  induction elements as [|[node|] elements IH]; intros apps r st H; simpl.
  - now split.
  - destruct node as [ | [] | | | ]; apply IH;
      try assumption; now apply error_kept.
  - reflexivity.
Qed.

Lemma scanApps_kept T E p config props r st :
  kept T E p r st ->
  agree (fun x y => fst x = fst y /\
                    match fst x with
                    | Proceed => kept T E p (snd x) (snd y)
                    | Continue => settled T E p (snd x) (snd y)
                    end)
    (scanApps config p props r) (scanApps config p props st).
Proof.
  intros H. unfold GenerateEntriesWebpackPlugin.scanApps.
  destruct (find (isNamed "apps") props) as [appsProp|]; [|now split].
  destruct (value appsProp) as [ | | elements | | ];
    try (split; [reflexivity | simpl; apply kept_settled; now apply error_kept]).
  destruct (0 <? Datatypes.length elements)%nat; [|now split].
  pose proof (collectApps_kept T E p config elements [] r st H) as Hc.
  destruct (collectApps config p elements [] r) as [[apps1 r1]|e1],
           (collectApps config p elements [] st) as [[apps2 st1]|e2];
    simpl in Hc |- *; try contradiction; [|assumption].
  destruct Hc as [-> Hk].
  destruct (negb (JS.includes apps2 (appName config))); simpl.
  - split; [reflexivity | now apply deleteComponent_settled].
  - now split.
Qed.

Lemma scanPath_kept T E p config props r st :
  kept T E p r st ->
  agree (settled T E p) (scanPath config p props r) (scanPath config p props st).
Proof.
  intros H. unfold GenerateEntriesWebpackPlugin.scanPath.
  destruct (find (isNamed "path") props) as [pathProp|];
    [|now apply kept_settled].
  destruct (value pathProp) as [ | [s| | | | ] | | | ];
    try (simpl; apply kept_settled; now apply error_kept).
  destruct (negb (JS.startsWith s "/")).
  - simpl. apply kept_settled. now apply error_kept.
  - pose proof H as [He (i & Hr & Ht)].
    assert (Obj.get p (table r) = Some i) as Gr.
    { rewrite Hr. simpl. now rewrite String.eqb_refl. }
    assert (Obj.get p (table st) = Some i) as Gs.
    { rewrite Ht. apply ObjFacts.get_set_same. }
    rewrite Gr, Gs. simpl. apply kept_settled.
    now apply setComponent_kept.
Qed.

(** The body of the loop acts on the table and on the errors as it does on
    empty ones. *)
Lemma scanContent_settled config fs p st :
  agree (settled (table st) (scanErrors st) p)
    (fileScan config fs p)
    (scanContent config p (readFileSync fs p) (setComponent p Obj.empty st)).
Proof.
  unfold GenerateEntriesWebpackPlugin.fileScan,
         GenerateEntriesWebpackPlugin.scanContent.
  set (r0 := setComponent p Obj.empty {| table := Obj.empty; scanErrors := [] |}).
  set (st0 := setComponent p Obj.empty st).
  assert (kept (table st) (scanErrors st) p r0 st0) as H.
  { split; simpl; [now rewrite app_nil_r|]. now exists Obj.empty. }
  clearbody r0 st0. cbv zeta.
  destruct (_ || _ || _); [simpl; apply kept_settled; now apply error_kept|].
  destruct (espree_parse _) as [ast|]; [|now apply kept_settled].
  destruct (find isExportDefault (body ast)) as [[decl|]|];
    try (simpl; apply kept_settled; now apply error_kept).
  destruct decl as [ | | | properties | ];
    try (simpl; apply kept_settled; now apply error_kept).
  destruct (find (isNamed "info") properties) as [infoProp|];
    [|now apply kept_settled].
  destruct (value infoProp) as [ | | | props | ];
    try (simpl; apply kept_settled; now apply error_kept).
  pose proof (scanApps_kept _ _ p config props r0 st0 H) as Ha.
  destruct (scanApps config p props r0) as [[flow1 r1]|e1],
           (scanApps config p props st0) as [[flow2 st1]|e2];
    simpl in Ha |- *; try contradiction; [|assumption].
  destruct Ha as [-> Hk]. destruct flow2; simpl.
  - now apply scanPath_kept.
  - assumption.
Qed.

(** The body of the loop is the reading of the file, then what is made of
    its text. *)
Lemma scanFile_read config fs p st :
  scanFile config fs p st =
  match throws fs (ReadFileSync p) with
  | Some e => Throw e
  | None =>
      scanContent config p (readFileSync fs p) (setComponent p Obj.empty st)
  end.
Proof.
  unfold GenerateEntriesWebpackPlugin.scanFile, call.
  now destruct (throws fs (ReadFileSync p)).
Qed.

Lemma scanFile_normal config fs p st st' :
  scanFile config fs p st = Normal st' ->
  throws fs (ReadFileSync p) = None /\
  exists r, fileScan config fs p = Normal r /\
            settled (table st) (scanErrors st) p r st'.
Proof.
  rewrite scanFile_read. intros H.
  destruct (throws fs (ReadFileSync p)); [discriminate|].
  split; [reflexivity|].
  pose proof (scanContent_settled config fs p st) as Hs.
  rewrite H in Hs. destruct (fileScan config fs p) as [r|e]; [|contradiction].
  now exists r.
Qed.

Lemma settled_get T E p r st :
  settled T E p r st -> Obj.get p (table st) = Obj.get p (table r).
Proof.
  intros [_ [(i & Hr & Ht)|[Hr Ht]]]; rewrite Hr, Ht; simpl.
  - now rewrite ObjFacts.get_set_same, String.eqb_refl.
  - apply ObjFacts.get_delete_same.
Qed.

Lemma settled_get_other T E p r st k :
  settled T E p r st -> p <> k -> Obj.get k (table st) = Obj.get k T.
Proof.
  intros [_ [(i & Hr & Ht)|[Hr Ht]]] Hne; rewrite Ht.
  - now apply ObjFacts.get_set_other.
  - now apply ObjFacts.get_delete_other.
Qed.

Lemma settled_NoDup T E p r st :
  settled T E p r st -> NoDup (Obj.keys T) -> NoDup (Obj.keys (table st)).
Proof.
  intros [_ [(i & Hr & Ht)|[Hr Ht]]] Hnd; rewrite Ht.
  - now apply ObjFacts.keys_set_NoDup.
  - now apply ObjFacts.keys_delete_NoDup.
Qed.

(** The loop over the files: the errors are those of the files, in order;
    the entry of a file of the pass is what the body makes of that file on
    its own; the other keys are left alone. *)
Lemma scanFiles_spec config fs paths st st' :
  scanFiles config fs paths st = Normal st' ->
  scanErrors st' = scanErrors st ++ flat_map (fileErrors config fs) paths /\
  (forall p, In p paths ->
             Obj.get p (table st') = fileInfo config fs p /\
             exists r, fileScan config fs p = Normal r) /\
  (forall p, ~ In p paths -> Obj.get p (table st') = Obj.get p (table st)) /\
  (NoDup (Obj.keys (table st)) -> NoDup (Obj.keys (table st'))).
Proof.
  revert st. induction paths as [|q paths IH]; intros st H; simpl in H.
  - injection H as <-. simpl. rewrite app_nil_r.
    repeat split; auto; contradiction.
  - destruct (scanFile config fs q st) as [st1|e] eqn:Hq;
      simpl in H; [|discriminate].
    destruct (scanFile_normal _ _ _ _ _ Hq) as (_ & r & Hr & Hs).
    destruct (IH _ H) as (He & Hin & Hout & Hnd).
    assert (fileInfo config fs q = Obj.get q (table r)) as Hi.
    { unfold GenerateEntriesWebpackPlugin.fileInfo. now rewrite Hr. }
    split; [|split; [|split]].
    + rewrite He. destruct Hs as [-> _]. simpl.
      unfold GenerateEntriesWebpackPlugin.fileErrors at 2. rewrite Hr.
      now rewrite app_assoc.
    + intros p [<-|Hp]; [|now apply Hin]. split; [|now exists r].
      destruct (in_dec string_dec q paths) as [Hq'|Hq'];
        [now apply Hin|].
      rewrite (Hout _ Hq'), Hi. eapply settled_get; eassumption.
    + intros p Hp. simpl in Hp. rewrite Hout by tauto.
      eapply settled_get_other; [eassumption | tauto].
    + intros Hn. apply Hnd. eapply settled_NoDup; eassumption.
Qed.

(** A loop that ends normally has read every file. *)
Lemma scanFiles_read config fs paths st st' :
  scanFiles config fs paths st = Normal st' ->
  forall p, In p paths -> throws fs (ReadFileSync p) = None.
Proof.
  revert st. induction paths as [|q paths IH]; intros st H p Hp;
    [contradiction|].
  simpl in H.
  destruct (scanFile config fs q st) as [st1|e] eqn:Hq;
    simpl in H; [|discriminate].
  destruct Hp as [<-|Hp]; [|now apply (IH _ H)].
  now destruct (scanFile_normal _ _ _ _ _ Hq).
Qed.

(** The loop ends normally when every file is read and the body ends
    normally on the text of each. *)
Lemma scanFiles_total config fs paths st :
  (forall p, In p paths -> throws fs (ReadFileSync p) = None) ->
  (forall p, In p paths -> exists r, fileScan config fs p = Normal r) ->
  exists st', scanFiles config fs paths st = Normal st'.
Proof.
  revert st. induction paths as [|q paths IH]; intros st Hread H; simpl.
  - now exists st.
  - destruct (H q) as [r Hr]; [now left|].
    pose proof (scanContent_settled config fs q st) as Hs. rewrite Hr in Hs.
    rewrite scanFile_read, (Hread q) by now left.
    destruct (scanContent config q _ _) as [st1|e]; [|contradiction].
    simpl. apply IH; intros p Hp; [apply Hread | apply H]; now right.
Qed.

(** The exception of a loop that throws: that of the reading of a file, or
    that of the body on its text. *)
Lemma scanFiles_throw_file config fs paths st e :
  scanFiles config fs paths st = Throw e ->
  exists p, In p paths /\
            (throws fs (ReadFileSync p) = Some e \/
             fileScan config fs p = Throw e).
Proof.
  revert st. induction paths as [|q paths IH]; intros st; simpl;
    [discriminate|].
  pose proof (scanContent_settled config fs q st) as Hs.
  rewrite scanFile_read.
  destruct (throws fs (ReadFileSync q)) as [e0|] eqn:Hread.
  - intros [= ->]. exists q. split; [now left | now left].
  - destruct (scanContent config q _ _) as [st1|e1]; simpl.
    + intros H. destruct (IH _ H) as (p & Hp & Hf). exists p. tauto.
    + intros [= ->].
      destruct (fileScan config fs q) as [r|e2] eqn:Hq; [contradiction|].
      simpl in Hs. subst e2. exists q. split; [now left | now right].
Qed.

(** The loop throws when the body does on the text of one of the files. *)
Lemma scanFiles_throw config fs paths st p e :
  In p paths ->
  fileScan config fs p = Throw e ->
  exists e', scanFiles config fs paths st = Throw e'.
Proof.
  revert st. induction paths as [|q paths IH]; intros st Hin Hp;
    [contradiction|].
  simpl. rewrite scanFile_read.
  destruct (throws fs (ReadFileSync q)) as [e0|]; [now exists e0|].
  pose proof (scanContent_settled config fs q st) as Hs.
  destruct (scanContent config q _ _) as [st1|e1]; [|now exists e1].
  simpl. destruct Hin as [->|Hin]; [|now apply IH].
  rewrite Hp in Hs. contradiction.
Qed.

End ScanFacts.

(** ** The body of the loop on one file *)

Section FileFacts.

Variable espree_parse : string -> option Program.
Variable path_relative : string -> string -> string.

Local Abbreviation error := (GenerateEntriesWebpackPlugin.error path_relative).
Local Abbreviation collectApps :=
  (GenerateEntriesWebpackPlugin.collectApps path_relative).
Local Abbreviation scanApps :=
  (GenerateEntriesWebpackPlugin.scanApps path_relative).
Local Abbreviation scanPath :=
  (GenerateEntriesWebpackPlugin.scanPath path_relative).
Local Abbreviation scanFile :=
  (GenerateEntriesWebpackPlugin.scanFile espree_parse path_relative).
Local Abbreviation fileScan :=
  (GenerateEntriesWebpackPlugin.fileScan espree_parse path_relative).
Local Abbreviation exportedOptions :=
  (GenerateEntriesWebpackPlugin.exportedOptions espree_parse).
Local Abbreviation infoProps :=
  (GenerateEntriesWebpackPlugin.infoProps espree_parse).
Local Abbreviation infoOption :=
  (GenerateEntriesWebpackPlugin.infoOption espree_parse).
Local Abbreviation fileError :=
  (GenerateEntriesWebpackPlugin.fileError path_relative).
Local Abbreviation fileOf := (GenerateEntriesWebpackPlugin.fileOf path_relative).

(** The state once the component has been entered in an empty table. *)
Local Abbreviation entered p := {| table := [(p, Obj.empty)]; scanErrors := [] |}.

Ltac unfold_scan :=
  unfold GenerateEntriesWebpackPlugin.fileScan,
         GenerateEntriesWebpackPlugin.scanContent,
         GenerateEntriesWebpackPlugin.infoOption,
         GenerateEntriesWebpackPlugin.infoProps,
         GenerateEntriesWebpackPlugin.exportedOptions,
         GenerateEntriesWebpackPlugin.scriptBlock in *;
  cbv zeta in *.

Lemma fileScan_no_script config fs p :
  scriptBlock (readFileSync fs p) = None ->
  fileScan config fs p =
  Normal {| table := [(p, Obj.empty)];
            scanErrors :=
              [fileError config p "<script>...</script> block was not found"] |}.
Proof.
  intros H. unfold_scan.
  destruct (_ || _ || _); [reflexivity | discriminate].
Qed.

Lemma fileScan_parse_error config fs p script :
  scriptBlock (readFileSync fs p) = Some script ->
  espree_parse script = None ->
  fileScan config fs p = Normal (entered p).
Proof.
  intros H Hp. unfold_scan.
  destruct (_ || _ || _); [discriminate|].
  injection H as H. now rewrite H, Hp.
Qed.

Lemma fileScan_no_info config fs p properties :
  exportedOptions (readFileSync fs p) = Some properties ->
  find (isNamed "info") properties = None ->
  fileScan config fs p = Normal (entered p).
Proof.
  intros H Hi. unfold_scan.
  destruct (_ || _ || _); [discriminate|].
  destruct (espree_parse _) as [ast|]; [|discriminate].
  destruct (find isExportDefault (body ast)) as [[[]|]|]; try discriminate.
  injection H as ->. now rewrite Hi.
Qed.

Lemma fileScan_info config fs p props :
  infoProps (readFileSync fs p) = Some props ->
  fileScan config fs p =
  ('(flow, st) <- scanApps config p props (entered p) ;;
   match flow with
   | Continue => Normal st
   | Proceed => scanPath config p props st
   end).
Proof.
  intros H. unfold_scan.
  destruct (_ || _ || _); [discriminate|].
  destruct (espree_parse _) as [ast|]; [|discriminate].
  destruct (find isExportDefault (body ast)) as [[[]|]|]; try discriminate.
  destruct (find (isNamed "info") properties) as [infoProp|]; [|discriminate].
  destruct (value infoProp); try discriminate.
  now injection H as ->.
Qed.

(** *** The elements of [info.apps] *)

Lemma collectApps_strings config p apps acc st :
  collectApps config p (map stringLiteral apps) acc st
  = Normal (acc ++ apps, st).
Proof.
  revert acc. induction apps as [|a apps IH]; intros acc; simpl.
  - now rewrite app_nil_r.
  - rewrite IH. now rewrite <- app_assoc.
Qed.

Lemma collectApps_others config p nodes acc st :
  Forall (fun node => isStringLiteral (Some node) = false) nodes ->
  collectApps config p (map Some nodes) acc st
  = Normal (acc,
            {| table := table st;
               scanErrors :=
                 scanErrors st ++
                 repeat (fileError config p
                           "All items of 'info.apps' option be string literals")
                        (List.length nodes) |}).
Proof.
  intros H. revert st. induction H as [|node nodes Hn _ IH]; intros st; simpl.
  - rewrite app_nil_r. now destruct st.
  - destruct node as [ | [] | | | ]; try discriminate;
      rewrite IH; simpl; now rewrite <- app_assoc.
Qed.

Lemma collectApps_table config p elements acc st apps st' :
  collectApps config p elements acc st = Normal (apps, st') ->
  table st' = table st.
Proof.
  revert acc st.
  induction elements as [|[node|] elements IH]; intros acc st H; simpl in H.
  - now injection H as _ <-.
  - destruct node as [ | [] | | | ]; apply IH in H; exact H.
  - discriminate.
Qed.

(** The elements are read one by one until an elision is met. *)
Lemma collectApps_elision config p elements acc st :
  noElision elements = false ->
  collectApps config p elements acc st
  = Throw (TypeError "Cannot read property 'type' of null").
Proof.
  revert acc st.
  induction elements as [|[node|] elements IH]; intros acc st H; simpl in *.
  - discriminate.
  - destruct node as [ | [] | | | ]; now apply IH.
  - reflexivity.
Qed.

(** *** The two blocks *)

Lemma scanApps_cases config p props st flow st' info :
  scanApps config p props st = Normal (flow, st') ->
  table st = [(p, info)] ->
  (flow = Proceed /\ table st' = [(p, info)]) \/
  (flow = Continue /\
   ((table st' = [(p, info)] /\
     exists appsProp, find (isNamed "apps") props = Some appsProp /\
                      forall elements,
                        value appsProp <> ArrayExpression elements) \/
    (table st' = [] /\
     exists appsProp elements,
       find (isNamed "apps") props = Some appsProp /\
       value appsProp = ArrayExpression elements /\
       elements <> []))).
Proof.
  unfold GenerateEntriesWebpackPlugin.scanApps. intros H Ht.
  destruct (find (isNamed "apps") props) as [appsProp|].
  2:{ injection H as <- <-. now left. }
  destruct (value appsProp) as [ | | elements | | ] eqn:Hv;
    try (injection H as <- <-; right; split; [reflexivity|]; left;
         split; [exact Ht|]; exists appsProp;
         split; [reflexivity | intros; rewrite Hv; discriminate]).
  destruct elements as [|element elements];
    [injection H as <- <-; now left|].
  cbn [List.length Nat.ltb Nat.leb] in H.
  destruct (collectApps config p (element :: elements) [] st)
    as [[apps st1]|e] eqn:Hc; [|discriminate].
  apply collectApps_table in Hc. simpl in H.
  destruct (negb (JS.includes apps (appName config))).
  - injection H as <- <-. right. split; [reflexivity|]. right. split.
    + simpl. rewrite Hc, Ht. simpl. now rewrite String.eqb_refl.
    + exists appsProp, (element :: elements). now repeat split.
  - injection H as <- <-. left. split; [reflexivity | congruence].
Qed.

Lemma scanPath_present config p props st info :
  table st = [(p, info)] ->
  exists st' info', scanPath config p props st = Normal st' /\
                    table st' = [(p, info')].
Proof.
  intros Ht. unfold GenerateEntriesWebpackPlugin.scanPath.
  destruct (find (isNamed "path") props) as [pathProp|];
    [|now exists st, info].
  destruct (value pathProp) as [ | [s| | | | ] | | | ];
    try (eexists; exists info; split; [reflexivity | exact Ht]).
  destruct (negb (JS.startsWith s "/"));
    [eexists; exists info; split; [reflexivity | exact Ht]|].
  rewrite Ht. simpl. rewrite String.eqb_refl.
  eexists; eexists; split; [reflexivity|]. simpl.
  now rewrite Ht; simpl; rewrite String.eqb_refl.
Qed.

Lemma scanPath_shape config p props st st' :
  table st = [(p, Obj.empty)] ->
  scanPath config p props st = Normal st' ->
  table st' = [(p, Obj.empty)] \/
  exists s, table st' = [(p, [("path", s)])] /\ JS.startsWith s "/" = true.
Proof.
  intros Ht. unfold GenerateEntriesWebpackPlugin.scanPath.
  destruct (find (isNamed "path") props) as [pathProp|];
    [|intros [= <-]; now left].
  destruct (value pathProp) as [ | [s| | | | ] | | | ];
    try (intros [= <-]; now left).
  destruct (JS.startsWith s "/") eqn:Hs; simpl;
    [|intros [= <-]; now left].
  rewrite Ht. simpl. rewrite String.eqb_refl. intros [= <-]. right.
  exists s. simpl. rewrite Ht. simpl. now rewrite String.eqb_refl.
Qed.

(** Without an [info] object literal the component is entered as it is. *)
Lemma fileScan_no_info_props config fs p r :
  infoProps (readFileSync fs p) = None ->
  fileScan config fs p = Normal r ->
  table r = [(p, Obj.empty)].
Proof.
  intros H. unfold_scan.
  destruct (_ || _ || _); [now intros [= <-]|].
  destruct (espree_parse _) as [ast|]; [|now intros [= <-]].
  destruct (find isExportDefault (body ast)) as [[[]|]|];
    try (now intros [= <-]).
  destruct (find (isNamed "info") properties) as [infoProp|];
    [|now intros [= <-]].
  destruct (value infoProp); try (now intros [= <-]).
  discriminate.
Qed.

(** The component is still in the table after the body, unless [info.apps]
    is an array literal that is not empty. *)
Lemma fileScan_cases config fs p r :
  fileScan config fs p = Normal r ->
  (exists info, table r = [(p, info)] /\
                (info = Obj.empty \/
                 exists s, info = [("path", s)] /\
                           JS.startsWith s "/" = true)) \/
  (table r = [] /\
   exists elements,
     infoOption "apps" (readFileSync fs p) = Some (ArrayExpression elements) /\
     elements <> []).
Proof.
  intros H.
  destruct (infoProps (readFileSync fs p)) as [props|] eqn:Hi.
  2:{ left. exists Obj.empty.
      split; [eapply fileScan_no_info_props; eassumption | now left]. }
  rewrite (fileScan_info _ _ _ _ Hi) in H.
  destruct (scanApps config p props (entered p)) as [[flow st]|e] eqn:Ha;
    [|discriminate].
  simpl in H.
  destruct (scanApps_cases _ _ _ _ _ _ Obj.empty Ha eq_refl)
    as [[-> Ht]|[-> [[Ht _]|[Ht (appsProp & elements & Hf & Hv & Hne)]]]].
  - destruct (scanPath_shape _ _ _ _ _ Ht H) as [Hr|(s & Hr & Hs)]; left.
    + exists Obj.empty. split; [assumption | now left].
    + exists [("path", s)]. split; [assumption | right; now exists s].
  - injection H as <-. left. exists Obj.empty. split; [assumption | now left].
  - injection H as <-. right. split; [assumption|]. exists elements.
    unfold GenerateEntriesWebpackPlugin.infoOption.
    rewrite Hi, Hf. simpl. now rewrite Hv.
Qed.

(** *** The errors of a file carry its name *)

Definition tagged (config : Config) (p : string) (st : Scan) : Prop :=
  Forall (fun e => file e = fileOf config p) (scanErrors st).

Lemma error_tagged config p m st :
  tagged config p st -> tagged config p (error config p m st).
Proof.
  intros H. unfold tagged. simpl. apply Forall_app. split; [assumption|].
  now constructor.
Qed.

Lemma collectApps_tagged config p elements acc st apps st' :
  collectApps config p elements acc st = Normal (apps, st') ->
  tagged config p st -> tagged config p st'.
Proof.
  revert acc st.
  induction elements as [|[node|] elements IH]; intros acc st H Ht;
    simpl in H.
  - now injection H as _ <-.
  - destruct node as [ | [] | | | ]; apply IH in H;
      try assumption; now apply error_tagged.
  - discriminate.
Qed.

Lemma scanApps_tagged config p props st flow st' :
  scanApps config p props st = Normal (flow, st') ->
  tagged config p st -> tagged config p st'.
Proof.
  unfold GenerateEntriesWebpackPlugin.scanApps. intros H Ht.
  destruct (find (isNamed "apps") props) as [appsProp|];
    [|now injection H as _ <-].
  destruct (value appsProp) as [ | | elements | | ];
    try (injection H as _ <-; now apply error_tagged).
  destruct (0 <? Datatypes.length elements)%nat; [|now injection H as _ <-].
  destruct (collectApps config p elements [] st) as [[apps st1]|e] eqn:Hc;
    [|discriminate].
  apply collectApps_tagged in Hc; [|assumption]. simpl in H.
  destruct (negb _); now injection H as _ <-.
Qed.

Lemma scanPath_tagged config p props st st' :
  scanPath config p props st = Normal st' ->
  tagged config p st -> tagged config p st'.
Proof.
  unfold GenerateEntriesWebpackPlugin.scanPath. intros H Ht.
  destruct (find (isNamed "path") props) as [pathProp|];
    [|now injection H as <-].
  destruct (value pathProp) as [ | [s| | | | ] | | | ];
    try (injection H as <-; now apply error_tagged).
  destruct (negb _); [injection H as <-; now apply error_tagged|].
  destruct (Obj.get p (table st)); [|discriminate].
  now injection H as <-.
Qed.

Lemma fileScan_tagged config fs p r :
  fileScan config fs p = Normal r -> tagged config p r.
Proof.
  assert (tagged config p (entered p)) as H0 by constructor.
  destruct (infoProps (readFileSync fs p)) as [props|] eqn:Hi.
  - rewrite (fileScan_info _ _ _ _ Hi).
    destruct (scanApps config p props (entered p)) as [[flow st]|e] eqn:Ha;
      [|discriminate].
    apply scanApps_tagged in Ha; [|assumption]. simpl.
    destruct flow; [|now intros [= <-]].
    intros H. eapply scanPath_tagged; eassumption.
  - unfold_scan.
    destruct (_ || _ || _);
      [intros [= <-]; now apply (error_tagged config p _ (entered p))|].
    destruct (espree_parse _) as [ast|]; [|now intros [= <-]].
    destruct (find isExportDefault (body ast)) as [[[]|]|];
      try (intros [= <-]; now apply (error_tagged config p _ (entered p))).
    destruct (find (isNamed "info") properties) as [infoProp|];
      [|now intros [= <-]].
    destruct (value infoProp);
      try (intros [= <-]; now apply (error_tagged config p _ (entered p))).
    discriminate Hi.
Qed.

(** *** [info.apps] and the name of the application *)

(** [info.apps] is absent, an empty array, or an array of string literals
    with the name of the application among them. *)
Definition appsAllow (appName : string) (props : list Property) : Prop :=
  find (isNamed "apps") props = None \/
  exists appsProp apps,
    find (isNamed "apps") props = Some appsProp /\
    value appsProp = ArrayExpression (map stringLiteral apps) /\
    (apps = [] \/ In appName apps).

Lemma scanApps_allow config p props st :
  appsAllow (appName config) props ->
  scanApps config p props st = Normal (Proceed, st).
Proof.
  unfold GenerateEntriesWebpackPlugin.scanApps.
  intros [->|(appsProp & apps & -> & -> & H)]; [reflexivity|].
  destruct apps as [|a apps]; [reflexivity|].
  destruct H as [H|H]; [discriminate|].
  cbn [map List.length Nat.ltb Nat.leb].
  change (stringLiteral a :: map stringLiteral apps)
    with (map stringLiteral (a :: apps)).
  rewrite collectApps_strings. simpl app. cbn [bind].
  apply JSFacts.includes_In in H. now rewrite H.
Qed.

Lemma scanApps_strings config p props st appsProp apps :
  find (isNamed "apps") props = Some appsProp ->
  value appsProp = ArrayExpression (map stringLiteral apps) ->
  apps <> [] ->
  scanApps config p props st =
  Normal (if JS.includes apps (appName config)
          then (Proceed, st)
          else (Continue, deleteComponent p st)).
Proof.
  unfold GenerateEntriesWebpackPlugin.scanApps. intros -> -> H.
  destruct apps as [|a apps]; [congruence|].
  cbn [map List.length Nat.ltb Nat.leb].
  change (stringLiteral a :: map stringLiteral apps)
    with (map stringLiteral (a :: apps)).
  rewrite collectApps_strings. simpl app. cbn [bind].
  now destruct (JS.includes (a :: apps) (appName config)).
Qed.

Lemma scanApps_others config p props st appsProp nodes :
  find (isNamed "apps") props = Some appsProp ->
  value appsProp = ArrayExpression (map Some nodes) ->
  nodes <> [] ->
  Forall (fun node => isStringLiteral (Some node) = false) nodes ->
  scanApps config p props st =
  Normal (Continue,
          {| table := Obj.delete p (table st);
             scanErrors :=
               scanErrors st ++
               repeat (fileError config p
                         "All items of 'info.apps' option be string literals")
                      (List.length nodes) |}).
Proof.
  unfold GenerateEntriesWebpackPlugin.scanApps. intros -> -> Hne H.
  destruct nodes as [|n nodes]; [congruence|].
  cbn [map List.length Nat.ltb Nat.leb].
  change (Some n :: map Some nodes) with (map Some (n :: nodes)).
  now rewrite (collectApps_others _ _ _ _ _ H).
Qed.

Lemma scanPath_no_slash config p props st pathProp s :
  find (isNamed "path") props = Some pathProp ->
  value pathProp = Literal (LString s) ->
  JS.startsWith s "/" = false ->
  scanPath config p props st
  = Normal (error config p "'info.path' option must start with '/'" st).
Proof.
  unfold GenerateEntriesWebpackPlugin.scanPath. now intros -> -> ->.
Qed.

(** With string literals only in [info.apps], the name of the application
    decides. *)
Lemma fileScan_strings config fs p fr names :
  infoOption "apps" (readFileSync fs p)
  = Some (ArrayExpression (map stringLiteral names)) ->
  names <> [] ->
  fileScan config fs p = Normal fr ->
  if JS.includes names (appName config)
  then exists info, table fr = [(p, info)] /\
                    (info = Obj.empty \/
                     exists s, info = [("path", s)] /\
                               JS.startsWith s "/" = true)
  else table fr = [].
Proof.
  intros Ha Hne Hfr.
  unfold GenerateEntriesWebpackPlugin.infoOption in Ha.
  destruct (infoProps (readFileSync fs p)) as [props|] eqn:Hi;
    [|discriminate].
  destruct (find (isNamed "apps") props) as [appsProp|] eqn:Hf;
    [|discriminate].
  injection Ha as Ha.
  rewrite (fileScan_info _ _ _ _ Hi) in Hfr.
  rewrite (scanApps_strings _ _ _ _ _ _ Hf Ha Hne) in Hfr.
  destruct (JS.includes names (appName config)); cbn [bind] in Hfr.
  - destruct (scanPath_shape config p props (entered p) fr eq_refl Hfr)
      as [Ht|(s & Ht & Hs)].
    + exists Obj.empty. split; [assumption | now left].
    + exists [("path", s)]. split; [assumption | right; now exists s].
  - injection Hfr as <-. simpl. now rewrite String.eqb_refl.
Qed.

(** *** When the body ends normally *)

Lemma collectApps_total config p elements acc st :
  noElision elements = true ->
  exists apps st', collectApps config p elements acc st = Normal (apps, st').
Proof.
  revert acc st.
  induction elements as [|[node|] elements IH]; intros acc st H; simpl in *.
  - now exists acc, st.
  - destruct node as [ | [] | | | ]; now apply IH.
  - discriminate.
Qed.

Lemma fileScan_total config fs p :
  (forall elements,
      infoOption "apps" (readFileSync fs p) = Some (ArrayExpression elements) ->
      noElision elements = true) ->
  exists fr, fileScan config fs p = Normal fr.
Proof.
  intros H.
  destruct (infoProps (readFileSync fs p)) as [props|] eqn:Hi.
  - rewrite (fileScan_info _ _ _ _ Hi).
    unfold GenerateEntriesWebpackPlugin.infoOption in H. rewrite Hi in H.
    assert (exists flow st info,
               scanApps config p props (entered p) = Normal (flow, st) /\
               (flow = Proceed -> table st = [(p, info)])) as Ha.
    { unfold GenerateEntriesWebpackPlugin.scanApps.
      destruct (find (isNamed "apps") props) as [appsProp|];
        [|now exists Proceed, (entered p), Obj.empty].
      destruct (value appsProp) as [ | | elements | | ] eqn:Hv;
        try (eexists Continue, _, Obj.empty; split;
             [reflexivity | discriminate]).
      assert (noElision elements = true) as Hn
        by (apply H; simpl; now rewrite Hv).
      destruct (0 <? Datatypes.length elements)%nat;
        [|now exists Proceed, (entered p), Obj.empty].
      destruct (collectApps_total config p elements [] (entered p) Hn)
        as (apps & st' & Hc).
      rewrite Hc. cbn [bind]. apply collectApps_table in Hc.
      destruct (negb _).
      - eexists Continue, _, Obj.empty. split; [reflexivity | discriminate].
      - exists Proceed, st', Obj.empty. split; [reflexivity | now intros _]. }
    destruct Ha as (flow & st & info & -> & Ht). cbn [bind].
    destruct flow; [|now exists st].
    destruct (scanPath_present config p props st info (Ht eq_refl))
      as (st' & _ & -> & _).
    now exists st'.
  - clear H. unfold_scan.
    destruct (_ || _ || _); [eexists; reflexivity|].
    destruct (espree_parse _) as [ast|]; [|eexists; reflexivity].
    destruct (find isExportDefault (body ast)) as [[[]|]|];
      try (eexists; reflexivity).
    destruct (find (isNamed "info") properties) as [infoProp|];
      [|eexists; reflexivity].
    destruct (value infoProp); try (eexists; reflexivity).
    discriminate Hi.
Qed.

(** An elision in [info.apps] ends the body, and the pass, with a
    [TypeError]. *)
Lemma fileScan_elision config fs p elements :
  infoOption "apps" (readFileSync fs p) = Some (ArrayExpression elements) ->
  noElision elements = false ->
  fileScan config fs p
  = Throw (TypeError "Cannot read property 'type' of null").
Proof.
  intros Ha Hn.
  unfold GenerateEntriesWebpackPlugin.infoOption in Ha.
  destruct (infoProps (readFileSync fs p)) as [props|] eqn:Hi;
    [|discriminate].
  destruct (find (isNamed "apps") props) as [appsProp|] eqn:Hf;
    [|discriminate].
  injection Ha as Ha.
  rewrite (fileScan_info _ _ _ _ Hi).
  unfold GenerateEntriesWebpackPlugin.scanApps. rewrite Hf, Ha.
  destruct elements as [|element elements]; [discriminate|].
  cbn [List.length Nat.ltb Nat.leb].
  now rewrite collectApps_elision.
Qed.

(** Nothing else makes the body throw. *)
Lemma fileScan_throw config fs p e :
  fileScan config fs p = Throw e ->
  name e = "TypeError" /\
  exists elements,
    infoOption "apps" (readFileSync fs p) = Some (ArrayExpression elements) /\
    noElision elements = false.
Proof.
  intros H.
  assert ((forall elements,
              infoOption "apps" (readFileSync fs p)
              = Some (ArrayExpression elements) ->
              noElision elements = true) -> False) as Hno.
  { intros Hall.
    destruct (fileScan_total config fs p Hall) as [fr Hfr]. congruence. }
  destruct (infoOption "apps" (readFileSync fs p)) as [node|] eqn:Ha;
    [|exfalso; apply Hno; intros; discriminate].
  destruct node as [ | | elements | | ];
    try (exfalso; apply Hno; intros; discriminate).
  destruct (noElision elements) eqn:Hn;
    [exfalso; apply Hno; intros elements' [= <-]; exact Hn|].
  unfold GenerateEntriesWebpackPlugin.infoOption in Ha.
  destruct (infoProps (readFileSync fs p)) as [props|] eqn:Hi;
    [|discriminate].
  assert (GenerateEntriesWebpackPlugin.infoOption espree_parse "apps"
            (readFileSync fs p) = Some (ArrayExpression elements)) as Ha'.
  { unfold GenerateEntriesWebpackPlugin.infoOption. now rewrite Hi. }
  rewrite (fileScan_elision _ _ _ _ Ha' Hn) in H. injection H as <-.
  split; [reflexivity|]. now exists elements.
Qed.

End FileFacts.

(** ** One generation pass *)

Section PassFacts.

Variable espree_parse : string -> option Program.
Variable pathToRegexp : string -> bool -> string + string.
Variable path_join : list string -> string.
Variable path_relative : string -> string -> string.
Variable nunjucks_render : string -> TemplateData -> string.

Local Abbreviation compilePagePaths :=
  (GenerateEntriesWebpackPlugin.compilePagePaths pathToRegexp).
Local Abbreviation compiledPaths :=
  (GenerateEntriesWebpackPlugin.compiledPaths pathToRegexp).
Local Abbreviation pagePathErrors :=
  (GenerateEntriesWebpackPlugin.pagePathErrors pathToRegexp).
Local Abbreviation scanFiles :=
  (GenerateEntriesWebpackPlugin.scanFiles espree_parse path_relative).
Local Abbreviation fileScan :=
  (GenerateEntriesWebpackPlugin.fileScan espree_parse path_relative).
Local Abbreviation fileErrors :=
  (GenerateEntriesWebpackPlugin.fileErrors espree_parse path_relative).
Local Abbreviation fileOf := (GenerateEntriesWebpackPlugin.fileOf path_relative).
Local Abbreviation errorsOf :=
  (GenerateEntriesWebpackPlugin.errorsOf path_relative).
Local Abbreviation vuePathsOf :=
  (GenerateEntriesWebpackPlugin.vuePathsOf path_join).
Local Abbreviation distinctFiles :=
  (GenerateEntriesWebpackPlugin.distinctFiles path_join path_relative).
Local Abbreviation writeEntries :=
  (GenerateEntriesWebpackPlugin.writeEntries path_join).
Local Abbreviation entryFile :=
  (GenerateEntriesWebpackPlugin.entryFile path_join).
Local Abbreviation templatesOf :=
  (GenerateEntriesWebpackPlugin.templatesOf pathToRegexp path_join).
Local Abbreviation entriesOf :=
  (GenerateEntriesWebpackPlugin.entriesOf pathToRegexp path_join
     nunjucks_render).
Local Abbreviation generateEntries :=
  (GenerateEntriesWebpackPlugin.generateEntries espree_parse pathToRegexp
     path_join path_relative nunjucks_render).

(** *** The loop over the table *)

Lemma compilePagePaths_acc config components pagePaths errs :
  compilePagePaths config components pagePaths errs =
  (pagePaths ++ compiledPaths config components,
   errs ++ pagePathErrors config components).
Proof.
  unfold GenerateEntriesWebpackPlugin.compiledPaths,
         GenerateEntriesWebpackPlugin.pagePathErrors.
  revert pagePaths errs.
  induction components as [|[vuePath info] rest IH]; intros pagePaths errs;
    simpl.
  - now rewrite !app_nil_r.
  - destruct (Obj.get "path" info) as [s|]; [|apply IH].
    destruct (JS.truthy s); [|apply IH].
    destruct (pathToRegexp s (caseSensitive config)) as [re|msg].
    + rewrite (IH (pagePaths ++ [re]) errs), (IH [re] []). simpl.
      f_equal. now rewrite <- app_assoc.
    + rewrite (IH pagePaths (errs ++ [_])), (IH [] [_]). simpl.
      f_equal. now rewrite <- app_assoc.
Qed.

Lemma compiledPaths_cons config vuePath info rest :
  compiledPaths config ((vuePath, info) :: rest)
  = compiledPaths config [(vuePath, info)] ++ compiledPaths config rest.
Proof.
  unfold GenerateEntriesWebpackPlugin.compiledPaths at 1 2. simpl.
  destruct (Obj.get "path" info) as [s|]; [|reflexivity].
  destruct (JS.truthy s); [|reflexivity].
  destruct (pathToRegexp s (caseSensitive config)) as [re|msg];
    now rewrite compilePagePaths_acc.
Qed.

Lemma compiledPaths_app config t1 t2 :
  compiledPaths config (t1 ++ t2)
  = compiledPaths config t1 ++ compiledPaths config t2.
Proof.
  induction t1 as [|[vuePath info] t1 IH]; [reflexivity|].
  simpl app. rewrite compiledPaths_cons, (compiledPaths_cons _ _ _ t1), IH.
  now rewrite app_assoc.
Qed.

(** A component whose path compiles yields that one entry. *)
Lemma compiledPaths_compiled config vuePath info s re :
  Obj.get "path" info = Some s ->
  JS.truthy s = true ->
  pathToRegexp s (caseSensitive config) = inl re ->
  compiledPaths config [(vuePath, info)] = [re].
Proof.
  unfold GenerateEntriesWebpackPlugin.compiledPaths. simpl.
  now intros -> -> ->.
Qed.

(** A component without a path yields no entry and no error. *)
Lemma compilePagePaths_no_path config vuePath info pagePaths errs :
  Obj.get "path" info = None ->
  compilePagePaths config [(vuePath, info)] pagePaths errs
  = (pagePaths, errs).
Proof. simpl. now intros ->. Qed.

Lemma pagePathErrors_untagged config components :
  Forall (fun e => file e = None) (pagePathErrors config components).
Proof.
  unfold GenerateEntriesWebpackPlugin.pagePathErrors.
  induction components as [|[vuePath info] rest IH]; simpl; [constructor|].
  destruct (Obj.get "path" info) as [s|]; [|apply IH].
  destruct (JS.truthy s); [|apply IH].
  destruct (pathToRegexp s (caseSensitive config)) as [re|msg].
  - rewrite compilePagePaths_acc. apply IH.
  - rewrite compilePagePaths_acc. simpl. now constructor.
Qed.

(** *** The errors of one file among those of the pass *)

Lemma errorsOf_app config p errs1 errs2 :
  errorsOf config p (errs1 ++ errs2)
  = errorsOf config p errs1 ++ errorsOf config p errs2.
Proof. apply filter_app. Qed.

Lemma errorsOf_untagged config p errs :
  Forall (fun e => file e = None) errs -> errorsOf config p errs = [].
Proof.
  induction 1 as [|e errs He _ IH]; simpl; [reflexivity|].
  now rewrite He.
Qed.

Lemma errorsOf_same config p errs :
  Forall (fun e => file e = fileOf config p) errs ->
  errorsOf config p errs = errs.
Proof.
  induction 1 as [|e errs He _ IH]; simpl; [reflexivity|].
  rewrite He. simpl. rewrite String.eqb_refl. now f_equal.
Qed.

Lemma errorsOf_other config p q errs :
  path_relative (projectDir config) q <> path_relative (projectDir config) p ->
  Forall (fun e => file e = fileOf config q) errs ->
  errorsOf config p errs = [].
Proof.
  intros Hne. induction 1 as [|e errs He _ IH]; simpl; [reflexivity|].
  rewrite He. simpl. apply String.eqb_neq in Hne. now rewrite Hne.
Qed.

Lemma errorsOf_flat_map config p paths (F : string -> list JSError) :
  NoDup (map (path_relative (projectDir config)) paths) ->
  In p paths ->
  (forall q, In q paths -> Forall (fun e => file e = fileOf config q) (F q)) ->
  errorsOf config p (flat_map F paths) = F p.
Proof.
  induction paths as [|q paths IH]; simpl; intros Hnd Hin HF;
    [contradiction|].
  inversion Hnd as [|? ? Hnin Hnd']; subst.
  rewrite errorsOf_app.
  destruct (string_dec q p) as [->|Hqp].
  - rewrite errorsOf_same by (apply HF; now left).
    assert (errorsOf config p (flat_map F paths) = []) as ->;
      [|now rewrite app_nil_r].
    clear IH Hin Hnd Hnd'.
    induction paths as [|q' paths IH]; simpl; [reflexivity|].
    rewrite errorsOf_app, (errorsOf_other config p q').
    + simpl. apply IH.
      * intros Hin. apply Hnin. now right.
      * intros q Hq. apply HF. simpl in *. tauto.
    + intros Heq. apply Hnin. left. exact Heq.
    + apply HF. right. now left.
  - destruct Hin as [Hin|Hin]; [contradiction|].
    rewrite (errorsOf_other config p q).
    + simpl. apply IH; auto.
    + intros Heq. apply Hnin. rewrite Heq. now apply in_map.
    + apply HF. now left.
Qed.

(** *** The files written *)

Lemma generations_app effects effects' :
  generations (effects ++ effects')
  = generations effects + generations effects'.
Proof. unfold generations. now rewrite filter_app, length_app. Qed.

Lemma backendData_app effects effects' :
  backendData (effects ++ effects')
  = match backendData effects with
    | Some data => Some data
    | None => backendData effects'
    end.
Proof.
  induction effects as [|[template data| |] effects IH]; simpl;
    try assumption; [reflexivity|].
  now destruct (String.eqb template "backend.js").
Qed.

Lemma no_render_generations effects :
  rendersOf effects = [] -> generations effects = 0.
Proof.
  unfold generations.
  induction effects as [|[template data| |] effects IH]; simpl;
    try assumption; [reflexivity | discriminate].
Qed.

Lemma no_render_backendData effects :
  rendersOf effects = [] -> backendData effects = None.
Proof.
  induction effects as [|[template data| |] effects IH]; simpl;
    try assumption; [reflexivity | discriminate].
Qed.

(** What the loop over the entries has called when it ends normally: each
    entry is written to its file, and in a first pass the timestamps of the
    file are set, from a reading of the clock of its own. *)
Lemma writeEntries_normal config init fs now k entries writes :
  writeEntries config init fs now k entries = Normal writes ->
  rendersOf writes = [] /\
  writesOf writes
  = map (fun entry => (entryFile config (fst entry), snd entry)) entries /\
  utimesOf writes
  = (if init
     then backdated now k (map (fun entry => entryFile config (fst entry))
                             entries)
     else []).
Proof.
  revert k writes.
  induction entries as [|[entryType text] rest IH]; intros k writes; simpl.
  - intros [= <-]. now destruct init.
  - unfold call.
    destruct (throws fs (WriteFileSync _ _)); [discriminate|]. cbn [bind].
    destruct init.
    + destruct (throws fs (UtimesSync _ _ _)); [discriminate|]. cbn [bind].
      destruct (writeEntries config true fs now (S k) rest) as [effects|e]
        eqn:Hrest; [|discriminate].
      cbn [bind]. intros [= <-].
      destruct (IH _ _ Hrest) as (Hr & Hw & Hu). simpl.
      unfold entryFile at 1 3. simpl. now rewrite Hr, Hw, Hu.
    + destruct (writeEntries config false fs now k rest) as [effects|e]
        eqn:Hrest; [|discriminate].
      cbn [bind]. intros [= <-].
      destruct (IH _ _ Hrest) as (Hr & Hw & Hu). simpl.
      unfold entryFile at 1. simpl. now rewrite Hr, Hw, Hu.
Qed.

(** It ends normally when no file is refused; the timestamps are set in a
    first pass only. *)
Lemma writeEntries_total config init fs now k entries :
  (forall path text, throws fs (WriteFileSync path text) = None) ->
  (init = true ->
   forall path time, throws fs (UtimesSync path time time) = None) ->
  exists writes, writeEntries config init fs now k entries = Normal writes.
Proof.
  intros Hwrite Hutimes. revert k.
  induction entries as [|[entryType text] rest IH]; intros k; simpl.
  - now exists [].
  - unfold call. rewrite Hwrite. cbn [bind]. destruct init.
    + rewrite (Hutimes eq_refl). cbn [bind].
      destruct (IH (S k)) as [effects ->]. cbn [bind]. now eexists.
    + destruct (IH k) as [effects ->]. cbn [bind]. now eexists.
Qed.

(** In another pass it makes the calls of this one, the timestamps apart. *)
Lemma writeEntries_again config init init' fs now now' k k' entries writes :
  writeEntries config init fs now k entries = Normal writes ->
  (init' = true ->
   forall path time, throws fs (UtimesSync path time time) = None) ->
  exists writes',
    writeEntries config init' fs now' k' entries = Normal writes'.
Proof.
  intros H Hutimes. revert k k' writes H.
  induction entries as [|[entryType text] rest IH]; intros k k' writes; simpl.
  - intros _. now exists [].
  - unfold call.
    destruct (throws fs (WriteFileSync _ _)); [discriminate|]. cbn [bind].
    intros H.
    assert (exists effects k0,
               writeEntries config init fs now k0 rest = Normal effects)
      as (effects & k0 & Hrest).
    { destruct init.
      - destruct (throws fs (UtimesSync _ _ _)); [discriminate|].
        cbn [bind] in H.
        destruct (writeEntries config true fs now (S k) rest) as [effects|e]
          eqn:Hrest; [|discriminate].
        now exists effects, (S k).
      - destruct (writeEntries config false fs now k rest) as [effects|e]
          eqn:Hrest; [|discriminate].
        now exists effects, k. }
    destruct init'.
    + rewrite (Hutimes eq_refl). cbn [bind].
      destruct (IH _ (S k') _ Hrest) as [writes' ->]. cbn [bind].
      now eexists.
    + destruct (IH _ k' _ Hrest) as [writes' ->]. cbn [bind].
      now eexists.
Qed.

(** When it throws there, a timestamp could not be set. *)
Lemma writeEntries_again_throw
    config init init' fs now now' k k' entries writes e :
  writeEntries config init fs now k entries = Normal writes ->
  writeEntries config init' fs now' k' entries = Throw e ->
  init' = true /\
  exists path time, throws fs (UtimesSync path time time) = Some e.
Proof.
  revert k k' writes.
  induction entries as [|[entryType text] rest IH]; intros k k' writes; simpl;
    [discriminate|].
  unfold call.
  destruct (throws fs (WriteFileSync _ _)); [discriminate|]. cbn [bind].
  intros H.
  assert (exists effects k0,
             writeEntries config init fs now k0 rest = Normal effects)
    as (effects & k0 & Hrest).
  { destruct init.
    - destruct (throws fs (UtimesSync _ _ _)); [discriminate|].
      cbn [bind] in H.
      destruct (writeEntries config true fs now (S k) rest) as [effects|e0]
        eqn:Hrest; [|discriminate].
      now exists effects, (S k).
    - destruct (writeEntries config false fs now k rest) as [effects|e0]
        eqn:Hrest; [|discriminate].
      now exists effects, k. }
  clear H. destruct init'.
  - destruct (throws fs (UtimesSync _ _ _)) as [e0|] eqn:Hu; cbn [bind].
    + intros [= <-]. split; [reflexivity|]. eexists. eexists. eassumption.
    + destruct (writeEntries config true fs now' (S k') rest)
        as [effects'|e1] eqn:Hrest'; cbn [bind]; [discriminate|].
      intros [= <-]. exact (IH _ _ _ Hrest Hrest').
  - destruct (writeEntries config false fs now' k' rest)
      as [effects'|e1] eqn:Hrest'; cbn [bind]; [discriminate|].
    intros [= <-]. exact (IH _ _ _ Hrest Hrest').
Qed.

(** What it throws is what a call has thrown. *)
Lemma writeEntries_throw config init fs now k entries e :
  writeEntries config init fs now k entries = Throw e ->
  exists c, throws fs c = Some e.
Proof.
  revert k.
  induction entries as [|[entryType text] rest IH]; intros k; simpl;
    [discriminate|].
  unfold call.
  destruct (throws fs (WriteFileSync _ _)) as [e0|] eqn:Hw.
  { cbn [bind]. intros [= <-]. eexists. eassumption. }
  cbn [bind]. destruct init.
  - destruct (throws fs (UtimesSync _ _ _)) as [e0|] eqn:Hu.
    { cbn [bind]. intros [= <-]. eexists. eassumption. }
    cbn [bind].
    destruct (writeEntries config true fs now (S k) rest) as [effects|e1]
      eqn:Hrest; [discriminate|].
    intros [= <-]. now apply (IH (S k)).
  - destruct (writeEntries config false fs now k rest) as [effects|e1]
      eqn:Hrest; [discriminate|].
    intros [= <-]. now apply (IH k).
Qed.

(** *** The pass *)

(** The calls to [nunjucks.render], one template after the other. *)
Fixpoint renderCalls (fs : FileSystem)
    (templates : list (string * TemplateData)) : Completion unit :=
  match templates with
  | [] => Normal tt
  | (template, data) :: rest =>
      _ <- call fs (NunjucksRender template data) tt ;;
      renderCalls fs rest
  end.

Lemma renderCalls_normal fs templates :
  renderCalls fs templates = Normal tt <->
  forall template data,
    In (template, data) templates ->
    throws fs (NunjucksRender template data) = None.
Proof.
  induction templates as [|[template data] rest IH]; simpl.
  - split; [intros _ ? ? [] | reflexivity].
  - unfold call. split.
    + destruct (throws fs (NunjucksRender template data)) eqn:Ht;
        [discriminate|].
      cbn [bind]. intros H t d [[= <- <-]|Hin]; [assumption|].
      now apply IH.
    + intros H. rewrite (H template data) by now left.
      cbn [bind]. apply IH. intros t d Hin. apply H. now right.
Qed.

Lemma renderCalls_throw fs templates e :
  renderCalls fs templates = Throw e -> exists c, throws fs c = Some e.
Proof.
  induction templates as [|[template data] rest IH]; simpl;
    [discriminate|].
  unfold call.
  destruct (throws fs (NunjucksRender template data)) as [e0|] eqn:Ht;
    cbn [bind]; [|exact IH].
  intros [= <-]. eexists. eassumption.
Qed.

(** The pass, statement by statement: the search for the files, the loop
    over them, the templates, the loop over the entries. *)
Lemma generateEntries_steps init fs now self :
  generateEntries init fs now self =
  (_ <- call fs (GlobSync (path_join [projectDir (config self);
                                      "src"; "**"; "*.vue"])) tt ;;
   st <- scanFiles (config self) fs (vuePathsOf (config self) fs)
           {| table := Obj.empty; scanErrors := [] |} ;;
   _ <- renderCalls fs
          (templatesOf (set_vueComponents (table st) (config self))) ;;
   writes <- writeEntries (set_vueComponents (table st) (config self))
               init fs now 0
               (entriesOf (set_vueComponents (table st) (config self))) ;;
   Normal
     ({| config := set_vueComponents (table st) (config self);
         errors :=
           scanErrors st ++
           (if String.eqb (type (config self)) "web"
            then pagePathErrors
                   (set_vueComponents (table st) (config self)) (table st)
            else []);
         vuePattern :=
           Some (path_join [projectDir (config self);
                            "src"; "**"; "*.vue"]) |},
      map (fun render => Render (fst render) (snd render))
        (templatesOf (set_vueComponents (table st) (config self)))
      ++ writes)).
Proof.
  unfold GenerateEntriesWebpackPlugin.generateEntries,
         GenerateEntriesWebpackPlugin.vuePathsOf,
         GenerateEntriesWebpackPlugin.templatesOf,
         GenerateEntriesWebpackPlugin.entriesOf,
         GenerateEntriesWebpackPlugin.backendTemplateData,
         GenerateEntriesWebpackPlugin.frontendTemplateData, call.
  destruct (throws fs (GlobSync _)); [reflexivity|]. cbn [bind].
  destruct (GenerateEntriesWebpackPlugin.scanFiles _ _ _ _ _ _) as [st|e];
    [|reflexivity].
  cbn [bind]. cbv zeta. cbn [type set_vueComponents vueComponents].
  destruct (String.eqb (type (config self)) "web").
  - rewrite compilePagePaths_acc. cbn [app renderCalls]. unfold call.
    destruct (throws fs (NunjucksRender "backend.js" _)); [reflexivity|].
    cbn [bind].
    destruct (throws fs (NunjucksRender "frontend.js" _)); [reflexivity|].
    cbn [bind]. cbn [Obj.set Obj.empty]. simpl String.eqb.
    cbn [Obj.set Obj.empty app].
    destruct (GenerateEntriesWebpackPlugin.writeEntries _ _ _ _ _ _ _);
      reflexivity.
  - cbn [bind app renderCalls]. unfold call.
    destruct (throws fs (NunjucksRender "frontend.js" _)); [reflexivity|].
    cbn [bind Obj.set Obj.empty].
    destruct (GenerateEntriesWebpackPlugin.writeEntries _ _ _ _ _ _ _);
      [|reflexivity].
    cbn [bind map app]. now rewrite app_nil_r.
Qed.

(** What a pass that ends normally has called, and what it returns. *)
Lemma generateEntries_inv init fs now self r eff :
  generateEntries init fs now self = Normal (r, eff) ->
  exists st writes,
    throws fs (GlobSync (path_join [projectDir (config self);
                                    "src"; "**"; "*.vue"])) = None /\
    scanFiles (config self) fs (vuePathsOf (config self) fs)
      {| table := Obj.empty; scanErrors := [] |} = Normal st /\
    renderCalls fs (templatesOf (set_vueComponents (table st) (config self)))
    = Normal tt /\
    writeEntries (set_vueComponents (table st) (config self)) init fs now 0
      (entriesOf (set_vueComponents (table st) (config self)))
    = Normal writes /\
    r = {| config := set_vueComponents (table st) (config self);
           errors :=
             scanErrors st ++
             (if String.eqb (type (config self)) "web"
              then pagePathErrors
                     (set_vueComponents (table st) (config self)) (table st)
              else []);
           vuePattern :=
             Some (path_join [projectDir (config self);
                              "src"; "**"; "*.vue"]) |} /\
    eff = map (fun render => Render (fst render) (snd render))
            (templatesOf (set_vueComponents (table st) (config self)))
          ++ writes.
Proof.
  rewrite generateEntries_steps. unfold call.
  destruct (throws fs (GlobSync _)); [discriminate|]. cbn [bind].
  destruct (scanFiles _ _ _ _) as [st|e]; [|discriminate]. cbn [bind].
  destruct (renderCalls fs _) as [[]|e] eqn:Hr; [|discriminate]. cbn [bind].
  destruct (writeEntries _ _ _ _ _ _) as [writes|e] eqn:Hw; [|discriminate].
  cbn [bind]. intros [= <- <-]. exists st, writes. repeat split; assumption.
Qed.

(** What a pass that ends normally has done. *)
Lemma generateEntries_normal init fs now self r eff :
  generateEntries init fs now self = Normal (r, eff) ->
  exists st,
    scanFiles (config self) fs (vuePathsOf (config self) fs)
      {| table := Obj.empty; scanErrors := [] |} = Normal st /\
    config r = set_vueComponents (table st) (config self) /\
    errors r = scanErrors st ++
               (if String.eqb (type (config self)) "web"
                then pagePathErrors (config r) (table st) else []) /\
    backendData eff =
      (if String.eqb (type (config self)) "web"
       then Some (BackendData (env (config self)) (appName (config self))
                    (compiledPaths (config r) (table st))
                    (entryPath path_join (config r) (backendEntry (config self)))
                    (codeConfig (config r)))
       else None) /\
    generations eff = 1.
Proof.
  intros H.
  destruct (generateEntries_inv _ _ _ _ _ _ H)
    as (st & writes & _ & Hs & _ & Hw & -> & ->).
  destruct (writeEntries_normal _ _ _ _ _ _ _ Hw) as (Hr & _).
  exists st. cbn [config errors]. repeat split; [assumption| |].
  - rewrite backendData_app, (no_render_backendData _ Hr).
    unfold GenerateEntriesWebpackPlugin.templatesOf.
    cbn [type set_vueComponents].
    now destruct (String.eqb (type (config self)) "web").
  - rewrite generations_app, (no_render_generations _ Hr).
    unfold GenerateEntriesWebpackPlugin.templatesOf.
    cbn [type set_vueComponents].
    now destruct (String.eqb (type (config self)) "web").
Qed.

(** What it has done with one of its files. *)
Lemma pass_file init fs now self r eff p :
  generateEntries init fs now self = Normal (r, eff) ->
  In p (vuePathsOf (config self) fs) ->
  exists fr,
    fileScan (config self) fs p = Normal fr /\
    Obj.get p (vueComponents (config r)) = Obj.get p (table fr) /\
    (distinctFiles (config self) fs ->
     errorsOf (config self) p (errors r) = scanErrors fr).
Proof.
  intros H Hin.
  destruct (generateEntries_normal _ _ _ _ _ _ H)
    as (st & Hs & Hc & He & _).
  destruct (scanFiles_spec _ _ _ _ _ _ _ Hs) as (Herr & Hfile & _).
  destruct (Hfile p Hin) as (Hget & fr & Hfr).
  exists fr. split; [assumption|]. split.
  - rewrite Hc. simpl. rewrite Hget.
    unfold GenerateEntriesWebpackPlugin.fileInfo. now rewrite Hfr.
  - intros Hd. rewrite He, Herr. simpl.
    rewrite errorsOf_app, (errorsOf_flat_map _ _ _ _ Hd Hin).
    + unfold GenerateEntriesWebpackPlugin.fileErrors. rewrite Hfr.
      rewrite errorsOf_untagged; [apply app_nil_r|].
      destruct (String.eqb _ _);
        [apply pagePathErrors_untagged | constructor].
    + intros q Hq. destruct (Hfile q Hq) as (_ & fq & Hfq).
      unfold GenerateEntriesWebpackPlugin.fileErrors. rewrite Hfq.
      eapply fileScan_tagged. eassumption.
Qed.

(** The table of a pass has the files of the pass for keys, each once. *)
Lemma pass_table init fs now self r eff :
  generateEntries init fs now self = Normal (r, eff) ->
  NoDup (Obj.keys (vueComponents (config r))) /\
  forall p, In p (Obj.keys (vueComponents (config r))) ->
            In p (vuePathsOf (config self) fs).
Proof.
  intros H.
  destruct (generateEntries_normal _ _ _ _ _ _ H) as (st & Hs & Hc & _).
  destruct (scanFiles_spec _ _ _ _ _ _ _ Hs) as (_ & _ & Hout & Hnd).
  rewrite Hc. simpl. split; [apply Hnd; constructor|].
  intros p Hp.
  destruct (in_dec string_dec p (vuePathsOf (config self) fs)) as [|Hn];
    [assumption|].
  apply ObjFacts.in_keys_get in Hp. now rewrite (Hout p Hn) in Hp.
Qed.

(** *** Passes that end normally, and passes that do not *)

(** The pass ends normally when no call throws and no [info.apps] of its
    files has an elided element. *)
Lemma generateEntries_total init fs now self :
  returning fs ->
  (forall p elements,
      In p (vuePathsOf (config self) fs) ->
      infoOption espree_parse "apps" (readFileSync fs p)
      = Some (ArrayExpression elements) ->
      noElision elements = true) ->
  exists r eff, generateEntries init fs now self = Normal (r, eff).
Proof.
  intros Hfs H.
  destruct (scanFiles_total espree_parse path_relative (config self) fs
              (vuePathsOf (config self) fs)
              {| table := Obj.empty; scanErrors := [] |}) as [st Hs].
  { intros p _. apply Hfs. }
  { intros p Hp. apply fileScan_total. intros elements.
    now apply H. }
  rewrite generateEntries_steps. unfold call at 1. rewrite Hfs, Hs.
  cbn [bind].
  assert (renderCalls fs
            (templatesOf (set_vueComponents (table st) (config self)))
          = Normal tt) as ->
    by (apply renderCalls_normal; intros; apply Hfs).
  cbn [bind].
  destruct (writeEntries_total (set_vueComponents (table st) (config self))
              init fs now 0
              (entriesOf (set_vueComponents (table st) (config self))))
    as [writes ->]; [intros; apply Hfs.. |].
  cbn [bind]. eexists; eexists; reflexivity.
Qed.

(** It throws when one has. *)
Lemma generateEntries_elision init fs now self p elements :
  In p (vuePathsOf (config self) fs) ->
  infoOption espree_parse "apps" (readFileSync fs p)
  = Some (ArrayExpression elements) ->
  noElision elements = false ->
  exists e, generateEntries init fs now self = Throw e.
Proof.
  intros Hin Ha Hn.
  pose proof (fileScan_elision espree_parse path_relative (config self)
                _ _ _ Ha Hn) as Hf.
  destruct (scanFiles_throw espree_parse path_relative (config self) fs _
              {| table := Obj.empty; scanErrors := [] |} _ _ Hin Hf)
    as [e He].
  rewrite generateEntries_steps. unfold call.
  destruct (throws fs (GlobSync _)) as [e0|]; [now exists e0|].
  exists e. cbn [bind]. now rewrite He.
Qed.

(** The exception of a pass is that of one of its calls, or that of the
    body of the loop on the text of a file. *)
Lemma generateEntries_throw init fs now self e :
  generateEntries init fs now self = Throw e ->
  (exists c, throws fs c = Some e) \/
  (exists p, In p (vuePathsOf (config self) fs) /\
             fileScan (config self) fs p = Throw e).
Proof.
  rewrite generateEntries_steps. unfold call.
  destruct (throws fs (GlobSync _)) as [e0|] eqn:Hg; cbn [bind].
  { intros [= <-]. left. eexists. eassumption. }
  destruct (scanFiles _ _ _ _) as [st|e0] eqn:Hs; cbn [bind].
  - destruct (renderCalls fs _) as [[]|e0] eqn:Hr; cbn [bind].
    + destruct (writeEntries _ _ _ _ _ _) as [writes|e0] eqn:Hw;
        cbn [bind]; [discriminate|].
      intros [= <-]. left. eapply writeEntries_throw. eassumption.
    + intros [= <-]. left. eapply renderCalls_throw. eassumption.
  - intros [= <-].
    destruct (scanFiles_throw_file espree_parse path_relative _ _ _ _ _ Hs)
      as (p & Hp & [Hread|Hf]).
    + left. eexists. eassumption.
    + right. now exists p.
Qed.

(** Removing a component without a path from the table changes nothing in
    what the loop over the table compiles. *)
Lemma compiledPaths_delete config (components : Obj.t Info) p (info : Info) :
  NoDup (Obj.keys components) ->
  Obj.get p components = Some info ->
  Obj.get "path" info = None ->
  compiledPaths config (Obj.delete p components)
  = compiledPaths config components.
Proof.
  intros Hnd Hg Hp.
  destruct (ObjFacts.get_split _ _ _ Hg) as (t1 & t2 & -> & _).
  destruct (ObjFacts.delete_middle _ _ _ _ Hnd) as [-> _].
  rewrite !compiledPaths_app, (compiledPaths_cons _ _ _ t2).
  f_equal.
  unfold GenerateEntriesWebpackPlugin.compiledPaths at 2. simpl.
  now rewrite Hp.
Qed.

(** *** What the pass reads of the configuration *)

Section TwoConfigurations.

Variables c1 c2 : Config.
Hypothesis same_projectDir : projectDir c1 = projectDir c2.
Hypothesis same_appName : appName c1 = appName c2.

Lemma error_config f m st :
  GenerateEntriesWebpackPlugin.error path_relative c1 f m st
  = GenerateEntriesWebpackPlugin.error path_relative c2 f m st.
Proof.
  unfold GenerateEntriesWebpackPlugin.error. now rewrite same_projectDir.
Qed.

Lemma collectApps_config p elements acc st :
  GenerateEntriesWebpackPlugin.collectApps path_relative c1 p elements acc st
  = GenerateEntriesWebpackPlugin.collectApps path_relative c2 p elements acc st.
Proof.
  revert acc st.
  induction elements as [|[node|] elements IH]; intros acc st; simpl;
    [reflexivity| |reflexivity].
  destruct node as [ | [] | | | ]; rewrite ?error_config; apply IH.
Qed.

Lemma scanApps_config p props st :
  GenerateEntriesWebpackPlugin.scanApps path_relative c1 p props st
  = GenerateEntriesWebpackPlugin.scanApps path_relative c2 p props st.
Proof.
  unfold GenerateEntriesWebpackPlugin.scanApps.
  destruct (find (isNamed "apps") props) as [appsProp|]; [|reflexivity].
  destruct (value appsProp); rewrite ?error_config; try reflexivity.
  now rewrite collectApps_config, same_appName.
Qed.

Lemma scanPath_config p props st :
  GenerateEntriesWebpackPlugin.scanPath path_relative c1 p props st
  = GenerateEntriesWebpackPlugin.scanPath path_relative c2 p props st.
Proof.
  unfold GenerateEntriesWebpackPlugin.scanPath.
  destruct (find (isNamed "path") props) as [pathProp|]; [|reflexivity].
  destruct (value pathProp) as [ | [] | | | ];
    now rewrite ?error_config.
Qed.

Lemma scanContent_config content p st :
  GenerateEntriesWebpackPlugin.scanContent espree_parse path_relative
    c1 p content st
  = GenerateEntriesWebpackPlugin.scanContent espree_parse path_relative
      c2 p content st.
Proof.
  unfold GenerateEntriesWebpackPlugin.scanContent. cbv zeta.
  rewrite !error_config.
  destruct (_ || _ || _); [reflexivity|].
  destruct (espree_parse _) as [ast|]; [|reflexivity].
  destruct (find isExportDefault (body ast)) as [[[]|]|]; try reflexivity.
  destruct (find (isNamed "info") properties) as [infoProp|];
    [|reflexivity].
  destruct (value infoProp); try reflexivity.
  rewrite scanApps_config.
  destruct (GenerateEntriesWebpackPlugin.scanApps _ _ _ _ _)
    as [[[] st1]|e]; try reflexivity.
  apply scanPath_config.
Qed.

Lemma scanFile_config fs p st :
  GenerateEntriesWebpackPlugin.scanFile espree_parse path_relative c1 fs p st
  = GenerateEntriesWebpackPlugin.scanFile espree_parse path_relative c2 fs p st.
Proof.
  unfold GenerateEntriesWebpackPlugin.scanFile.
  destruct (call fs _ _) as [content|e]; [|reflexivity].
  cbn [bind]. apply scanContent_config.
Qed.

Lemma scanFiles_config fs paths st :
  scanFiles c1 fs paths st = scanFiles c2 fs paths st.
Proof.
  revert st. induction paths as [|p paths IH]; intros st; simpl;
    [reflexivity|].
  rewrite scanFile_config.
  destruct (GenerateEntriesWebpackPlugin.scanFile _ _ _ _ _ _);
    [apply IH | reflexivity].
Qed.

Lemma compilePagePaths_config components pagePaths errs :
  caseSensitive c1 = caseSensitive c2 ->
  compilePagePaths c1 components pagePaths errs
  = compilePagePaths c2 components pagePaths errs.
Proof.
  intros Hs. revert pagePaths errs.
  induction components as [|[vuePath info] rest IH];
    intros pagePaths errs; simpl; [reflexivity|].
  rewrite Hs.
  destruct (Obj.get "path" info) as [s|]; [|apply IH].
  destruct (JS.truthy s); [|apply IH].
  destruct (pathToRegexp s (caseSensitive c2)); apply IH.
Qed.

End TwoConfigurations.

(** A pass reads the configuration of the plugin, its table apart. *)
Lemma generateEntries_config init fs now self self' :
  (forall components,
      set_vueComponents components (config self')
      = set_vueComponents components (config self)) ->
  generateEntries init fs now self' = generateEntries init fs now self.
Proof.
  intros H.
  assert (projectDir (config self') = projectDir (config self)) as Hdir
    by exact (f_equal projectDir (H Obj.empty)).
  assert (appName (config self') = appName (config self)) as Happ
    by exact (f_equal appName (H Obj.empty)).
  assert (type (config self') = type (config self)) as Htype
    by exact (f_equal type (H Obj.empty)).
  rewrite !generateEntries_steps.
  unfold GenerateEntriesWebpackPlugin.vuePathsOf.
  rewrite (scanFiles_config _ _ Hdir Happ), Hdir, Htype.
  destruct (call fs _ tt); [|reflexivity]. cbn [bind].
  destruct (scanFiles _ _ _ _) as [st|e]; [|reflexivity]. cbn [bind].
  now rewrite H.
Qed.

End PassFacts.

(** * The claims *)

Section Extraction.

Variable espree_parse : string -> option Program.
Variable pathToRegexp : string -> bool -> string + string.
Variable path_join : list string -> string.
Variable path_relative : string -> string -> string.
Variable nunjucks_render : string -> TemplateData -> string.

Local Abbreviation generateEntries :=
  (GenerateEntriesWebpackPlugin.generateEntries espree_parse pathToRegexp
     path_join path_relative nunjucks_render).
Local Abbreviation vuePathsOf :=
  (GenerateEntriesWebpackPlugin.vuePathsOf path_join).
Local Abbreviation distinctFiles :=
  (GenerateEntriesWebpackPlugin.distinctFiles path_join path_relative).
Local Abbreviation errorsOf :=
  (GenerateEntriesWebpackPlugin.errorsOf path_relative).
Local Abbreviation fileError :=
  (GenerateEntriesWebpackPlugin.fileError path_relative).
Local Abbreviation fileScan :=
  (GenerateEntriesWebpackPlugin.fileScan espree_parse path_relative).
Local Abbreviation exportedOptions :=
  (GenerateEntriesWebpackPlugin.exportedOptions espree_parse).
Local Abbreviation infoProps :=
  (GenerateEntriesWebpackPlugin.infoProps espree_parse).
Local Abbreviation infoOption :=
  (GenerateEntriesWebpackPlugin.infoOption espree_parse).
Local Abbreviation compilePagePaths :=
  (GenerateEntriesWebpackPlugin.compilePagePaths pathToRegexp).
Local Abbreviation compiledPaths :=
  (GenerateEntriesWebpackPlugin.compiledPaths pathToRegexp).

Local Abbreviation pass_file :=
  (pass_file espree_parse pathToRegexp path_join path_relative nunjucks_render).

(** C6: a file whose content lacks the opening marker, lacks the closing
    marker, or has the first opening marker after the first closing one, gets
    exactly one error in the pass, "<script>...</script> block was not
    found", and is in the table of the pass with an empty info. *)
Theorem missing_script_block_one_error init fs now self r eff p :
  generateEntries init fs now self = Normal (r, eff) ->
  In p (vuePathsOf (config self) fs) ->
  distinctFiles (config self) fs ->
  JS.lacks "<script>" (readFileSync fs p) \/
  JS.lacks "</script>" (readFileSync fs p) \/
  (JS.indexOf (readFileSync fs p) "<script>"
   > JS.indexOf (readFileSync fs p) "</script>")%Z ->
  errorsOf (config self) p (errors r)
  = [fileError (config self) p "<script>...</script> block was not found"] /\
  Obj.get p (vueComponents (config r)) = Some Obj.empty.
Proof.
  intros H Hin Hd Hm.
  destruct (pass_file _ _ _ _ _ _ _ H Hin) as (fr & Hfr & Hget & Herr).
  assert (scriptBlock (readFileSync fs p) = None) as Hs.
  { unfold scriptBlock.
    destruct Hm as [Hm|[Hm|Hm]].
    - apply JSFacts.indexOf_lacks in Hm. now rewrite Hm.
    - apply JSFacts.indexOf_lacks in Hm. rewrite Hm.
      now rewrite orb_true_r.
    - apply Z.gtb_gt in Hm. rewrite Hm. now rewrite orb_true_r. }
  rewrite (fileScan_no_script espree_parse path_relative _ _ _ Hs) in Hfr.
  injection Hfr as <-. rewrite Hget, (Herr Hd). simpl.
  rewrite String.eqb_refl. now split.
Qed.

(** C4: a file whose script block does not parse, and a file whose
    default-exported object literal has no [info] property, get no error in
    the pass and are in its table with an empty info. *)
Theorem unparsed_or_plain_component_no_error init fs now self r eff p :
  generateEntries init fs now self = Normal (r, eff) ->
  In p (vuePathsOf (config self) fs) ->
  distinctFiles (config self) fs ->
  (exists script, scriptBlock (readFileSync fs p) = Some script /\
                  espree_parse script = None) \/
  (exists properties,
      exportedOptions (readFileSync fs p) = Some properties /\
      find (isNamed "info") properties = None) ->
  errorsOf (config self) p (errors r) = [] /\
  Obj.get p (vueComponents (config r)) = Some Obj.empty.
Proof.
  intros H Hin Hd Hc.
  destruct (pass_file _ _ _ _ _ _ _ H Hin) as (fr & Hfr & Hget & Herr).
  assert (fileScan (config self) fs p
          = Normal {| table := [(p, Obj.empty)]; scanErrors := [] |}) as Hs.
  { destruct Hc as [(script & Hb & Hp)|(properties & He & Hi)].
    - eapply fileScan_parse_error; eassumption.
    - eapply fileScan_no_info; eassumption. }
  rewrite Hs in Hfr. injection Hfr as <-.
  rewrite Hget, (Herr Hd). simpl. rewrite String.eqb_refl. now split.
Qed.

(** C3: a file whose [info.apps] is absent or an empty array literal is in
    the table of the pass, whatever the name of the application; a file
    whose [info.apps] is a non-empty array of string literals is in the table
    exactly when the name of the application is one of them, and otherwise
    its key is not in the table at all. *)
Theorem membership_filter init fs now self r eff p :
  generateEntries init fs now self = Normal (r, eff) ->
  In p (vuePathsOf (config self) fs) ->
  (infoOption "apps" (readFileSync fs p) = None \/
   infoOption "apps" (readFileSync fs p) = Some (ArrayExpression []) ->
   Obj.has p (vueComponents (config r)) = true) /\
  (forall names,
      names <> [] ->
      infoOption "apps" (readFileSync fs p)
      = Some (ArrayExpression (map stringLiteral names)) ->
      (Obj.has p (vueComponents (config r)) = true
       <-> In (appName (config self)) names) /\
      (~ In (appName (config self)) names ->
       Obj.get p (vueComponents (config r)) = None /\
       ~ In p (Obj.keys (vueComponents (config r))))).
Proof.
  intros H Hin.
  destruct (pass_file _ _ _ _ _ _ _ H Hin) as (fr & Hfr & Hget & _).
  split.
  - intros Ha. unfold Obj.has. rewrite Hget.
    destruct (fileScan_cases espree_parse path_relative _ _ _ _ Hfr)
      as [(info & Ht & _)|(Ht & elements & He & Hne)].
    + rewrite Ht. simpl. now rewrite String.eqb_refl.
    + destruct Ha as [Ha|Ha]; rewrite Ha in He; congruence.
  - intros names Hne Ha.
    pose proof (fileScan_strings espree_parse path_relative _ _ _ _ _
                  Ha Hne Hfr) as Hs.
    rewrite <- JSFacts.includes_In, ObjFacts.in_keys_get.
    unfold Obj.has. rewrite Hget.
    destruct (JS.includes names (appName (config self))).
    + destruct Hs as (info & -> & _). simpl. rewrite String.eqb_refl.
      split; [tauto | intros; congruence].
    + rewrite Hs. simpl. split; [split; discriminate|].
      intros _. split; congruence.
Qed.

(** An array literal without elision is a list of expressions. *)
Lemma noElision_nodes (elements : list (option Node)) :
  noElision elements = true -> exists nodes, elements = map Some nodes.
Proof.
  induction elements as [|[node|] elements IH]; simpl; intros H.
  - now exists [].
  - destruct (IH H) as [nodes ->]. now exists (node :: nodes).
  - discriminate.
Qed.

(** C10: a file whose [info.apps] is a non-empty array literal with no
    string literal among its elements.  When no element is elided, the file
    is not in the table of a pass, whatever the name of the application, and
    gets one error for each element.  When an element is elided, as in
    [apps: [,]], reading [type] of it throws: no pass over the file ends
    normally, so that there is no table that the file has been removed from
    and no list of errors with an error for the element; when the calls to
    [glob], [fs] and [nunjucks] all return, the pass ends with a
    [TypeError]. *)
Theorem apps_without_string_literal_removed_or_thrown
    init fs now self p elements :
  In p (vuePathsOf (config self) fs) ->
  distinctFiles (config self) fs ->
  infoOption "apps" (readFileSync fs p) = Some (ArrayExpression elements) ->
  elements <> [] ->
  Forall (fun element => isStringLiteral element = false) elements ->
  (noElision elements = true ->
   forall r eff,
     generateEntries init fs now self = Normal (r, eff) ->
     Obj.get p (vueComponents (config r)) = None /\
     errorsOf (config self) p (errors r)
     = repeat (fileError (config self) p
                 "All items of 'info.apps' option be string literals")
              (List.length elements)) /\
  (noElision elements = false ->
   (forall r eff, generateEntries init fs now self <> Normal (r, eff)) /\
   (returning fs ->
    exists e, generateEntries init fs now self = Throw e /\
              name e = "TypeError")).
Proof.
  intros Hin Hd Ha Hne Hn. split.
  - intros He r eff H.
    destruct (pass_file _ _ _ _ _ _ _ H Hin) as (fr & Hfr & Hget & Herr).
    destruct (noElision_nodes _ He) as [nodes ->].
    assert (nodes <> []) as Hne' by (intros ->; now apply Hne).
    assert (Forall (fun node => isStringLiteral (Some node) = false) nodes)
      as Hn'.
    { rewrite Forall_forall in *. intros node Hnode. apply Hn.
      now apply in_map. }
    unfold GenerateEntriesWebpackPlugin.infoOption in Ha.
    destruct (infoProps (readFileSync fs p)) as [props|] eqn:Hi;
      [|discriminate].
    destruct (find (isNamed "apps") props) as [appsProp|] eqn:Hf;
      [|discriminate].
    injection Ha as Ha.
    rewrite (fileScan_info espree_parse path_relative _ _ _ _ Hi) in Hfr.
    rewrite (scanApps_others path_relative _ _ _ _ _ _ Hf Ha Hne' Hn') in Hfr.
    simpl in Hfr. rewrite String.eqb_refl in Hfr. injection Hfr as <-.
    rewrite Hget, (Herr Hd), length_map. now split.
  - intros He.
    destruct (generateEntries_elision espree_parse pathToRegexp path_join
                path_relative nunjucks_render init fs now self p elements
                Hin Ha He) as [e Hthrow].
    split; [intros r eff H; congruence|].
    intros Hfs. exists e. split; [assumption|].
    destruct (generateEntries_throw espree_parse pathToRegexp path_join
                path_relative nunjucks_render _ _ _ _ _ Hthrow)
      as [[c Hc]|(q & _ & Hq)].
    + rewrite Hfs in Hc. discriminate.
    + now destruct (fileScan_throw espree_parse path_relative _ _ _ _ Hq).
Qed.

End Extraction.

Section Routes.

Variable espree_parse : string -> option Program.
Variable pathToRegexp : string -> bool -> string + string.
Variable path_join : list string -> string.
Variable path_relative : string -> string -> string.
Variable nunjucks_render : string -> TemplateData -> string.

Local Abbreviation generateEntries :=
  (GenerateEntriesWebpackPlugin.generateEntries espree_parse pathToRegexp
     path_join path_relative nunjucks_render).
Local Abbreviation vuePathsOf :=
  (GenerateEntriesWebpackPlugin.vuePathsOf path_join).
Local Abbreviation distinctFiles :=
  (GenerateEntriesWebpackPlugin.distinctFiles path_join path_relative).
Local Abbreviation errorsOf :=
  (GenerateEntriesWebpackPlugin.errorsOf path_relative).
Local Abbreviation fileError :=
  (GenerateEntriesWebpackPlugin.fileError path_relative).
Local Abbreviation infoProps :=
  (GenerateEntriesWebpackPlugin.infoProps espree_parse).
Local Abbreviation infoOption :=
  (GenerateEntriesWebpackPlugin.infoOption espree_parse).
Local Abbreviation compiledPaths :=
  (GenerateEntriesWebpackPlugin.compiledPaths pathToRegexp).
Local Abbreviation pass_file :=
  (pass_file espree_parse pathToRegexp path_join path_relative nunjucks_render).
Local Abbreviation pass_table :=
  (pass_table espree_parse pathToRegexp path_join path_relative
     nunjucks_render).
Local Abbreviation generateEntries_normal :=
  (generateEntries_normal espree_parse pathToRegexp path_join path_relative
     nunjucks_render).

(** C5, amended: a file whose [info.apps] lets it through (absent, empty,
    or string literals with the name of the application among them) and
    whose [info.path] is a string literal that does not start with a slash
    gets exactly one error in the pass, "'info.path' option must start with
    '/'"; its key is in the table with an empty info, and the page paths
    compiled from the table are those compiled without it. *)
Theorem path_without_slash_one_error
    init fs now self r eff p props pathProp s :
  generateEntries init fs now self = Normal (r, eff) ->
  In p (vuePathsOf (config self) fs) ->
  distinctFiles (config self) fs ->
  infoProps (readFileSync fs p) = Some props ->
  appsAllow (appName (config self)) props ->
  find (isNamed "path") props = Some pathProp ->
  value pathProp = Literal (LString s) ->
  JS.startsWith s "/" = false ->
  errorsOf (config self) p (errors r)
  = [fileError (config self) p "'info.path' option must start with '/'"] /\
  Obj.get p (vueComponents (config r)) = Some Obj.empty /\
  compiledPaths (config r) (Obj.delete p (vueComponents (config r)))
  = compiledPaths (config r) (vueComponents (config r)).
Proof.
  intros H Hin Hd Hi Ha Hf Hv Hs.
  destruct (pass_file _ _ _ _ _ _ _ H Hin) as (fr & Hfr & Hget & Herr).
  rewrite (fileScan_info espree_parse path_relative _ _ _ _ Hi) in Hfr.
  rewrite (scanApps_allow path_relative _ _ _ _ Ha) in Hfr.
  cbn [bind] in Hfr.
  rewrite (scanPath_no_slash path_relative _ _ _ _ _ _ Hf Hv Hs) in Hfr.
  injection Hfr as <-.
  assert (Obj.get p (vueComponents (config r)) = Some Obj.empty) as Hg.
  { rewrite Hget. simpl. now rewrite String.eqb_refl. }
  repeat split.
  - now rewrite (Herr Hd).
  - assumption.
  - destruct (pass_table _ _ _ _ _ _ H) as [Hnd _].
    now apply compiledPaths_delete with (info := Obj.empty).
Qed.

(** C2, amended: for a file whose [info.apps] is an array of string
    literals with the name of the application among them, the strings serve
    the membership test only: the component is in the table of the pass,
    and its entry has no [apps] property (no property but [path]). *)
Theorem apps_not_recorded init fs now self r eff p names :
  generateEntries init fs now self = Normal (r, eff) ->
  In p (vuePathsOf (config self) fs) ->
  infoOption "apps" (readFileSync fs p)
  = Some (ArrayExpression (map stringLiteral names)) ->
  In (appName (config self)) names ->
  exists info,
    Obj.get p (vueComponents (config r)) = Some info /\
    Obj.get "apps" info = None /\
    incl (Obj.keys info) ["path"].
Proof.
  intros H Hin Ha Hn.
  destruct (pass_file _ _ _ _ _ _ _ H Hin) as (fr & Hfr & Hget & _).
  assert (names <> []) as Hne by (intros ->; contradiction).
  pose proof (fileScan_strings espree_parse path_relative _ _ _ _ _
                Ha Hne Hfr) as Hs.
  apply JSFacts.includes_In in Hn. rewrite Hn in Hs.
  destruct Hs as (info & Ht & Hshape).
  exists info. rewrite Hget, Ht. simpl. rewrite String.eqb_refl.
  split; [reflexivity|].
  destruct Hshape as [->|(s & -> & _)]; simpl; split;
    try reflexivity; intros k Hk; simpl in *; tauto.
Qed.

(** A file that [info.apps] lets through and whose [info.path] is a string
    literal starting with a slash has that path recorded in the table. *)
Lemma declared_path_recorded init fs now self r eff p props pathProp s :
  generateEntries init fs now self = Normal (r, eff) ->
  In p (vuePathsOf (config self) fs) ->
  infoProps (readFileSync fs p) = Some props ->
  appsAllow (appName (config self)) props ->
  find (isNamed "path") props = Some pathProp ->
  value pathProp = Literal (LString s) ->
  JS.startsWith s "/" = true ->
  Obj.get p (vueComponents (config r)) = Some [("path", s)].
Proof.
  intros H Hin Hi Ha Hf Hv Hs.
  destruct (pass_file _ _ _ _ _ _ _ H Hin) as (fr & Hfr & Hget & _).
  rewrite (fileScan_info espree_parse path_relative _ _ _ _ Hi) in Hfr.
  rewrite (scanApps_allow path_relative _ _ _ _ Ha) in Hfr.
  cbn [bind] in Hfr. unfold scanPath in Hfr. rewrite Hf, Hv, Hs in Hfr.
  simpl in Hfr. rewrite String.eqb_refl in Hfr. injection Hfr as <-.
  rewrite Hget. simpl. rewrite String.eqb_refl. simpl.
  now rewrite String.eqb_refl.
Qed.

(** C1, amended: in a pass for a web application, a component of the table
    with a path that compiles has exactly one entry among the page paths
    given to the backend template: the path compiled with the case
    sensitivity of the project, at the place of the component in the
    table.  For any other type of application no page path is compiled and
    no backend entry is rendered. *)
Theorem page_paths_of_pass init fs now self r eff :
  generateEntries init fs now self = Normal (r, eff) ->
  (type (config self) = "web" ->
   forall t1 p info t2 s re,
     vueComponents (config r) = t1 ++ (p, info) :: t2 ->
     Obj.get "path" info = Some s ->
     pathToRegexp s (caseSensitive (config self)) = inl re ->
     pagePathsOf eff
     = Some (compiledPaths (config r) t1 ++ [re]
               ++ compiledPaths (config r) t2) /\
     ~ In p (Obj.keys (t1 ++ t2))) /\
  (type (config self) <> "web" ->
   pagePathsOf eff = None /\ backendData eff = None).
Proof.
  intros H.
  destruct (generateEntries_normal _ _ _ _ _ _ H)
    as (st & Hs & Hc & He & Hb & _).
  split.
  - intros Hw t1 p info t2 s re Ht Hp Hre.
    destruct (pass_table _ _ _ _ _ _ H) as [Hnd Hkeys].
    rewrite Ht in Hnd.
    destruct (ObjFacts.delete_middle _ _ _ _ Hnd) as [_ Hnin].
    split; [|assumption].
    assert (JS.truthy s = true) as Htr.
    { assert (In p (vuePathsOf (config self) fs)) as Hin.
      { apply Hkeys. rewrite Ht. unfold Obj.keys. rewrite map_app.
        apply in_or_app. right. now left. }
      destruct (pass_file _ _ _ _ _ _ _ H Hin) as (fr & Hfr & Hget & _).
      rewrite Ht, (ObjFacts.get_middle _ _ _ _ Hnd) in Hget.
      destruct (fileScan_cases espree_parse path_relative _ _ _ _ Hfr)
        as [(info' & Hti & Hshape)|(Hti & _)]; rewrite Hti in Hget;
        simpl in Hget; [|discriminate].
      rewrite String.eqb_refl in Hget. injection Hget as ->.
      destruct Hshape as [->|(s' & -> & Hs')]; [discriminate|].
      simpl in Hp. injection Hp as ->.
      now apply JSFacts.startsWith_truthy. }
    unfold pagePathsOf. rewrite Hb, Hw. simpl.
    assert (table st = t1 ++ (p, info) :: t2) as Ht'.
    { rewrite Hc in Ht. exact Ht. }
    rewrite Ht', compiledPaths_app, (compiledPaths_cons _ _ _ _ t2).
    rewrite (compiledPaths_compiled _ _ _ _ s re Hp Htr); [reflexivity|].
    rewrite Hc. exact Hre.
  - intros Hw. apply String.eqb_neq in Hw.
    unfold pagePathsOf. rewrite Hb, Hw. now split.
Qed.

(** C7: the data given to the backend template is the same for two
    configurations that agree on [custom], [host], [port], [backendPort]
    and on what else the template reads ([env], [appName], [backendEntry],
    [projectDir], [caseSensitive], [type]), whatever their other keys. *)
Theorem backend_data_depends_on_exposed_keys
    init1 init2 fs now1 now2 self1 self2 r1 eff1 r2 eff2 :
  generateEntries init1 fs now1 self1 = Normal (r1, eff1) ->
  generateEntries init2 fs now2 self2 = Normal (r2, eff2) ->
  custom (config self1) = custom (config self2) ->
  host (config self1) = host (config self2) ->
  port (config self1) = port (config self2) ->
  backendPort (config self1) = backendPort (config self2) ->
  env (config self1) = env (config self2) ->
  appName (config self1) = appName (config self2) ->
  backendEntry (config self1) = backendEntry (config self2) ->
  projectDir (config self1) = projectDir (config self2) ->
  caseSensitive (config self1) = caseSensitive (config self2) ->
  type (config self1) = type (config self2) ->
  backendData eff1 = backendData eff2.
Proof.
  intros H1 H2 Hcustom Hhost Hport Hbport Henv Happ Hentry Hdir Hcase Htype.
  destruct (generateEntries_normal _ _ _ _ _ _ H1)
    as (st1 & Hs1 & Hc1 & _ & Hb1 & _).
  destruct (generateEntries_normal _ _ _ _ _ _ H2)
    as (st2 & Hs2 & Hc2 & _ & Hb2 & _).
  unfold GenerateEntriesWebpackPlugin.vuePathsOf in Hs1, Hs2.
  rewrite (scanFiles_config espree_parse path_relative _ _ Hdir Happ),
          Hdir, Hs2 in Hs1.
  injection Hs1 as <-.
  rewrite Hb1, Hb2, Htype, Henv, Happ, Hentry.
  destruct (String.eqb (type (config self2)) "web"); [|reflexivity].
  do 2 f_equal.
  - unfold GenerateEntriesWebpackPlugin.compiledPaths. f_equal.
    apply compilePagePaths_config. now rewrite Hc1, Hc2.
  - unfold entryPath. rewrite Hc1, Hc2. simpl. now rewrite Hdir.
  - unfold codeConfig. rewrite Hc1, Hc2. simpl.
    now rewrite Hcustom, Hhost, Hport, Hbport.
Qed.

End Routes.

(** The configuration that [codeConfig] exposes is the one that the earlier
    revision builds in place. *)
Lemma codeConfig_legacy (config : Config) : codeConfig config = Legacy.conf config.
Proof. reflexivity. Qed.

(** The keys of the exposed configuration are those of [custom] and the three
    addressing keys. *)
Lemma codeConfig_keys (config : Config) (k : string) :
  In k (Obj.keys (codeConfig config)) ->
  In k (Obj.keys (custom config)) \/ In k ["host"; "port"; "backendPort"].
Proof.
  unfold codeConfig. rewrite !ObjFacts.in_keys_set.
  intros [->|[->|[->|H]]]; simpl; try tauto.
  left.
  assert (forall (acc : Obj.t JSValue) rest,
             In k (Obj.keys (fold_left
                               (fun conf kv => Obj.set (fst kv) (snd kv) conf)
                               rest acc)) ->
             In k (Obj.keys rest) \/ In k (Obj.keys acc)) as Hfold.
  { intros acc rest. revert acc.
    induction rest as [|[k0 v0] rest IH]; intros acc Hk; simpl in *.
    - now right.
    - apply IH in Hk. destruct Hk as [Hk|Hk]; [tauto|].
      apply ObjFacts.in_keys_set in Hk. destruct Hk as [->|Hk]; tauto. }
  apply Hfold in H. destruct H as [H|[]]. exact H.
Qed.

(** In the earlier revision an empty [apps] list shuts the component out of
    every application, where the current one lets it into each. *)
Lemma legacy_usedInApp_empty (appName : string) :
  Legacy.usedInApp (VArray []) appName = false.
Proof. reflexivity. Qed.

(** ** The watch handlers *)

Section Watch.

Variable espree_parse : string -> option Program.
Variable pathToRegexp : string -> bool -> string + string.
Variable path_join : list string -> string.
Variable path_relative : string -> string -> string.
Variable nunjucks_render : string -> TemplateData -> string.

Local Abbreviation generateEntries :=
  (GenerateEntriesWebpackPlugin.generateEntries espree_parse pathToRegexp
     path_join path_relative nunjucks_render).
Local Abbreviation apply :=
  (GenerateEntriesWebpackPlugin.apply espree_parse pathToRegexp
     path_join path_relative nunjucks_render).
Local Abbreviation handle :=
  (GenerateEntriesWebpackPlugin.handle espree_parse pathToRegexp
     path_join path_relative nunjucks_render).
Local Abbreviation run :=
  (GenerateEntriesWebpackPlugin.run espree_parse pathToRegexp
     path_join path_relative nunjucks_render).

(** Without a watcher no event does anything. *)
Lemma run_unwatched events ctl :
  watched ctl = None -> run events ctl = Normal (ctl, []).
Proof.
  intros Hw. induction events as [|[[event fs] now] events IH]; simpl;
    [reflexivity|].
  unfold GenerateEntriesWebpackPlugin.handle. rewrite Hw. simpl.
  now rewrite IH.
Qed.

(** [apply] runs one pass, and watches in development mode only. *)
Lemma apply_normal fs now self ctl eff :
  apply fs now self = Normal (ctl, eff) ->
  generateEntries true fs now self = Normal (plugin ctl, eff) /\
  watched ctl = (if String.eqb (env (config self)) "dev"
                 then vuePattern (plugin ctl) else None).
Proof.
  unfold GenerateEntriesWebpackPlugin.apply.
  destruct (generateEntries true fs now self) as [[r eff']|e] eqn:Hg;
    [|discriminate].
  simpl. intros [= <- <-]. simpl. split; [reflexivity|].
  destruct (generateEntries_normal _ _ _ _ _ _ _ _ _ _ _ Hg)
    as (st & _ & -> & _).
  reflexivity.
Qed.

(** In development mode [add] and [change] start a pass. *)
Lemma handle_add_change fs now ctl pattern filePath :
  watched ctl = Some pattern ->
  handle fs now (Add filePath) ctl
  = regenerate espree_parse pathToRegexp path_join path_relative
      nunjucks_render fs now ctl /\
  handle fs now (Change filePath) ctl
  = regenerate espree_parse pathToRegexp path_join path_relative
      nunjucks_render fs now ctl.
Proof.
  intros Hw. unfold GenerateEntriesWebpackPlugin.handle. now rewrite Hw.
Qed.

(** C8: an [unlink] event for a path that is not a key of the table of the
    controller starts no pass and leaves the controller as it is; when the
    environment is not [dev], [apply] runs one pass, and no sequence of
    events starts another. *)
Theorem watch_controller_triggers
    fs now self ctl eff events fs' now' ctl' filePath :
  (Obj.has filePath (vueComponents (config (plugin ctl'))) = false ->
   handle fs' now' (Unlink filePath) ctl' = Normal (ctl', [])) /\
  (env (config self) <> "dev" ->
   apply fs now self = Normal (ctl, eff) ->
   generateEntries true fs now self = Normal (plugin ctl, eff) /\
   generations eff = 1 /\
   run events ctl = Normal (ctl, [])).
Proof.
  split.
  - intros Hh. unfold GenerateEntriesWebpackPlugin.handle.
    destruct (watched ctl'); [|reflexivity]. now rewrite Hh.
  - intros Henv Ha. destruct (apply_normal _ _ _ _ _ Ha) as [Hg Hw].
    split; [assumption|]. split.
    + now destruct (generateEntries_normal _ _ _ _ _ _ _ _ _ _ _ Hg)
        as (st & _ & _ & _ & _ & Hn).
    + apply run_unwatched. rewrite Hw.
      apply String.eqb_neq in Henv. now rewrite Henv.
Qed.

End Watch.

(** ** The assets of the backend *)

Section Backend.

Variable Disk : Type.
Variable outputFileSync : string -> string -> Disk -> Disk * option JSError.
Variable path_join : list string -> string.

Local Abbreviation writeAsset :=
  (BackendWebpackPlugin.writeAsset Disk outputFileSync path_join).
Local Abbreviation writeAssets :=
  (BackendWebpackPlugin.writeAssets Disk outputFileSync path_join).
Local Abbreviation done :=
  (BackendWebpackPlugin.done Disk outputFileSync path_join).

(** The loop over the assets never throws, and keeps the errors it was
    given. *)
Lemma writeAssets_normal outputPath assets errs disk :
  exists more disk',
    writeAssets outputPath assets errs disk = Normal (errs ++ more, disk').
Proof.
  revert errs disk. induction assets as [|asset rest IH]; intros errs disk;
    simpl.
  - exists [], disk. now rewrite app_nil_r.
  - destruct (writeAsset outputPath asset disk) as [disk1 [[]|e]]; simpl.
    + apply IH.
    + destruct (IH (errs ++ [e]) disk1) as (more & disk' & ->).
      exists (e :: more), disk'. now rewrite <- app_assoc.
Qed.

Lemma writeAssets_app outputPath before after errs disk :
  writeAssets outputPath (before ++ after) errs disk =
  ('(errs, disk) <- writeAssets outputPath before errs disk ;;
   writeAssets outputPath after errs disk).
Proof.
  revert errs disk. induction before as [|asset rest IH];
    intros errs disk; simpl; [reflexivity|].
  destruct (writeAsset outputPath asset disk) as [disk1 [[]|e]]; simpl;
    apply IH.
Qed.

(** C9: when the error list of the compilation is not empty, the [done]
    hook returns with the list and the output directory as they are; when
    it is empty, an asset whose writing throws has its exception appended
    to the list, and the loop goes on with the next asset: the hook ends
    normally, with the exception in the list. *)
Theorem done_writes_or_records outputPath compilation disk :
  (BackendWebpackPlugin.errors compilation <> [] ->
   done outputPath compilation disk
   = Normal (BackendWebpackPlugin.errors compilation, disk)) /\
  (BackendWebpackPlugin.errors compilation = [] ->
   forall before asset after errs disk1 e,
     BackendWebpackPlugin.assets compilation = before ++ asset :: after ->
     writeAssets outputPath before [] disk = Normal (errs, disk1) ->
     snd (writeAsset outputPath asset disk1) = Throw e ->
     done outputPath compilation disk
     = writeAssets outputPath after (errs ++ [e])
         (fst (writeAsset outputPath asset disk1)) /\
     exists more disk',
       done outputPath compilation disk
       = Normal (errs ++ [e] ++ more, disk')).
Proof.
  unfold BackendWebpackPlugin.done. split.
  - intros Hne.
    destruct (BackendWebpackPlugin.errors compilation); [congruence|].
    reflexivity.
  - intros -> before asset after errs disk1 e -> Hb Ht. simpl.
    rewrite writeAssets_app, Hb. simpl.
    destruct (writeAsset outputPath asset disk1) as [disk2 written].
    simpl in Ht. subst written. simpl. split; [reflexivity|].
    destruct (writeAssets_normal outputPath after (errs ++ [e]) disk2)
      as (more & disk' & ->).
    exists more, disk'. now rewrite <- app_assoc.
Qed.

End Backend.

(** * The sample project *)

Lemma sample_distinct type env :
  distinctFiles Sample.path_join Sample.path_relative
    (Sample.project type env) Sample.fs.
Proof.
  unfold distinctFiles. vm_compute.
  repeat (constructor; [simpl; intuition discriminate|]). constructor.
Qed.

(** The pass of the sample project ends normally. *)
Lemma sample_pass type env :
  Sample.generateEntries true Sample.fs (Sample.clock 1000000) (Sample.fresh type env)
  = Normal (Sample.outcome type env).
Proof.
  unfold Sample.outcome.
  destruct (generateEntries_total Sample.espree_parse Sample.pathToRegexp
              Sample.path_join Sample.path_relative Sample.nunjucks_render
              true Sample.fs (Sample.clock 1000000) (Sample.fresh type env))
    as (r & eff & H).
  - intros c. reflexivity.
  - intros p elements Hin. vm_compute in Hin.
    repeat (destruct Hin as [<-|Hin];
            [vm_compute; try discriminate; now intros [= <-]|]).
    contradiction.
  - unfold Sample.generateEntries. now rewrite H.
Qed.

Ltac sample_file := vm_compute; tauto.

(** [none.vue] has no script block. *)
Lemma missing_script_block_one_error_sample :
  JS.indexOf (readFileSync Sample.fs "/p/src/none.vue") "<script>" = (-1)%Z /\
  errorsOf Sample.path_relative (Sample.project "web" "dev") "/p/src/none.vue"
    (errors (fst (Sample.outcome "web" "dev")))
  = [{| name := "Error";
        message := "<script>...</script> block was not found";
        file := Some "src/none.vue" |}] /\
  Obj.get "/p/src/none.vue"
    (vueComponents (config (fst (Sample.outcome "web" "dev"))))
  = Some Obj.empty.
Proof.
  split; [reflexivity|].
  apply (missing_script_block_one_error Sample.espree_parse Sample.pathToRegexp
           Sample.path_join Sample.path_relative Sample.nunjucks_render
           true Sample.fs (Sample.clock 1000000) (Sample.fresh "web" "dev")
           (fst (Sample.outcome "web" "dev")) (snd (Sample.outcome "web" "dev"))
           "/p/src/none.vue").
  - vm_compute. reflexivity.
  - sample_file.
  - apply sample_distinct.
  - left. apply JSFacts.indexOf_lacks. vm_compute. reflexivity.
Defined.

(** [broken.vue] does not parse; [plain.vue] exports no [info]. *)
Lemma unparsed_or_plain_component_no_error_sample :
  (errorsOf Sample.path_relative (Sample.project "web" "dev")
     "/p/src/broken.vue" (errors (fst (Sample.outcome "web" "dev"))) = [] /\
   Obj.get "/p/src/broken.vue"
     (vueComponents (config (fst (Sample.outcome "web" "dev"))))
   = Some Obj.empty) /\
  (errorsOf Sample.path_relative (Sample.project "web" "dev")
     "/p/src/plain.vue" (errors (fst (Sample.outcome "web" "dev"))) = [] /\
   Obj.get "/p/src/plain.vue"
     (vueComponents (config (fst (Sample.outcome "web" "dev"))))
   = Some Obj.empty).
Proof.
  split;
    apply (unparsed_or_plain_component_no_error Sample.espree_parse
             Sample.pathToRegexp Sample.path_join Sample.path_relative
             Sample.nunjucks_render true Sample.fs (Sample.clock 1000000)
             (Sample.fresh "web" "dev")
             (fst (Sample.outcome "web" "dev"))
             (snd (Sample.outcome "web" "dev")));
    try (vm_compute; reflexivity); try sample_file;
    try apply sample_distinct.
  - left. exists "export default {". split; vm_compute; reflexivity.
  - right. eexists. split; vm_compute; reflexivity.
Defined.

(** [all.vue] has an empty [apps], [m.vue] names the application, and
    [admin.vue] names another one. *)
Lemma membership_filter_sample :
  Obj.has "/p/src/all.vue"
    (vueComponents (config (fst (Sample.outcome "web" "dev")))) = true /\
  (Obj.has "/p/src/m.vue"
     (vueComponents (config (fst (Sample.outcome "web" "dev")))) = true
   <-> In "main" ["main"]) /\
  Obj.get "/p/src/admin.vue"
    (vueComponents (config (fst (Sample.outcome "web" "dev")))) = None.
Proof.
  pose proof (fun p H =>
    membership_filter Sample.espree_parse Sample.pathToRegexp
      Sample.path_join Sample.path_relative Sample.nunjucks_render
      true Sample.fs (Sample.clock 1000000) (Sample.fresh "web" "dev")
      (fst (Sample.outcome "web" "dev")) (snd (Sample.outcome "web" "dev")) p
      eq_refl H) as M.
  split; [|split].
  - apply (M "/p/src/all.vue"); [sample_file|]. right. reflexivity.
  - apply (M "/p/src/m.vue"); [sample_file|discriminate|reflexivity].
  - apply (M "/p/src/admin.vue") with (names := ["admin"]);
      [sample_file|discriminate|reflexivity|].
    simpl. intros [H|[]]. discriminate H.
Defined.

(** [dyn.vue] declares [apps: [x, 1]]: it is removed, with two errors.
    [hole.vue] declares [apps: [,]]: the pass over it has no result, and
    throws a [TypeError]. *)
Lemma apps_without_string_literal_removed_or_thrown_sample :
  (Obj.get "/p/src/dyn.vue"
     (vueComponents (config (fst (Sample.outcome "web" "dev")))) = None /\
   List.length
     (errorsOf Sample.path_relative (Sample.project "web" "dev")
        "/p/src/dyn.vue" (errors (fst (Sample.outcome "web" "dev")))) = 2) /\
  (infoOption Sample.espree_parse "apps"
     (readFileSync Sample.fs_elision "/p/src/hole.vue")
   = Some (ArrayExpression [None]) /\
   (forall r eff,
       Sample.generateEntries true Sample.fs_elision (Sample.clock 1000000)
         (Sample.fresh "web" "dev") <> Normal (r, eff)) /\
   exists e,
     Sample.generateEntries true Sample.fs_elision (Sample.clock 1000000)
       (Sample.fresh "web" "dev") = Throw e /\
     name e = "TypeError").
Proof.
  split.
  - destruct (apps_without_string_literal_removed_or_thrown
                Sample.espree_parse Sample.pathToRegexp Sample.path_join
                Sample.path_relative Sample.nunjucks_render true Sample.fs
                (Sample.clock 1000000) (Sample.fresh "web" "dev")
                "/p/src/dyn.vue"
                [Some (Identifier "x"); Some (Literal (LNumber "1"))])
      as [Hremoved _].
    + sample_file.
    + apply sample_distinct.
    + vm_compute. reflexivity.
    + discriminate.
    + repeat constructor.
    + destruct (Hremoved eq_refl (fst (Sample.outcome "web" "dev"))
                  (snd (Sample.outcome "web" "dev"))) as [Hg He].
      * vm_compute. reflexivity.
      * split; [exact Hg|]. exact (f_equal (@List.length JSError) He).
  - split; [vm_compute; reflexivity|].
    destruct (apps_without_string_literal_removed_or_thrown
                Sample.espree_parse Sample.pathToRegexp Sample.path_join
                Sample.path_relative Sample.nunjucks_render true
                Sample.fs_elision (Sample.clock 1000000)
                (Sample.fresh "web" "dev") "/p/src/hole.vue" [None])
      as [_ Hthrown].
    + sample_file.
    + unfold distinctFiles. vm_compute.
      repeat (constructor; [simpl; intuition discriminate|]). constructor.
    + vm_compute. reflexivity.
    + discriminate.
    + repeat constructor.
    + destruct (Hthrown eq_refl) as [Hno Hthrow].
      split; [exact Hno|]. apply Hthrow. intros c. reflexivity.
Defined.

(** C5 as it is stated fails on [admin.vue], which declares [apps:
    ['admin'], path: 'foo'] in a project built for [main]: the path is a
    string literal without a leading slash, yet the pass records no error for
    the file and its key is not in the table. *)
Lemma path_without_slash_of_other_app :
  appName (Sample.project "web" "dev") = "main" /\
  infoOption Sample.espree_parse "apps" (readFileSync Sample.fs "/p/src/admin.vue")
  = Some (ArrayExpression [stringLiteral "admin"]) /\
  infoOption Sample.espree_parse "path" (readFileSync Sample.fs "/p/src/admin.vue")
  = Some (Literal (LString "foo")) /\
  JS.startsWith "foo" "/" = false /\
  In "/p/src/admin.vue"
     (vuePathsOf Sample.path_join (Sample.project "web" "dev") Sample.fs) /\
  Sample.generateEntries true Sample.fs (Sample.clock 1000000) (Sample.fresh "web" "dev")
  = Normal (Sample.outcome "web" "dev") /\
  errorsOf Sample.path_relative (Sample.project "web" "dev") "/p/src/admin.vue"
    (errors (fst (Sample.outcome "web" "dev"))) = [] /\
  Obj.has "/p/src/admin.vue"
    (vueComponents (config (fst (Sample.outcome "web" "dev")))) = false.
Proof.
  repeat split; try (vm_compute; reflexivity). sample_file.
Qed.

(** [foo.vue] declares [path: 'foo'] and no [apps]. *)
Lemma path_without_slash_one_error_sample :
  errorsOf Sample.path_relative (Sample.project "web" "dev") "/p/src/foo.vue"
    (errors (fst (Sample.outcome "web" "dev")))
  = [{| name := "Error";
        message := "'info.path' option must start with '/'";
        file := Some "src/foo.vue" |}] /\
  Obj.get "/p/src/foo.vue"
    (vueComponents (config (fst (Sample.outcome "web" "dev"))))
  = Some Obj.empty /\
  compiledPaths Sample.pathToRegexp (config (fst (Sample.outcome "web" "dev")))
    (Obj.delete "/p/src/foo.vue"
       (vueComponents (config (fst (Sample.outcome "web" "dev")))))
  = compiledPaths Sample.pathToRegexp
      (config (fst (Sample.outcome "web" "dev")))
      (vueComponents (config (fst (Sample.outcome "web" "dev")))).
Proof.
  apply (path_without_slash_one_error Sample.espree_parse Sample.pathToRegexp
           Sample.path_join Sample.path_relative Sample.nunjucks_render
           true Sample.fs (Sample.clock 1000000) (Sample.fresh "web" "dev")
           (fst (Sample.outcome "web" "dev")) (snd (Sample.outcome "web" "dev"))
           "/p/src/foo.vue"
           [Sample.prop "path" (Literal (LString "foo"))]
           (Sample.prop "path" (Literal (LString "foo"))) "foo").
  - vm_compute. reflexivity.
  - sample_file.
  - apply sample_distinct.
  - vm_compute. reflexivity.
  - left. reflexivity.
  - reflexivity.
  - reflexivity.
  - reflexivity.
Defined.

(** C2 as it is stated fails on [m.vue], which declares [apps: ['main'],
    path: '/m'] in a project built for [main]: its entry in the table is
    [{path: '/m'}], without an [apps] property. *)
Lemma apps_of_member_not_in_table :
  appName (Sample.project "web" "dev") = "main" /\
  infoOption Sample.espree_parse "apps" (readFileSync Sample.fs "/p/src/m.vue")
  = Some (ArrayExpression [stringLiteral "main"]) /\
  Sample.generateEntries true Sample.fs (Sample.clock 1000000) (Sample.fresh "web" "dev")
  = Normal (Sample.outcome "web" "dev") /\
  Obj.get "/p/src/m.vue"
    (vueComponents (config (fst (Sample.outcome "web" "dev"))))
  = Some [("path", "/m")] /\
  Obj.get "apps" [("path", "/m")] = None.
Proof.
  repeat split; vm_compute; reflexivity.
Qed.

Lemma apps_not_recorded_sample :
  exists info,
    Obj.get "/p/src/m.vue"
      (vueComponents (config (fst (Sample.outcome "web" "dev")))) = Some info /\
    Obj.get "apps" info = None /\
    incl (Obj.keys info) ["path"].
Proof.
  apply (apps_not_recorded Sample.espree_parse Sample.pathToRegexp
           Sample.path_join Sample.path_relative Sample.nunjucks_render
           true Sample.fs (Sample.clock 1000000) (Sample.fresh "web" "dev")
           (fst (Sample.outcome "web" "dev")) (snd (Sample.outcome "web" "dev"))
           "/p/src/m.vue" ["main"]).
  - vm_compute. reflexivity.
  - sample_file.
  - vm_compute. reflexivity.
  - simpl. tauto.
Defined.

(** C1 as it is stated fails for a mobile application: [a.vue] is in the
    table with the path ['/a'], which compiles, and the pass compiles no page
    path and renders no backend entry. *)
Lemma page_paths_not_compiled_for_mobile :
  type (Sample.project "mobile" "dev") = "mobile" /\
  Sample.generateEntries true Sample.fs (Sample.clock 1000000) (Sample.fresh "mobile" "dev")
  = Normal (Sample.outcome "mobile" "dev") /\
  Obj.get "/p/src/a.vue"
    (vueComponents (config (fst (Sample.outcome "mobile" "dev"))))
  = Some [("path", "/a")] /\
  Sample.pathToRegexp "/a" (caseSensitive (Sample.project "mobile" "dev"))
  = inl "/^/a(?:\/(?=$))?$/i" /\
  pagePathsOf (snd (Sample.outcome "mobile" "dev")) = None /\
  snd (Sample.outcome "mobile" "dev")
  = [Render "frontend.js"
       (FrontendData
          (vueComponents (config (fst (Sample.outcome "mobile" "dev"))))
          None false);
     WriteFile "/p/.basys/frontend-entry.js"
       (Sample.nunjucks_render "frontend.js"
          (FrontendData
             (vueComponents (config (fst (Sample.outcome "mobile" "dev"))))
             None false));
     Utimes "/p/.basys/frontend-entry.js" 900000 900000].
Proof.
  repeat split; vm_compute; reflexivity.
Qed.

(** In the web build of the sample, [a.vue] comes first in the table and
    [m.vue] second. *)
Lemma page_paths_of_pass_sample :
  pagePathsOf (snd (Sample.outcome "web" "dev"))
  = Some ["/^/a(?:\/(?=$))?$/i"; "/^/m(?:\/(?=$))?$/i"] /\
  pagePathsOf (snd (Sample.outcome "mobile" "dev")) = None.
Proof.
  split.
  - refine (proj1
      (proj1 (page_paths_of_pass Sample.espree_parse Sample.pathToRegexp
                Sample.path_join Sample.path_relative Sample.nunjucks_render
                true Sample.fs (Sample.clock 1000000) (Sample.fresh "web" "dev")
                (fst (Sample.outcome "web" "dev"))
                (snd (Sample.outcome "web" "dev")) _)
         eq_refl
         [("/p/src/a.vue", [("path", "/a")])] "/p/src/m.vue" [("path", "/m")]
         [("/p/src/foo.vue", []); ("/p/src/plain.vue", []);
          ("/p/src/broken.vue", []); ("/p/src/none.vue", []);
          ("/p/src/all.vue", [])]
         "/m" "/^/m(?:\/(?=$))?$/i" _ _ _));
      vm_compute; reflexivity.
  - refine (proj1
      (proj2 (page_paths_of_pass Sample.espree_parse Sample.pathToRegexp
                Sample.path_join Sample.path_relative Sample.nunjucks_render
                true Sample.fs (Sample.clock 1000000) (Sample.fresh "mobile" "dev")
                (fst (Sample.outcome "mobile" "dev"))
                (snd (Sample.outcome "mobile" "dev")) _) _));
      [vm_compute; reflexivity | discriminate].
Defined.

(** Two configurations of the sample that differ in the temporary directory,
    the frontend entry and the unexposed keys. *)
Lemma backend_data_depends_on_exposed_keys_sample :
  others (config (Sample.fresh "web" "dev"))
  <> others (config (Sample.fresh' "web" "dev")) /\
  backendData (snd (Sample.outcome "web" "dev"))
  = backendData (snd (Sample.outcome' "web" "dev")).
Proof.
  split; [discriminate|].
  apply (backend_data_depends_on_exposed_keys Sample.espree_parse
           Sample.pathToRegexp Sample.path_join Sample.path_relative
           Sample.nunjucks_render true false Sample.fs (Sample.clock 1000000)
           (Sample.clock 5)
           (Sample.fresh "web" "dev") (Sample.fresh' "web" "dev")
           (fst (Sample.outcome "web" "dev")) (snd (Sample.outcome "web" "dev"))
           (fst (Sample.outcome' "web" "dev"))
           (snd (Sample.outcome' "web" "dev")));
    vm_compute; reflexivity.
Defined.

(** The production build of the sample runs one pass; in the development
    build, removing [admin.vue], which is not in the table, starts none. *)
Lemma watch_controller_triggers_sample :
  handle Sample.espree_parse Sample.pathToRegexp Sample.path_join
    Sample.path_relative Sample.nunjucks_render Sample.fs_elision (Sample.clock 2000000)
    (Unlink "/p/src/admin.vue") (fst (Sample.started "web" "dev"))
  = Normal (fst (Sample.started "web" "dev"), []) /\
  generations (snd (Sample.started "web" "production")) = 1 /\
  run Sample.espree_parse Sample.pathToRegexp Sample.path_join
    Sample.path_relative Sample.nunjucks_render
    [(Change "/p/src/a.vue", Sample.fs, (Sample.clock 2000000));
     (Unlink "/p/src/a.vue", Sample.fs_elision, (Sample.clock 3000000));
     (Add "/p/src/hole.vue", Sample.fs_elision, (Sample.clock 4000000))]
    (fst (Sample.started "web" "production"))
  = Normal (fst (Sample.started "web" "production"), []).
Proof.
  pose proof (watch_controller_triggers Sample.espree_parse Sample.pathToRegexp
                Sample.path_join Sample.path_relative Sample.nunjucks_render
                Sample.fs (Sample.clock 1000000) (Sample.fresh "web" "production")
                (fst (Sample.started "web" "production"))
                (snd (Sample.started "web" "production"))
                [(Change "/p/src/a.vue", Sample.fs, (Sample.clock 2000000));
                 (Unlink "/p/src/a.vue", Sample.fs_elision, (Sample.clock 3000000));
                 (Add "/p/src/hole.vue", Sample.fs_elision, (Sample.clock 4000000))]
                Sample.fs_elision (Sample.clock 2000000)
                (fst (Sample.started "web" "dev")) "/p/src/admin.vue")
    as [Hunlink Hprod].
  split.
  - apply Hunlink. vm_compute. reflexivity.
  - apply Hprod; [discriminate | vm_compute; reflexivity].
Defined.

(** One asset of the sample cannot be written; the other compilation has
    failed already. *)
Lemma done_writes_or_records_sample :
  BackendWebpackPlugin.done (Obj.t string) Sample.outputFileSync
    Sample.path_join "/out" Sample.failed []
  = Normal ([Error "Module not found"], []) /\
  BackendWebpackPlugin.done (Obj.t string) Sample.outputFileSync
    Sample.path_join "/out" Sample.compiled []
  = Normal ([Error "EACCES: permission denied"],
            [("/out/backend.js", "a"); ("/out/backend.js.map", "c")]).
Proof.
  pose proof (done_writes_or_records (Obj.t string) Sample.outputFileSync
                Sample.path_join "/out" Sample.failed []) as [Hfailed _].
  pose proof (done_writes_or_records (Obj.t string) Sample.outputFileSync
                Sample.path_join "/out" Sample.compiled []) as [_ Hcompiled].
  split.
  - apply Hfailed. discriminate.
  - destruct (Hcompiled eq_refl [("backend.js", Sample.asset "a")]
                ("locked.js", Sample.asset "b")
                [("backend.js.map", Sample.asset "c")]
                [] [("/out/backend.js", "a")]
                (Error "EACCES: permission denied")
                eq_refl eq_refl eq_refl) as [-> _].
    reflexivity.
Defined.

(** * Further properties *)

(** ** The script block *)

Module ScriptBlock.

Import JS.

Lemma length_append (a b : string) :
  String.length (a ++ b) = String.length a + String.length b.
Proof. induction a as [|c a IH]; simpl; [reflexivity | now rewrite IH]. Qed.

Lemma append_assoc (a b c : string) :
  ((a ++ b) ++ c)%string = (a ++ b ++ c)%string.
Proof. induction a as [|x a IH]; simpl; [reflexivity | now rewrite IH]. Qed.

(** Two ways to cut one string: the shorter head is a head of the longer. *)
Lemma append_split (a x b y : string) :
  (a ++ x)%string = (b ++ y)%string ->
  String.length a <= String.length b ->
  exists m, b = (a ++ m)%string /\ x = (m ++ y)%string.
Proof.
  revert b. induction a as [|c a IH]; intros b H Hl; simpl in *.
  - now exists b.
  - destruct b as [|d b]; simpl in *; [lia|].
    injection H as -> H. destruct (IH b H) as (m & -> & ->); [lia|].
    now exists m.
Qed.

Lemma substring_middle (a m y : string) :
  String.substring (String.length a) (String.length m) (a ++ m ++ y) = m.
Proof.
  induction a as [|c a IH]; simpl; [|exact IH].
  induction m as [|d m IHm]; simpl.
  - now destruct y.
  - now rewrite IHm.
Qed.

(** The first occurrence found by [indexOf]. *)
Lemma indexOfFrom_found (n s : string) (i : Z) :
  JS.indexOfFrom n i s <> (-1)%Z ->
  exists pre post,
    s = (pre ++ n ++ post)%string /\
    JS.indexOfFrom n i s = (i + Z.of_nat (String.length pre))%Z /\
    forall pre' post', s = (pre' ++ n ++ post')%string ->
                       String.length pre <= String.length pre'.
Proof.
  revert i. induction s as [|c s IH]; intros i.
  - rewrite JSFacts.indexOfFrom_nil. destruct (String.prefix n "") eqn:E;
      [|congruence].
    intros _. apply JSFacts.prefix_app in E. destruct E as [post E].
    exists ""%string, post. simpl. repeat split; [assumption | lia | lia].
  - rewrite JSFacts.indexOfFrom_cons.
    destruct (String.prefix n (String c s)) eqn:E.
    + intros _. apply JSFacts.prefix_app in E. destruct E as [post E].
      exists ""%string, post. simpl. repeat split; [assumption | lia | lia].
    + intros H. destruct (IH _ H) as (pre & post & -> & Hi & Hmin).
      exists (String c pre), post. simpl. repeat split; [lia|].
      intros pre' post' Heq. destruct pre' as [|c' pre'].
      * assert (String.prefix n (String c (pre ++ n ++ post)) = true) as F;
          [|congruence].
        apply JSFacts.prefix_app. now exists post'.
      * simpl in Heq. injection Heq as _ Heq. simpl.
        apply Hmin in Heq. lia.
Qed.

Lemma indexOf_found (s n : string) :
  JS.indexOf s n <> (-1)%Z ->
  exists pre post,
    s = (pre ++ n ++ post)%string /\
    JS.indexOf s n = Z.of_nat (String.length pre) /\
    forall pre' post', s = (pre' ++ n ++ post')%string ->
                       String.length pre <= String.length pre'.
Proof.
  intros H. destruct (indexOfFrom_found n s 0 H) as (pre & post & Hs & Hi & Hm).
  exists pre, post. repeat split; assumption.
Qed.

Lemma get_append_right (a b : string) (k : nat) :
  String.get (String.length a + k) (a ++ b) = String.get k b.
Proof. induction a as [|c a IH]; simpl; [reflexivity | exact IH]. Qed.

(** A closing marker does not begin inside an opening marker. *)
Lemma markers_apart (pre r pre2 post : string) :
  (pre ++ "<script>" ++ r)%string = (pre2 ++ "</script>" ++ post)%string ->
  String.length pre <= String.length pre2 ->
  String.length pre + 8 <= String.length pre2.
Proof.
  intros H Hle.
  destruct (Nat.le_gt_cases (String.length pre + 8) (String.length pre2))
    as [|Hlt]; [assumption | exfalso].
  pose proof (get_append_right pre2 ("</script>" ++ post) 0) as G0.
  pose proof (get_append_right pre2 ("</script>" ++ post) 1) as G1.
  rewrite <- H in G0, G1.
  remember (String.length pre2 - String.length pre) as j eqn:Hj.
  replace (String.length pre2 + 0) with (String.length pre + j) in G0 by lia.
  replace (String.length pre2 + 1) with (String.length pre + (j + 1)) in G1
    by lia.
  rewrite get_append_right in G0, G1.
  assert (j < 8) as Hj8 by lia. clear - G0 G1 Hj8.
  do 8 (destruct j as [|j]; [simpl in *; discriminate|]). lia.
Qed.

End ScriptBlock.

(** X1: when a script block is found, the text given to the parser is what
    lies between the first opening marker and the first closing marker of
    the file, and contains no closing marker. *)
Theorem scriptBlock_between_markers (content script : string) :
  scriptBlock content = Some script ->
  exists pre post,
    content = (pre ++ "<script>" ++ script ++ "</script>" ++ post)%string /\
    JS.indexOf content "<script>" = Z.of_nat (String.length pre) /\
    JS.indexOf content "</script>"
    = Z.of_nat (String.length pre + 8 + String.length script) /\
    JS.lacks "</script>" script.
Proof.
  unfold scriptBlock.
  destruct (JS.indexOf content "<script>" =? -1)%Z eqn:Es; [discriminate|].
  destruct (JS.indexOf content "</script>" =? -1)%Z eqn:Ee; [discriminate|].
  destruct (JS.indexOf content "<script>" >? JS.indexOf content "</script>")%Z
    eqn:Eo; [discriminate|].
  simpl. intros [= <-].
  apply Z.eqb_neq in Es, Ee.
  destruct (ScriptBlock.indexOf_found _ _ Es) as (pre & r1 & D1 & I1 & _).
  destruct (ScriptBlock.indexOf_found _ _ Ee) as (pre2 & post & D2 & I2 & M2).
  assert (String.length pre <= String.length pre2) as Hle.
  { rewrite Z.gtb_ltb in Eo. apply Z.ltb_ge in Eo. lia. }
  assert (String.length pre + 8 <= String.length pre2) as Hap.
  { apply (ScriptBlock.markers_apart pre r1 pre2 post); [congruence | exact Hle]. }
  destruct (ScriptBlock.append_split (pre ++ "<script>") r1 pre2
              ("</script>" ++ post)) as (m & Hp2 & Hr1).
  { rewrite ScriptBlock.append_assoc. congruence. }
  { rewrite ScriptBlock.length_append. simpl. lia. }
  assert (String.length pre2 = String.length pre + 8 + String.length m) as Hl2.
  { rewrite Hp2, ?ScriptBlock.length_append. simpl. lia. }
  assert (content = ((pre ++ "<script>") ++ m ++ "</script>" ++ post)%string)
    as Dc.
  { rewrite D1, Hr1. now rewrite ScriptBlock.append_assoc. }
  assert (JS.substring content (JS.indexOf content "<script>" + 8)
            (JS.indexOf content "</script>") = m) as Hsub.
  { unfold JS.substring, JS.clamp. rewrite I1, I2.
    assert (String.length content
            = String.length pre + 8 + String.length m + 9 + String.length post)
      as Hlen.
    { rewrite Dc, ?ScriptBlock.length_append. simpl.
      rewrite ?ScriptBlock.length_append. simpl. lia. }
    replace (Nat.min _ _) with (String.length (pre ++ "<script>")).
    2:{ rewrite ScriptBlock.length_append. simpl. lia. }
    replace (Nat.max _ _ - _) with (String.length m).
    2:{ rewrite ScriptBlock.length_append. simpl. lia. }
    rewrite Dc at 1. apply ScriptBlock.substring_middle. }
  rewrite Hsub. exists pre, post. repeat split.
  - rewrite Dc. now rewrite ScriptBlock.append_assoc.
  - exact I1.
  - rewrite I2, Hl2. reflexivity.
  - intros a b Hm.
    assert (content
            = ((pre ++ "<script>" ++ a) ++ "</script>"
               ++ (b ++ "</script>" ++ post))%string) as Dm.
    { rewrite Dc, Hm.
      rewrite ?ScriptBlock.append_assoc. simpl.
      now rewrite ?ScriptBlock.append_assoc. }
    apply M2 in Dm. rewrite Hl2, Hm in Dm.
    rewrite ?ScriptBlock.length_append in Dm. simpl in Dm.
    rewrite ?ScriptBlock.length_append in Dm. simpl in Dm. lia.
Qed.

Lemma scriptBlock_between_markers_sample :
  exists pre post,
    readFileSync Sample.fs "/p/src/plain.vue"
    = (pre ++ "<script>" ++ "export default {name: 'page'}" ++ "</script>"
       ++ post)%string /\
    JS.indexOf (readFileSync Sample.fs "/p/src/plain.vue") "<script>"
    = Z.of_nat (String.length pre) /\
    JS.indexOf (readFileSync Sample.fs "/p/src/plain.vue") "</script>"
    = Z.of_nat (String.length pre + 8
                + String.length "export default {name: 'page'}") /\
    JS.lacks "</script>" "export default {name: 'page'}".
Proof.
  apply (scriptBlock_between_markers
           (readFileSync Sample.fs "/p/src/plain.vue")
           "export default {name: 'page'}").
  vm_compute. reflexivity.
Defined.

(** ** The shape of the metadata *)

(** The strings that the loop over [info.apps] collects, and the number of
    elements that it reports. *)
Definition stringsOf (elements : list (option Node)) : list string :=
  flat_map (fun element => match element with
                           | Some (Literal (LString s)) => [s]
                           | _ => []
                           end) elements.

Definition nonStrings (elements : list (option Node)) : nat :=
  List.length (filter (fun element => negb (isStringLiteral element)) elements).

Section Schema.

Variable espree_parse : string -> option Program.
Variable pathToRegexp : string -> bool -> string + string.
Variable path_join : list string -> string.
Variable path_relative : string -> string -> string.
Variable nunjucks_render : string -> TemplateData -> string.

Local Abbreviation generateEntries :=
  (GenerateEntriesWebpackPlugin.generateEntries espree_parse pathToRegexp
     path_join path_relative nunjucks_render).
Local Abbreviation vuePathsOf :=
  (GenerateEntriesWebpackPlugin.vuePathsOf path_join).
Local Abbreviation distinctFiles :=
  (GenerateEntriesWebpackPlugin.distinctFiles path_join path_relative).
Local Abbreviation errorsOf :=
  (GenerateEntriesWebpackPlugin.errorsOf path_relative).
Local Abbreviation fileError :=
  (GenerateEntriesWebpackPlugin.fileError path_relative).
Local Abbreviation fileScan :=
  (GenerateEntriesWebpackPlugin.fileScan espree_parse path_relative).
Local Abbreviation exportedOptions :=
  (GenerateEntriesWebpackPlugin.exportedOptions espree_parse).
Local Abbreviation infoProps :=
  (GenerateEntriesWebpackPlugin.infoProps espree_parse).
Local Abbreviation infoOption :=
  (GenerateEntriesWebpackPlugin.infoOption espree_parse).
Local Abbreviation collectApps :=
  (GenerateEntriesWebpackPlugin.collectApps path_relative).
Local Abbreviation scanApps :=
  (GenerateEntriesWebpackPlugin.scanApps path_relative).
Local Abbreviation scanPath :=
  (GenerateEntriesWebpackPlugin.scanPath path_relative).
Local Abbreviation error := (GenerateEntriesWebpackPlugin.error path_relative).
Local Abbreviation pass_file :=
  (pass_file espree_parse pathToRegexp path_join path_relative nunjucks_render).

(** A file whose scan on its own records [errs] and leaves an empty info is
    in the table of the pass with an empty info and exactly those errors. *)
Lemma pass_file_entered init fs now self r eff p errs :
  generateEntries init fs now self = Normal (r, eff) ->
  In p (vuePathsOf (config self) fs) ->
  distinctFiles (config self) fs ->
  fileScan (config self) fs p
  = Normal {| table := [(p, Obj.empty)]; scanErrors := errs |} ->
  errorsOf (config self) p (errors r) = errs /\
  Obj.get p (vueComponents (config r)) = Some Obj.empty.
Proof.
  intros H Hin Hd Hs.
  destruct (pass_file _ _ _ _ _ _ _ H Hin) as (fr & Hfr & Hget & Herr).
  rewrite Hs in Hfr. injection Hfr as <-.
  rewrite Hget, (Herr Hd). simpl. now rewrite String.eqb_refl.
Qed.

(** X2: a file whose script parses but has no default export of an object
    literal gets exactly one error, "Expected `export default { ... }` inside
    <script> block", and stays in the table with an empty info. *)
Theorem no_exported_object_one_error init fs now self r eff p script ast :
  generateEntries init fs now self = Normal (r, eff) ->
  In p (vuePathsOf (config self) fs) ->
  distinctFiles (config self) fs ->
  scriptBlock (readFileSync fs p) = Some script ->
  espree_parse script = Some ast ->
  exportedOptions (readFileSync fs p) = None ->
  errorsOf (config self) p (errors r)
  = [fileError (config self) p
       "Expected `export default { ... }` inside <script> block"] /\
  Obj.get p (vueComponents (config r)) = Some Obj.empty.
Proof.
  intros H Hin Hd Hb Hp He.
  apply (pass_file_entered _ _ _ _ _ _ _ _ H Hin Hd).
  unfold GenerateEntriesWebpackPlugin.exportedOptions in He.
  rewrite Hb, Hp in He.
  unfold GenerateEntriesWebpackPlugin.fileScan,
         GenerateEntriesWebpackPlugin.scanContent, scriptBlock in *.
  cbv zeta in *.
  destruct (_ || _ || _); [discriminate|].
  injection Hb as Hb. rewrite Hb, Hp.
  destruct (find isExportDefault (body ast)) as [[[]|]|];
    try reflexivity; discriminate.
Qed.

(** X3: a file whose [info] option is not an object literal gets exactly one
    error, "'info' option must be an object", and stays in the table with an
    empty info. *)
Theorem info_not_object_one_error init fs now self r eff p properties infoProp :
  generateEntries init fs now self = Normal (r, eff) ->
  In p (vuePathsOf (config self) fs) ->
  distinctFiles (config self) fs ->
  exportedOptions (readFileSync fs p) = Some properties ->
  find (isNamed "info") properties = Some infoProp ->
  (forall props, value infoProp <> ObjectExpression props) ->
  errorsOf (config self) p (errors r)
  = [fileError (config self) p "'info' option must be an object"] /\
  Obj.get p (vueComponents (config r)) = Some Obj.empty.
Proof.
  intros H Hin Hd He Hf Hv.
  apply (pass_file_entered _ _ _ _ _ _ _ _ H Hin Hd).
  unfold GenerateEntriesWebpackPlugin.fileScan,
         GenerateEntriesWebpackPlugin.scanContent,
         GenerateEntriesWebpackPlugin.exportedOptions, scriptBlock in *.
  cbv zeta in *.
  destruct (_ || _ || _); [discriminate|].
  destruct (espree_parse _) as [ast|]; [|discriminate].
  destruct (find isExportDefault (body ast)) as [[[]|]|]; try discriminate.
  injection He as ->. rewrite Hf.
  destruct (value infoProp) as [ | | | props | ]; try reflexivity.
  now destruct (Hv props).
Qed.

(** X4: a file whose [info.apps] is not an array literal gets exactly one
    error, "'info.apps' option must be an array of string literals"; it
    stays in the table, with an empty info whatever its [info.path]. *)
Theorem apps_not_array_one_error init fs now self r eff p props appsProp :
  generateEntries init fs now self = Normal (r, eff) ->
  In p (vuePathsOf (config self) fs) ->
  distinctFiles (config self) fs ->
  infoProps (readFileSync fs p) = Some props ->
  find (isNamed "apps") props = Some appsProp ->
  (forall elements, value appsProp <> ArrayExpression elements) ->
  errorsOf (config self) p (errors r)
  = [fileError (config self) p
       "'info.apps' option must be an array of string literals"] /\
  Obj.get p (vueComponents (config r)) = Some Obj.empty.
Proof.
  intros H Hin Hd Hi Hf Hv.
  apply (pass_file_entered _ _ _ _ _ _ _ _ H Hin Hd).
  rewrite (fileScan_info espree_parse path_relative _ _ _ _ Hi).
  unfold GenerateEntriesWebpackPlugin.scanApps. rewrite Hf.
  destruct (value appsProp) as [ | | elements | | ]; try reflexivity.
  now destruct (Hv elements).
Qed.

(** X5: a file that [info.apps] lets through and whose [info.path] is not a
    string literal gets exactly one error, "'info.path' option must be a
    string literal", and stays in the table with an empty info. *)
Theorem path_not_string_one_error init fs now self r eff p props pathProp :
  generateEntries init fs now self = Normal (r, eff) ->
  In p (vuePathsOf (config self) fs) ->
  distinctFiles (config self) fs ->
  infoProps (readFileSync fs p) = Some props ->
  appsAllow (appName (config self)) props ->
  find (isNamed "path") props = Some pathProp ->
  (forall s, value pathProp <> Literal (LString s)) ->
  errorsOf (config self) p (errors r)
  = [fileError (config self) p "'info.path' option must be a string literal"] /\
  Obj.get p (vueComponents (config r)) = Some Obj.empty.
Proof.
  intros H Hin Hd Hi Ha Hf Hv.
  apply (pass_file_entered _ _ _ _ _ _ _ _ H Hin Hd).
  rewrite (fileScan_info espree_parse path_relative _ _ _ _ Hi).
  rewrite (scanApps_allow path_relative _ _ _ _ Ha). cbn [bind].
  unfold GenerateEntriesWebpackPlugin.scanPath. rewrite Hf.
  destruct (value pathProp) as [ | [s| | | | ] | | | ]; try reflexivity.
  now destruct (Hv s).
Qed.

(** The loop over the elements of [info.apps], without elision. *)
Lemma collectApps_spec config p elements acc st :
  noElision elements = true ->
  collectApps config p elements acc st
  = Normal (acc ++ stringsOf elements,
            {| table := table st;
               scanErrors :=
                 scanErrors st ++
                 repeat (fileError config p
                           "All items of 'info.apps' option be string literals")
                        (nonStrings elements) |}).
Proof.
  revert acc st.
  induction elements as [|[node|] elements IH]; intros acc st H; simpl in *.
  - rewrite !app_nil_r. now destruct st.
  - unfold nonStrings in *.
    destruct node as [ | [] | | | ]; rewrite (IH _ _ H); simpl;
      rewrite <- ?app_assoc; reflexivity.
  - discriminate.
Qed.

(** The block on [info.path] records at most one error. *)
Lemma scanPath_errors config p props st st' :
  scanPath config p props st = Normal st' ->
  exists rest, scanErrors st' = scanErrors st ++ rest /\ List.length rest <= 1.
Proof.
  unfold GenerateEntriesWebpackPlugin.scanPath.
  destruct (find (isNamed "path") props) as [pathProp|].
  2:{ intros [= <-]. exists [].
      split; [now rewrite app_nil_r | simpl; lia]. }
  destruct (value pathProp) as [ | [s| | | | ] | | | ];
    try (intros [= <-]; eexists; split; [reflexivity | simpl; lia]).
  destruct (negb _);
    [intros [= <-]; eexists; split; [reflexivity | simpl; lia]|].
  destruct (Obj.get p (table st)); [|discriminate].
  intros [= <-]. exists []. split; [now rewrite app_nil_r | simpl; lia].
Qed.

(** X6: in a pass that ends normally, a non-empty array literal for
    [info.apps] has no elided element (the pass throws on one); its string
    literals alone decide whether the component is in the table; each
    other element is reported once, and the file gets at most one more
    error, none when the component is left out. *)
Theorem apps_membership_by_string_literals
    init fs now self r eff p elements :
  generateEntries init fs now self = Normal (r, eff) ->
  In p (vuePathsOf (config self) fs) ->
  distinctFiles (config self) fs ->
  infoOption "apps" (readFileSync fs p) = Some (ArrayExpression elements) ->
  elements <> [] ->
  noElision elements = true /\
  (Obj.has p (vueComponents (config r)) = true
   <-> In (appName (config self)) (stringsOf elements)) /\
  exists rest,
    errorsOf (config self) p (errors r)
    = repeat (fileError (config self) p
                "All items of 'info.apps' option be string literals")
             (nonStrings elements) ++ rest /\
    List.length rest <= 1 /\
    (Obj.has p (vueComponents (config r)) = false -> rest = []).
Proof.
  intros H Hin Hd Ha Hne.
  destruct (pass_file _ _ _ _ _ _ _ H Hin) as (fr & Hfr & Hget & Herr).
  destruct (noElision elements) eqn:He.
  2:{ rewrite (fileScan_elision espree_parse path_relative _ _ _ _ Ha He)
        in Hfr. discriminate. }
  split; [reflexivity|].
  unfold GenerateEntriesWebpackPlugin.infoOption in Ha.
  destruct (infoProps (readFileSync fs p)) as [props|] eqn:Hi;
    [|discriminate].
  destruct (find (isNamed "apps") props) as [appsProp|] eqn:Hf;
    [|discriminate].
  injection Ha as Ha.
  rewrite (fileScan_info espree_parse path_relative _ _ _ _ Hi) in Hfr.
  unfold GenerateEntriesWebpackPlugin.scanApps in Hfr. rewrite Hf, Ha in Hfr.
  destruct elements as [|element elements]; [congruence|].
  cbn [List.length Nat.ltb Nat.leb] in Hfr.
  rewrite (collectApps_spec _ _ _ _ _ He) in Hfr. cbn [bind app] in Hfr.
  rewrite <- JSFacts.includes_In. unfold Obj.has. rewrite Hget, (Herr Hd).
  destruct (JS.includes (stringsOf (element :: elements))
              (appName (config self))) eqn:Hinc; cbn [negb bind] in Hfr.
  - match type of Hfr with
    | GenerateEntriesWebpackPlugin.scanPath _ _ _ _ ?st1 = _ =>
        destruct (scanPath_present path_relative (config self) p props st1
                    Obj.empty eq_refl) as (st' & info' & Hsp & Ht')
    end.
    pose proof Hsp as Hsp'. rewrite Hfr in Hsp'. injection Hsp' as <-.
    destruct (scanPath_errors _ _ _ _ _ Hsp) as (rest & Hrest & Hlen).
    rewrite Ht'. simpl. rewrite String.eqb_refl. split; [tauto|].
    exists rest. simpl in Hrest. repeat split; [assumption.. | discriminate].
  - injection Hfr as <-. simpl. rewrite String.eqb_refl. simpl.
    split; [split; discriminate|].
    exists []. rewrite app_nil_r. repeat split. simpl. lia.
Qed.

End Schema.

(** ** A second sample project, with ill-formed metadata *)

Module Sample2.

Definition exported (properties : list Property) : Program :=
  {| body := [ExportDefaultDeclaration (ObjectExpression properties)] |}.

Definition scripts : list (string * Program) :=
  [ ("const page = {}",
     {| body := [OtherStatement] |});
    ("export default {info: 'page'}",
     exported [Sample.prop "info" (Literal (LString "page"))]);
    ("export default {info: {apps: 'main', path: '/x'}}",
     exported [Sample.prop "info"
                 (ObjectExpression
                    [Sample.prop "apps" (Literal (LString "main"));
                     Sample.prop "path" (Literal (LString "/x"))])]);
    ("export default {info: {path: 5}}",
     exported [Sample.prop "info"
                 (ObjectExpression
                    [Sample.prop "path" (Literal (LNumber "5"))])]);
    ("export default {info: {apps: [x, 'main', 1], path: '/mixed'}}",
     exported [Sample.prop "info"
                 (ObjectExpression
                    [Sample.prop "apps"
                       (ArrayExpression
                          [Some (Identifier "x");
                           Some (Literal (LString "main"));
                           Some (Literal (LNumber "1"))]);
                     Sample.prop "path" (Literal (LString "/mixed"))])]);
    ("export default {info: {apps: [x, 'admin'], path: '/out'}}",
     exported [Sample.prop "info"
                 (ObjectExpression
                    [Sample.prop "apps"
                       (ArrayExpression
                          [Some (Identifier "x");
                           Some (Literal (LString "admin"))]);
                     Sample.prop "path" (Literal (LString "/out"))])]);
    ("export default {info: {path: '/('}}",
     exported [Sample.prop "info"
                 (ObjectExpression
                    [Sample.prop "path" (Literal (LString "/("))])]);
    ("export default {info: {path: '/ok'}}",
     exported [Sample.prop "info"
                 (ObjectExpression
                    [Sample.prop "path" (Literal (LString "/ok"))])]) ].

Definition espree_parse (script : string) : option Program :=
  Obj.get script scripts.

Definition files : list (string * string) :=
  [ ("/p/src/noexport.vue", Sample.vue "const page = {}");
    ("/p/src/infostr.vue", Sample.vue "export default {info: 'page'}");
    ("/p/src/appsstr.vue",
     Sample.vue "export default {info: {apps: 'main', path: '/x'}}");
    ("/p/src/pathnum.vue", Sample.vue "export default {info: {path: 5}}");
    ("/p/src/mixed.vue",
     Sample.vue "export default {info: {apps: [x, 'main', 1], path: '/mixed'}}");
    ("/p/src/out.vue",
     Sample.vue "export default {info: {apps: [x, 'admin'], path: '/out'}}");
    ("/p/src/bad.vue", Sample.vue "export default {info: {path: '/('}}");
    ("/p/src/ok.vue", Sample.vue "export default {info: {path: '/ok'}}") ].

Definition fs : FileSystem :=
  {| glob_sync := fun pattern =>
       if String.eqb pattern "/p/src/**/*.vue" then Obj.keys files else [];
     readFileSync := fun path =>
       match Obj.get path files with Some content => content | None => "" end;
     throws := fun _ => None |}.

(** The project once [out.vue] and [bad.vue] have been removed. *)
Definition fs_removed : FileSystem :=
  {| glob_sync := fun pattern =>
       if String.eqb pattern "/p/src/**/*.vue"
       then Obj.keys (Obj.delete "/p/src/bad.vue" files) else [];
     readFileSync := readFileSync fs;
     throws := fun _ => None |}.

Definition generateEntries :=
  generateEntries espree_parse Sample.pathToRegexp Sample.path_join
    Sample.path_relative Sample.nunjucks_render.

Definition outcome (init : bool) (type env : string) : Plugin * list Effect :=
  match generateEntries init fs (Sample.clock 1000000) (Sample.fresh type env) with
  | Normal result => result
  | Throw _ => (Sample.fresh type env, [])
  end.

Definition started (type env : string) : Controller * list Effect :=
  match apply espree_parse Sample.pathToRegexp Sample.path_join
          Sample.path_relative Sample.nunjucks_render fs (Sample.clock 1000000)
          (Sample.fresh type env) with
  | Normal result => result
  | Throw _ => ({| plugin := Sample.fresh type env; watched := None |}, [])
  end.

End Sample2.

Lemma sample2_distinct type env :
  distinctFiles Sample.path_join Sample.path_relative
    (Sample.project type env) Sample2.fs.
Proof.
  unfold distinctFiles. vm_compute.
  repeat (constructor; [simpl; intuition discriminate|]). constructor.
Qed.

Ltac sample2_pass :=
  first [ vm_compute; reflexivity
        | vm_compute; tauto
        | apply sample2_distinct ].

Lemma no_exported_object_one_error_sample :
  errorsOf Sample.path_relative (Sample.project "web" "dev")
    "/p/src/noexport.vue" (errors (fst (Sample2.outcome true "web" "dev")))
  = [{| name := "Error";
        message := "Expected `export default { ... }` inside <script> block";
        file := Some "src/noexport.vue" |}] /\
  Obj.get "/p/src/noexport.vue"
    (vueComponents (config (fst (Sample2.outcome true "web" "dev"))))
  = Some Obj.empty.
Proof.
  apply (no_exported_object_one_error Sample2.espree_parse Sample.pathToRegexp
           Sample.path_join Sample.path_relative Sample.nunjucks_render
           true Sample2.fs (Sample.clock 1000000) (Sample.fresh "web" "dev")
           (fst (Sample2.outcome true "web" "dev"))
           (snd (Sample2.outcome true "web" "dev"))
           "/p/src/noexport.vue" "const page = {}"
           {| body := [OtherStatement] |}); sample2_pass.
Defined.

Lemma info_not_object_one_error_sample :
  errorsOf Sample.path_relative (Sample.project "web" "dev")
    "/p/src/infostr.vue" (errors (fst (Sample2.outcome true "web" "dev")))
  = [{| name := "Error"; message := "'info' option must be an object";
        file := Some "src/infostr.vue" |}] /\
  Obj.get "/p/src/infostr.vue"
    (vueComponents (config (fst (Sample2.outcome true "web" "dev"))))
  = Some Obj.empty.
Proof.
  apply (info_not_object_one_error Sample2.espree_parse Sample.pathToRegexp
           Sample.path_join Sample.path_relative Sample.nunjucks_render
           true Sample2.fs (Sample.clock 1000000) (Sample.fresh "web" "dev")
           (fst (Sample2.outcome true "web" "dev"))
           (snd (Sample2.outcome true "web" "dev"))
           "/p/src/infostr.vue"
           [Sample.prop "info" (Literal (LString "page"))]
           (Sample.prop "info" (Literal (LString "page"))));
    try sample2_pass.
  intros props. discriminate.
Defined.

Lemma apps_not_array_one_error_sample :
  errorsOf Sample.path_relative (Sample.project "web" "dev")
    "/p/src/appsstr.vue" (errors (fst (Sample2.outcome true "web" "dev")))
  = [{| name := "Error";
        message := "'info.apps' option must be an array of string literals";
        file := Some "src/appsstr.vue" |}] /\
  Obj.get "/p/src/appsstr.vue"
    (vueComponents (config (fst (Sample2.outcome true "web" "dev"))))
  = Some Obj.empty.
Proof.
  apply (apps_not_array_one_error Sample2.espree_parse Sample.pathToRegexp
           Sample.path_join Sample.path_relative Sample.nunjucks_render
           true Sample2.fs (Sample.clock 1000000) (Sample.fresh "web" "dev")
           (fst (Sample2.outcome true "web" "dev"))
           (snd (Sample2.outcome true "web" "dev"))
           "/p/src/appsstr.vue"
           [Sample.prop "apps" (Literal (LString "main"));
            Sample.prop "path" (Literal (LString "/x"))]
           (Sample.prop "apps" (Literal (LString "main"))));
    try sample2_pass.
  intros elements. discriminate.
Defined.

Lemma path_not_string_one_error_sample :
  errorsOf Sample.path_relative (Sample.project "web" "dev")
    "/p/src/pathnum.vue" (errors (fst (Sample2.outcome true "web" "dev")))
  = [{| name := "Error";
        message := "'info.path' option must be a string literal";
        file := Some "src/pathnum.vue" |}] /\
  Obj.get "/p/src/pathnum.vue"
    (vueComponents (config (fst (Sample2.outcome true "web" "dev"))))
  = Some Obj.empty.
Proof.
  apply (path_not_string_one_error Sample2.espree_parse Sample.pathToRegexp
           Sample.path_join Sample.path_relative Sample.nunjucks_render
           true Sample2.fs (Sample.clock 1000000) (Sample.fresh "web" "dev")
           (fst (Sample2.outcome true "web" "dev"))
           (snd (Sample2.outcome true "web" "dev"))
           "/p/src/pathnum.vue"
           [Sample.prop "path" (Literal (LNumber "5"))]
           (Sample.prop "path" (Literal (LNumber "5"))));
    try sample2_pass.
  intros s. discriminate.
Defined.

(** [mixed.vue] declares [apps: [x, 'main', 1]] and [out.vue] declares
    [apps: [x, 'admin']], in a project built for [main]. *)
Lemma apps_membership_by_string_literals_sample :
  (Obj.has "/p/src/mixed.vue"
     (vueComponents (config (fst (Sample2.outcome true "web" "dev")))) = true
   <-> In "main" ["main"]) /\
  (Obj.has "/p/src/out.vue"
     (vueComponents (config (fst (Sample2.outcome true "web" "dev")))) = true
   <-> In "main" ["admin"]).
Proof.
  pose proof (fun p elements =>
    apps_membership_by_string_literals Sample2.espree_parse
      Sample.pathToRegexp Sample.path_join Sample.path_relative
      Sample.nunjucks_render true Sample2.fs (Sample.clock 1000000)
      (Sample.fresh "web" "dev")
      (fst (Sample2.outcome true "web" "dev"))
      (snd (Sample2.outcome true "web" "dev")) p elements eq_refl) as M.
  split.
  - refine (proj1 (proj2 (M "/p/src/mixed.vue"
                            [Some (Identifier "x");
                             Some (Literal (LString "main"));
                             Some (Literal (LNumber "1"))] _ _ _ _)));
      try sample2_pass; discriminate.
  - refine (proj1 (proj2 (M "/p/src/out.vue"
                            [Some (Identifier "x");
                             Some (Literal (LString "admin"))] _ _ _ _)));
      try sample2_pass; discriminate.
Defined.

(** ** What a pass leaves behind *)

(** The components of a table that have a path. *)
Definition withPath (components : Obj.t Info) : Obj.t Info :=
  filter (fun component => match Obj.get "path" (snd component) with
                           | Some _ => true
                           | None => false
                           end) components.

(** The errors that carry no file. *)
Definition withoutFile (errs : list JSError) : list JSError :=
  filter (fun e => match file e with None => true | Some _ => false end) errs.

Section PassProperties.

Variable espree_parse : string -> option Program.
Variable pathToRegexp : string -> bool -> string + string.
Variable path_join : list string -> string.
Variable path_relative : string -> string -> string.
Variable nunjucks_render : string -> TemplateData -> string.

Local Abbreviation generateEntries :=
  (GenerateEntriesWebpackPlugin.generateEntries espree_parse pathToRegexp
     path_join path_relative nunjucks_render).
Local Abbreviation vuePathsOf :=
  (GenerateEntriesWebpackPlugin.vuePathsOf path_join).
Local Abbreviation fileOf := (GenerateEntriesWebpackPlugin.fileOf path_relative).
Local Abbreviation fileScan :=
  (GenerateEntriesWebpackPlugin.fileScan espree_parse path_relative).
Local Abbreviation fileErrors :=
  (GenerateEntriesWebpackPlugin.fileErrors espree_parse path_relative).
Local Abbreviation infoProps :=
  (GenerateEntriesWebpackPlugin.infoProps espree_parse).
Local Abbreviation infoOption :=
  (GenerateEntriesWebpackPlugin.infoOption espree_parse).
Local Abbreviation scanFiles :=
  (GenerateEntriesWebpackPlugin.scanFiles espree_parse path_relative).
Local Abbreviation compiledPaths :=
  (GenerateEntriesWebpackPlugin.compiledPaths pathToRegexp).
Local Abbreviation pagePathErrors :=
  (GenerateEntriesWebpackPlugin.pagePathErrors pathToRegexp).
Local Abbreviation compilePagePaths :=
  (GenerateEntriesWebpackPlugin.compilePagePaths pathToRegexp).
Local Abbreviation pass_file :=
  (pass_file espree_parse pathToRegexp path_join path_relative nunjucks_render).
Local Abbreviation pass_table :=
  (pass_table espree_parse pathToRegexp path_join path_relative
     nunjucks_render).
Local Abbreviation generateEntries_normal :=
  (generateEntries_normal espree_parse pathToRegexp path_join path_relative
     nunjucks_render).

(** The paths recorded in the table of a pass are not empty. *)
Lemma pass_path_truthy init fs now self r eff p info s :
  generateEntries init fs now self = Normal (r, eff) ->
  Obj.get p (vueComponents (config r)) = Some info ->
  Obj.get "path" info = Some s ->
  JS.truthy s = true.
Proof.
  intros H Hg Hp. destruct (pass_table _ _ _ _ _ _ H) as [_ Hkeys].
  assert (In p (vuePathsOf (config self) fs)) as Hin.
  { apply Hkeys. apply ObjFacts.in_keys_get. congruence. }
  destruct (pass_file _ _ _ _ _ _ _ H Hin) as (fr & Hfr & Hget & _).
  rewrite Hget in Hg.
  destruct (fileScan_cases espree_parse path_relative _ _ _ _ Hfr)
    as [(info' & Ht & Hshape)|(Ht & _)]; rewrite Ht in Hg; simpl in Hg;
    [|discriminate].
  rewrite String.eqb_refl in Hg. injection Hg as <-.
  destruct Hshape as [->|(s' & -> & Hs')]; [discriminate|].
  simpl in Hp. injection Hp as ->. now apply JSFacts.startsWith_truthy.
Qed.

(** X7: in the table of a pass every key is a file of the pass, no key
    occurs twice, and every info is either empty or holds a [path] that
    starts with a slash and nothing else. *)
Theorem table_of_pass_well_formed init fs now self r eff :
  generateEntries init fs now self = Normal (r, eff) ->
  NoDup (Obj.keys (vueComponents (config r))) /\
  forall p info,
    Obj.get p (vueComponents (config r)) = Some info ->
    In p (vuePathsOf (config self) fs) /\
    (info = Obj.empty \/
     exists s, info = [("path", s)] /\ JS.startsWith s "/" = true).
Proof.
  intros H. destruct (pass_table _ _ _ _ _ _ H) as [Hnd Hkeys].
  split; [assumption|]. intros p info Hg.
  assert (In p (vuePathsOf (config self) fs)) as Hin.
  { apply Hkeys. apply ObjFacts.in_keys_get. congruence. }
  split; [assumption|].
  destruct (pass_file _ _ _ _ _ _ _ H Hin) as (fr & Hfr & Hget & _).
  rewrite Hget in Hg.
  destruct (fileScan_cases espree_parse path_relative _ _ _ _ Hfr)
    as [(info' & Ht & Hshape)|(Ht & _)]; rewrite Ht in Hg; simpl in Hg;
    [|discriminate].
  rewrite String.eqb_refl in Hg. now injection Hg as <-.
Qed.

Lemma pagePathErrors_cons config vuePath info rest :
  pagePathErrors config ((vuePath, info) :: rest)
  = pagePathErrors config [(vuePath, info)] ++ pagePathErrors config rest.
Proof.
  unfold GenerateEntriesWebpackPlugin.pagePathErrors at 1 2. simpl.
  destruct (Obj.get "path" info) as [s|]; [|reflexivity].
  destruct (JS.truthy s); [|reflexivity].
  destruct (pathToRegexp s (caseSensitive config)) as [re|msg];
    now rewrite compilePagePaths_acc.
Qed.

Lemma pagePathErrors_app config t1 t2 :
  pagePathErrors config (t1 ++ t2)
  = pagePathErrors config t1 ++ pagePathErrors config t2.
Proof.
  induction t1 as [|[vuePath info] t1 IH]; [reflexivity|].
  simpl app. rewrite pagePathErrors_cons, (pagePathErrors_cons _ _ _ t1), IH.
  now rewrite app_assoc.
Qed.

(** Where a page path error comes from. *)
Definition pagePathErrorOf (config : Config) (components : Obj.t Info)
    (e : JSError) : Prop :=
  exists vuePath info s msg,
    In (vuePath, info) components /\
    Obj.get "path" info = Some s /\
    pathToRegexp s (caseSensitive config) = inr msg /\
    e = Error (vuePath ++ " page path error: " ++ msg)%string.

Lemma pagePathErrors_origin config components :
  Forall (pagePathErrorOf config components) (pagePathErrors config components).
Proof.
  induction components as [|[vuePath info] rest IH]; [constructor|].
  rewrite pagePathErrors_cons. apply Forall_app. split.
  - unfold GenerateEntriesWebpackPlugin.pagePathErrors. simpl.
    destruct (Obj.get "path" info) as [s|] eqn:Hp; [|constructor].
    destruct (JS.truthy s); [|constructor].
    destruct (pathToRegexp s (caseSensitive config)) as [re|msg] eqn:Hre;
      constructor; [|constructor].
    exists vuePath, info, s, msg. simpl. tauto.
  - eapply Forall_impl; [|exact IH].
    intros e (vuePath' & info' & s & msg & Hin & Hp & Hre & He).
    exists vuePath', info', s, msg. simpl. tauto.
Qed.

(** X8: the errors of a pass are those recorded while scanning, each with
    the relative path of a file of the pass, followed by the page path
    errors, which carry no file and name a component of the table whose path
    did not compile; the latter occur in web builds only. *)
Theorem errors_of_pass init fs now self r eff :
  generateEntries init fs now self = Normal (r, eff) ->
  exists scanned compiled,
    errors r = scanned ++ compiled /\
    Forall (fun e => exists p, In p (vuePathsOf (config self) fs) /\
                               file e = fileOf (config self) p) scanned /\
    Forall (fun e => file e = None /\
                     pagePathErrorOf (config self) (vueComponents (config r)) e)
           compiled /\
    (type (config self) <> "web" -> compiled = []).
Proof.
  intros H.
  destruct (generateEntries_normal _ _ _ _ _ _ H)
    as (st & Hs & Hc & He & _).
  destruct (scanFiles_spec espree_parse path_relative _ _ _ _ _ Hs)
    as (Herr & Hfile & _).
  exists (scanErrors st),
         (if String.eqb (type (config self)) "web"
          then pagePathErrors (config r) (table st) else []).
  split; [exact He|]. split; [|split].
  - rewrite Herr. simpl. clear Hs Herr.
    induction (vuePathsOf (config self) fs) as [|q paths IH]; [constructor|].
    simpl. apply Forall_app. split.
    + destruct (Hfile q (or_introl eq_refl)) as (_ & fq & Hfq).
      unfold GenerateEntriesWebpackPlugin.fileErrors. rewrite Hfq.
      eapply Forall_impl;
        [|exact (fileScan_tagged espree_parse path_relative _ _ _ _ Hfq)].
      intros e Hf. exists q. split; [now left | exact Hf].
    + eapply Forall_impl; [|apply IH].
      * intros e (p & Hp & Hf). exists p. split; [now right | exact Hf].
      * intros p Hp. apply Hfile. now right.
  - destruct (String.eqb _ _); [|constructor].
    apply Forall_forall. intros e Hin. split.
    + pose proof (pagePathErrors_untagged pathToRegexp (config r) (table st))
        as Hu.
      rewrite Forall_forall in Hu. now apply Hu.
    + pose proof (pagePathErrors_origin (config r) (table st)) as Ho.
      rewrite Forall_forall in Ho. specialize (Ho e Hin).
      rewrite Hc in *. exact Ho.
  - intros Hw. apply String.eqb_neq in Hw. now rewrite Hw.
Qed.

(** X9: in a pass for a web application, a component whose path does not
    compile yields no page path and one error, "<vuePath> page path error:
    <message>"; the component stays in the table, with its path. *)
Theorem page_path_error_of_pass
    init fs now self r eff t1 p info t2 s msg :
  generateEntries init fs now self = Normal (r, eff) ->
  type (config self) = "web" ->
  vueComponents (config r) = t1 ++ (p, info) :: t2 ->
  Obj.get "path" info = Some s ->
  pathToRegexp s (caseSensitive (config self)) = inr msg ->
  pagePathsOf eff
  = Some (compiledPaths (config r) t1 ++ compiledPaths (config r) t2) /\
  In (Error (p ++ " page path error: " ++ msg)%string) (errors r) /\
  Obj.get p (vueComponents (config r)) = Some info.
Proof.
  intros H Hw Ht Hp Hre.
  destruct (generateEntries_normal _ _ _ _ _ _ H)
    as (st & Hs & Hc & He & Hb & _).
  destruct (pass_table _ _ _ _ _ _ H) as [Hnd _].
  assert (Obj.get p (vueComponents (config r)) = Some info) as Hg.
  { rewrite Ht. apply ObjFacts.get_middle. now rewrite <- Ht. }
  assert (JS.truthy s = true) as Htr
    by exact (pass_path_truthy _ _ _ _ _ _ _ _ _ H Hg Hp).
  assert (table st = t1 ++ (p, info) :: t2) as Ht'.
  { rewrite Hc in Ht. exact Ht. }
  assert (caseSensitive (config r) = caseSensitive (config self)) as Hcs
    by now rewrite Hc.
  repeat split; [| |assumption].
  - unfold pagePathsOf. rewrite Hb, Hw. simpl.
    rewrite Ht', compiledPaths_app, (compiledPaths_cons _ _ _ _ t2).
    do 2 f_equal.
    unfold GenerateEntriesWebpackPlugin.compiledPaths. simpl.
    now rewrite Hp, Htr, Hcs, Hre.
  - rewrite He, Hw. simpl. apply in_or_app. right.
    rewrite Ht', pagePathErrors_app, (pagePathErrors_cons _ _ _ t2).
    apply in_or_app. right. apply in_or_app. left.
    unfold GenerateEntriesWebpackPlugin.pagePathErrors. simpl.
    rewrite Hp, Htr, Hcs, Hre. now left.
Qed.

Lemma withoutFile_app errs1 errs2 :
  withoutFile (errs1 ++ errs2) = withoutFile errs1 ++ withoutFile errs2.
Proof. apply filter_app. Qed.

(** Each component with a non-empty path gives a page path or an error. *)
Lemma compiled_or_error config (components : Obj.t Info) :
  (forall p info s, In (p, info) components ->
                    Obj.get "path" info = Some s -> JS.truthy s = true) ->
  List.length (compiledPaths config components)
  + List.length (pagePathErrors config components)
  = List.length (withPath components).
Proof.
  induction components as [|[vuePath info] rest IH]; intros Hall;
    [reflexivity|].
  rewrite compiledPaths_cons, pagePathErrors_cons, !length_app.
  assert (List.length (compiledPaths config rest)
          + List.length (pagePathErrors config rest)
          = List.length (withPath rest)) as Hrest
    by (apply IH; intros p i s Hin; apply (Hall p i s); now right).
  unfold withPath in *. cbn [filter snd].
  unfold GenerateEntriesWebpackPlugin.compiledPaths at 1,
         GenerateEntriesWebpackPlugin.pagePathErrors at 1.
  cbn [GenerateEntriesWebpackPlugin.compilePagePaths].
  destruct (Obj.get "path" info) as [s|] eqn:Hp; [|simpl; lia].
  rewrite (Hall vuePath info s (or_introl eq_refl) Hp).
  destruct (pathToRegexp s (caseSensitive config)); simpl; lia.
Qed.

Lemma get_of_in {V : Type} (o : Obj.t V) k v :
  NoDup (Obj.keys o) -> In (k, v) o -> Obj.get k o = Some v.
Proof.
  intros Hnd Hin. apply in_split in Hin. destruct Hin as (o1 & o2 & ->).
  now apply ObjFacts.get_middle.
Qed.

Lemma withoutFile_untagged errs :
  Forall (fun e => file e = None) errs -> withoutFile errs = errs.
Proof.
  induction 1 as [|e errs Hf _ IH]; [reflexivity|].
  simpl. rewrite Hf. f_equal. exact IH.
Qed.

Lemma scanned_errors_with_file config fs paths :
  (forall p, In p paths -> exists fr, fileScan config fs p = Normal fr) ->
  withoutFile (flat_map (fileErrors config fs) paths) = [].
Proof.
  induction paths as [|q paths IH]; intros Hfile; [reflexivity|].
  simpl. rewrite withoutFile_app, IH
    by (intros p Hp; apply Hfile; now right).
  rewrite app_nil_r.
  destruct (Hfile q (or_introl eq_refl)) as (fq & Hfq).
  unfold GenerateEntriesWebpackPlugin.fileErrors. rewrite Hfq.
  pose proof (fileScan_tagged espree_parse path_relative _ _ _ _ Hfq)
    as Ht. unfold tagged in Ht.
  induction Ht as [|e errs Hf _ IHt]; [reflexivity|].
  simpl. rewrite Hf. exact IHt.
Qed.

(** X10: in a pass for a web application, the page paths given to the
    backend template and the errors without a file are together as many as
    the components of the table that have a path. *)
Theorem one_route_or_error_per_path init fs now self r eff :
  generateEntries init fs now self = Normal (r, eff) ->
  type (config self) = "web" ->
  exists pagePaths,
    pagePathsOf eff = Some pagePaths /\
    List.length pagePaths + List.length (withoutFile (errors r))
    = List.length (withPath (vueComponents (config r))).
Proof.
  intros H Hw.
  destruct (generateEntries_normal _ _ _ _ _ _ H)
    as (st & Hs & Hc & He & Hb & _).
  destruct (pass_table _ _ _ _ _ _ H) as [Hnd _].
  exists (compiledPaths (config r) (table st)). split.
  - unfold pagePathsOf. now rewrite Hb, Hw.
  - rewrite He, Hw, withoutFile_app. simpl.
    destruct (scanFiles_spec espree_parse path_relative _ _ _ _ _ Hs)
      as (Herr & Hfile & _).
    assert (withoutFile (scanErrors st) = []) as ->.
    { rewrite Herr. simpl. apply scanned_errors_with_file.
      intros p Hp. now apply Hfile. }
    assert (withoutFile (pagePathErrors (config r) (table st))
            = pagePathErrors (config r) (table st)) as ->.
    { apply withoutFile_untagged, pagePathErrors_untagged. }
    simpl. replace (vueComponents (config r)) with (table st)
      by now rewrite Hc.
    apply compiled_or_error. intros p info s Hin Hp.
    assert (Obj.get p (vueComponents (config r)) = Some info) as Hg.
    { rewrite Hc. simpl. apply get_of_in; [|assumption].
      rewrite Hc in Hnd. exact Hnd. }
    exact (pass_path_truthy _ _ _ _ _ _ _ _ _ H Hg Hp).
Qed.

End PassProperties.

(** ** Passes one after another *)

Section Regeneration.

Variable espree_parse : string -> option Program.
Variable pathToRegexp : string -> bool -> string + string.
Variable path_join : list string -> string.
Variable path_relative : string -> string -> string.
Variable nunjucks_render : string -> TemplateData -> string.

Local Abbreviation generateEntries :=
  (GenerateEntriesWebpackPlugin.generateEntries espree_parse pathToRegexp
     path_join path_relative nunjucks_render).
Local Abbreviation vuePathsOf :=
  (GenerateEntriesWebpackPlugin.vuePathsOf path_join).
Local Abbreviation fileScan :=
  (GenerateEntriesWebpackPlugin.fileScan espree_parse path_relative).
Local Abbreviation infoProps :=
  (GenerateEntriesWebpackPlugin.infoProps espree_parse).
Local Abbreviation infoOption :=
  (GenerateEntriesWebpackPlugin.infoOption espree_parse).
Local Abbreviation scanFiles :=
  (GenerateEntriesWebpackPlugin.scanFiles espree_parse path_relative).
Local Abbreviation entryPath :=
  (GenerateEntriesWebpackPlugin.entryPath path_join).

Local Abbreviation generateEntries_inv :=
  (generateEntries_inv espree_parse pathToRegexp path_join path_relative
     nunjucks_render).
Local Abbreviation generateEntries_config :=
  (generateEntries_config espree_parse pathToRegexp path_join path_relative
     nunjucks_render).
Local Abbreviation templatesOf :=
  (GenerateEntriesWebpackPlugin.templatesOf pathToRegexp path_join).
Local Abbreviation entriesOf :=
  (GenerateEntriesWebpackPlugin.entriesOf pathToRegexp path_join
     nunjucks_render).
Local Abbreviation entryFile :=
  (GenerateEntriesWebpackPlugin.entryFile path_join).

(** X11: a pass starts from an empty table and no errors: what the plugin
    held before (the table, the errors and the pattern of an earlier pass)
    has no part in its outcome. *)
Theorem pass_forgets_earlier_state init fs now self table0 errors0 pattern0 :
  generateEntries init fs now
    {| config := set_vueComponents table0 (config self);
       errors := errors0; vuePattern := pattern0 |}
  = generateEntries init fs now self.
Proof. apply generateEntries_config. intros components. reflexivity. Qed.

(** The plugin after a pass. *)
Lemma generateEntries_plugin init fs now self r eff :
  generateEntries init fs now self = Normal (r, eff) ->
  r = {| config := set_vueComponents (vueComponents (config r)) (config self);
         errors := errors r;
         vuePattern :=
           Some (path_join [projectDir (config self); "src"; "**"; "*.vue"]) |}.
Proof.
  intros H.
  now destruct (generateEntries_inv _ _ _ _ _ _ H)
    as (st & writes & _ & _ & _ & _ & -> & _).
Qed.

(** The calls of a pass: the templates are rendered first, then the
    entries are written. *)
Lemma rendersOf_renders (templates : list (string * TemplateData)) writes :
  rendersOf writes = [] ->
  rendersOf (map (fun render => Render (fst render) (snd render)) templates
             ++ writes) = templates.
Proof.
  intros Hw. unfold rendersOf in *. rewrite flat_map_app, Hw, app_nil_r.
  induction templates as [|[template data] rest IH]; simpl;
    [reflexivity | now rewrite IH].
Qed.

Lemma writesOf_renders (templates : list (string * TemplateData)) writes :
  writesOf (map (fun render => Render (fst render) (snd render)) templates
            ++ writes) = writesOf writes.
Proof.
  unfold writesOf. rewrite flat_map_app.
  induction templates as [|[template data] rest IH]; simpl;
    [reflexivity | exact IH].
Qed.

Lemma utimesOf_renders (templates : list (string * TemplateData)) writes :
  utimesOf (map (fun render => Render (fst render) (snd render)) templates
            ++ writes) = utimesOf writes.
Proof.
  unfold utimesOf. rewrite flat_map_app.
  induction templates as [|[template data] rest IH]; simpl;
    [reflexivity | exact IH].
Qed.

(** The flag and the clock of a pass bear on the timestamps only. *)
Lemma generateEntries_init init init' fs now now' self r eff :
  generateEntries init fs now self = Normal (r, eff) ->
  ((init' = true ->
    forall path time, throws fs (UtimesSync path time time) = None) ->
   exists eff',
     generateEntries init' fs now' self = Normal (r, eff') /\
     rendersOf eff' = rendersOf eff /\
     writesOf eff' = writesOf eff) /\
  (forall e,
      generateEntries init' fs now' self = Throw e ->
      init' = true /\
      exists path time, throws fs (UtimesSync path time time) = Some e).
Proof.
  intros H.
  destruct (generateEntries_inv _ _ _ _ _ _ H)
    as (st & writes & Hg & Hs & Hr & Hw & -> & ->).
  rewrite (generateEntries_steps espree_parse pathToRegexp path_join
             path_relative nunjucks_render).
  unfold call. rewrite Hg. cbn [bind]. rewrite Hs. cbn [bind].
  rewrite Hr. cbn [bind]. split.
  - intros Hutimes.
    destruct (writeEntries_again path_join _ _ init' _ _ now' _ 0 _ _
                Hw Hutimes) as [writes' Hw'].
    rewrite Hw'. cbn [bind]. eexists. split; [reflexivity|].
    destruct (writeEntries_normal path_join _ _ _ _ _ _ _ Hw)
      as (Hn & Hf & _).
    destruct (writeEntries_normal path_join _ _ _ _ _ _ _ Hw')
      as (Hn' & Hf' & _).
    rewrite !rendersOf_renders, !writesOf_renders by assumption.
    split; [reflexivity | congruence].
  - intros e.
    destruct (GenerateEntriesWebpackPlugin.writeEntries _ _ init' _ _ _ _)
      as [writes'|e'] eqn:Hw'; cbn [bind]; [discriminate|].
    intros [= <-].
    exact (writeEntries_again_throw path_join _ _ _ _ _ _ _ _ _ _ _ Hw Hw').
Qed.

(** X12: another pass over the same files, from the plugin as a pass left
    it, can only fail at setting a timestamp: an exception of it is one
    that [fs.utimesSync] has thrown, in a pass that is asked to set the
    timestamps.  When [fs.utimesSync] does not throw, or is not asked for,
    the pass ends normally: it leaves the plugin unchanged, renders the same
    data and writes the same files with the same text, whatever its flag
    and its clock. *)
Theorem pass_twice init init' fs now now' self r eff :
  generateEntries init fs now self = Normal (r, eff) ->
  ((init' = true ->
    forall path time, throws fs (UtimesSync path time time) = None) ->
   exists eff',
     generateEntries init' fs now' r = Normal (r, eff') /\
     rendersOf eff' = rendersOf eff /\
     writesOf eff' = writesOf eff) /\
  (forall e,
      generateEntries init' fs now' r = Throw e ->
      init' = true /\
      exists path time, throws fs (UtimesSync path time time) = Some e).
Proof.
  intros H.
  assert (generateEntries init' fs now' r = generateEntries init' fs now' self)
    as Hr.
  { apply generateEntries_config. intros components.
    rewrite (generateEntries_plugin _ _ _ _ _ _ H). reflexivity. }
  rewrite Hr. exact (generateEntries_init _ _ _ _ _ _ _ _ H).
Qed.


(** The frontend template gets the table of the pass. *)
Lemma frontend_data_of_pass init fs now self r eff :
  generateEntries init fs now self = Normal (r, eff) ->
  In ("frontend.js",
      FrontendData (vueComponents (config r))
        (entryPath (config self) (entry (config self)))
        (caseSensitive (config self)))
     (rendersOf eff).
Proof.
  intros H.
  destruct (generateEntries_inv _ _ _ _ _ _ H)
    as (st & writes & _ & _ & _ & Hw & -> & ->).
  destruct (writeEntries_normal path_join _ _ _ _ _ _ _ Hw) as (Hn & _).
  rewrite rendersOf_renders by assumption.
  unfold GenerateEntriesWebpackPlugin.templatesOf.
  apply in_or_app. right. now left.
Qed.

(** *** How a pass can end *)

(** X14: a pass that ends normally has met no elided element in the
    [info.apps] of its files.  A pass that throws ends with the exception
    of one of its calls to [glob], [fs] or [nunjucks], or with the
    [TypeError] of a file whose [info.apps] has an elided element.  When
    all the calls return and no [info.apps] has an elided element, the pass
    ends normally. *)
Theorem ways_a_pass_ends init fs now self :
  (forall r eff,
      generateEntries init fs now self = Normal (r, eff) ->
      forall p elements,
        In p (vuePathsOf (config self) fs) ->
        infoOption "apps" (readFileSync fs p)
        = Some (ArrayExpression elements) ->
        noElision elements = true) /\
  (forall e,
      generateEntries init fs now self = Throw e ->
      (exists c, throws fs c = Some e) \/
      (name e = "TypeError" /\
       exists p elements,
         In p (vuePathsOf (config self) fs) /\
         infoOption "apps" (readFileSync fs p)
         = Some (ArrayExpression elements) /\
         noElision elements = false)) /\
  (returning fs ->
   (forall p elements,
       In p (vuePathsOf (config self) fs) ->
       infoOption "apps" (readFileSync fs p)
       = Some (ArrayExpression elements) ->
       noElision elements = true) ->
   exists r eff, generateEntries init fs now self = Normal (r, eff)).
Proof.
  split; [|split].
  - intros r eff H p elements Hin Ha.
    destruct (noElision elements) eqn:Hn; [reflexivity|].
    destruct (generateEntries_elision espree_parse pathToRegexp path_join
                path_relative nunjucks_render init fs now self p elements
                Hin Ha Hn) as [e He].
    congruence.
  - intros e H.
    destruct (generateEntries_throw espree_parse pathToRegexp path_join
                path_relative nunjucks_render _ _ _ _ _ H)
      as [Hc|(p & Hp & Hf)]; [now left|].
    right.
    destruct (fileScan_throw espree_parse path_relative _ _ _ _ Hf)
      as (Hname & elements & Ha & Hn).
    split; [assumption|]. now exists p, elements.
  - apply generateEntries_total.
Qed.

End Regeneration.

(** ** The watcher at work *)

Section Watching.

Variable espree_parse : string -> option Program.
Variable pathToRegexp : string -> bool -> string + string.
Variable path_join : list string -> string.
Variable path_relative : string -> string -> string.
Variable nunjucks_render : string -> TemplateData -> string.

Local Abbreviation generateEntries :=
  (GenerateEntriesWebpackPlugin.generateEntries espree_parse pathToRegexp
     path_join path_relative nunjucks_render).
Local Abbreviation vuePathsOf :=
  (GenerateEntriesWebpackPlugin.vuePathsOf path_join).
Local Abbreviation handle :=
  (GenerateEntriesWebpackPlugin.handle espree_parse pathToRegexp
     path_join path_relative nunjucks_render).
Local Abbreviation regenerate :=
  (GenerateEntriesWebpackPlugin.regenerate espree_parse pathToRegexp
     path_join path_relative nunjucks_render).
Local Abbreviation run :=
  (GenerateEntriesWebpackPlugin.run espree_parse pathToRegexp
     path_join path_relative nunjucks_render).

Lemma set_vueComponents_self (c : Config) :
  set_vueComponents (vueComponents c) c = c.
Proof. now destruct c. Qed.

Lemma regenerate_normal fs now ctl ctl' eff :
  regenerate fs now ctl = Normal (ctl', eff) ->
  generateEntries false fs now (plugin ctl) = Normal (plugin ctl', eff) /\
  watched ctl' = watched ctl.
Proof.
  unfold GenerateEntriesWebpackPlugin.regenerate.
  destruct (generateEntries false fs now (plugin ctl)) as [[r eff']|e];
    [|discriminate].
  simpl. now intros [= <- <-].
Qed.

Lemma regenerate_step fs now ctl ctl' eff :
  regenerate fs now ctl = Normal (ctl', eff) ->
  generations eff <= 1 /\
  watched ctl' = watched ctl /\
  config (plugin ctl')
  = set_vueComponents (vueComponents (config (plugin ctl')))
      (config (plugin ctl)).
Proof.
  intros H. destruct (regenerate_normal _ _ _ _ _ H) as [Hg Hw].
  destruct (generateEntries_normal espree_parse pathToRegexp path_join
              path_relative nunjucks_render _ _ _ _ _ _ Hg)
    as (st & _ & Hc & _ & _ & Hn).
  repeat split; [lia | assumption | now rewrite Hc].
Qed.

Lemma idle_step ctl :
  generations [] <= 1 /\
  watched ctl = watched ctl /\
  config (plugin ctl)
  = set_vueComponents (vueComponents (config (plugin ctl)))
      (config (plugin ctl)).
Proof.
  rewrite set_vueComponents_self. repeat split.
  unfold generations. simpl. lia.
Qed.

(** What one event does to the controller. *)
Lemma handle_normal fs now event ctl ctl' eff :
  handle fs now event ctl = Normal (ctl', eff) ->
  generations eff <= 1 /\
  watched ctl' = watched ctl /\
  config (plugin ctl')
  = set_vueComponents (vueComponents (config (plugin ctl')))
      (config (plugin ctl)).
Proof.
  pose proof (regenerate_step fs now ctl ctl' eff) as Hr.
  pose proof (idle_step ctl) as Hi.
  unfold GenerateEntriesWebpackPlugin.handle.
  destruct Hi as (Hi1 & _ & Hi3).
  destruct (watched ctl) eqn:Hw; [|intros [= <- <-]; auto].
  destruct event as [filePath|filePath|filePath]; try exact Hr.
  destruct (Obj.has _ _); [exact Hr|].
  intros [= <- <-]. auto.
Qed.

(** X15: over any sequence of events, the controller runs at most one pass
    for each event, goes on watching the same pattern (or none), and
    changes nothing in the configuration but the table of components. *)
Theorem run_at_most_one_pass_per_event events ctl ctl' eff :
  run events ctl = Normal (ctl', eff) ->
  generations eff <= List.length events /\
  watched ctl' = watched ctl /\
  config (plugin ctl')
  = set_vueComponents (vueComponents (config (plugin ctl')))
      (config (plugin ctl)).
Proof.
  revert ctl eff.
  induction events as [|[[event fs] now] events IH]; intros ctl eff; simpl.
  - intros [= <- <-]. rewrite set_vueComponents_self.
    repeat split. unfold generations. simpl. lia.
  - destruct (handle fs now event ctl) as [[ctl1 eff1]|e] eqn:Hh;
      [|discriminate].
    cbn [bind].
    destruct (run events ctl1) as [[ctl2 eff2]|e] eqn:Hrun; [|discriminate].
    cbn [bind]. intros [= <- <-].
    destruct (handle_normal _ _ _ _ _ _ Hh) as (Hn1 & Hw1 & Hc1).
    destruct (IH _ _ Hrun) as (Hn2 & Hw2 & Hc2).
    rewrite generations_app. repeat split; [lia | congruence|].
    rewrite Hc2, Hc1 at 1. reflexivity.
Qed.

(** X16: in development mode, when a component of the table has been
    removed from the project, its [unlink] event runs one pass, after which
    it is no longer in the table; a second [unlink] for it runs none. *)
Theorem unlink_of_removed_component fs now ctl ctl' eff pattern filePath :
  watched ctl = Some pattern ->
  Obj.has filePath (vueComponents (config (plugin ctl))) = true ->
  ~ In filePath (vuePathsOf (config (plugin ctl)) fs) ->
  handle fs now (Unlink filePath) ctl = Normal (ctl', eff) ->
  generations eff = 1 /\
  Obj.has filePath (vueComponents (config (plugin ctl'))) = false /\
  forall fs' now', handle fs' now' (Unlink filePath) ctl' = Normal (ctl', []).
Proof.
  intros Hw Hh Hgone. unfold GenerateEntriesWebpackPlugin.handle at 1.
  rewrite Hw, Hh. intros H.
  destruct (regenerate_normal _ _ _ _ _ H) as [Hg Hw'].
  destruct (generateEntries_normal espree_parse pathToRegexp path_join
              path_relative nunjucks_render _ _ _ _ _ _ Hg)
    as (st & _ & _ & _ & _ & Hn).
  destruct (pass_table espree_parse pathToRegexp path_join path_relative
              nunjucks_render _ _ _ _ _ _ Hg) as [_ Hkeys].
  assert (Obj.has filePath (vueComponents (config (plugin ctl'))) = false)
    as Hout.
  { destruct (Obj.has filePath (vueComponents (config (plugin ctl'))))
      eqn:Hhas; [|reflexivity].
    apply ObjFacts.has_in_keys, Hkeys in Hhas. contradiction. }
  repeat split; [assumption..|].
  intros fs' now'. unfold GenerateEntriesWebpackPlugin.handle.
  rewrite Hout. now destruct (watched ctl').
Qed.

End Watching.

(** ** The done hook of the backend *)

Section BackendDone.

Variable Disk : Type.
Variable outputFileSync : string -> string -> Disk -> Disk * option JSError.
Variable path_join : list string -> string.

Local Abbreviation writeAsset :=
  (BackendWebpackPlugin.writeAsset Disk outputFileSync path_join).
Local Abbreviation writeAssets :=
  (BackendWebpackPlugin.writeAssets Disk outputFileSync path_join).
Local Abbreviation done :=
  (BackendWebpackPlugin.done Disk outputFileSync path_join).

Lemma writeAssets_bounded outputPath assets errs disk :
  exists more disk',
    writeAssets outputPath assets errs disk = Normal (errs ++ more, disk') /\
    List.length more <= List.length assets.
Proof.
  revert errs disk. induction assets as [|asset rest IH]; intros errs disk;
    simpl.
  - exists [], disk. rewrite app_nil_r. split; [reflexivity | simpl; lia].
  - destruct (writeAsset outputPath asset disk) as [disk1 [[]|e]]; simpl.
    + destruct (IH errs disk1) as (more & disk' & -> & Hl).
      exists more, disk'. split; [reflexivity | lia].
    + destruct (IH (errs ++ [e]) disk1) as (more & disk' & -> & Hl).
      exists (e :: more), disk'. rewrite <- app_assoc.
      split; [reflexivity | simpl; lia].
Qed.

(** X17: the [done] hook never throws and never drops an error: it ends
    with the errors of the compilation followed by at most one new error
    for each asset. *)
Theorem done_never_throws outputPath compilation disk :
  exists more disk',
    done outputPath compilation disk
    = Normal (BackendWebpackPlugin.errors compilation ++ more, disk') /\
    List.length more
    <= List.length (BackendWebpackPlugin.assets compilation).
Proof.
  unfold BackendWebpackPlugin.done.
  destruct (BackendWebpackPlugin.errors compilation) as [|e errs] eqn:He.
  - simpl. apply writeAssets_bounded.
  - exists [], disk. rewrite app_nil_r. split; [reflexivity | simpl; lia].
Qed.

(** X18: when the compilation has no error, every asset has a source and
    the file system refuses no write, the [done] hook ends with no error. *)
Theorem done_all_written outputPath compilation disk :
  BackendWebpackPlugin.errors compilation = [] ->
  (forall asset, In asset (BackendWebpackPlugin.assets compilation) ->
                 exists data, BackendWebpackPlugin.source (snd asset) = inl data) ->
  (forall file data disk0, snd (outputFileSync file data disk0) = None) ->
  exists disk', done outputPath compilation disk = Normal ([], disk').
Proof.
  unfold BackendWebpackPlugin.done. intros -> Hsrc Hfs. simpl.
  generalize dependent disk.
  induction (BackendWebpackPlugin.assets compilation) as [|asset rest IH];
    intros disk; simpl.
  - now exists disk.
  - unfold BackendWebpackPlugin.writeAsset.
    destruct (Hsrc asset (or_introl eq_refl)) as [data ->].
    pose proof (Hfs (path_join [outputPath; fst asset]) data disk) as Hw.
    destruct (outputFileSync _ data disk) as [disk1 thrown].
    simpl in Hw. subst thrown. simpl.
    apply IH. intros a Ha. apply Hsrc. now right.
Qed.

(** X19: when the compilation has no error and the source of every asset
    throws, the [done] hook writes nothing and ends with those exceptions,
    in the order of the assets. *)
Theorem done_sources_throw outputPath compilation disk
    (failing : list (string * JSError)) :
  BackendWebpackPlugin.errors compilation = [] ->
  BackendWebpackPlugin.assets compilation
  = map (fun a => (fst a, {| BackendWebpackPlugin.source := inr (snd a) |}))
      failing ->
  done outputPath compilation disk = Normal (map snd failing, disk).
Proof.
  unfold BackendWebpackPlugin.done. intros -> ->. simpl.
  change (map snd failing) with ([] ++ map snd failing).
  generalize (@nil JSError).
  induction failing as [|[k e] failing IH]; intros errs; simpl.
  - now rewrite app_nil_r.
  - rewrite IH. now rewrite <- app_assoc.
Qed.

End BackendDone.

(** ** The configuration given to the backend *)

Lemma fold_set_get (l : Obj.t JSValue) (acc : Obj.t JSValue) (k : string) :
  NoDup (Obj.keys l) ->
  Obj.get k (fold_left (fun conf kv => Obj.set (fst kv) (snd kv) conf) l acc)
  = match Obj.get k l with
    | Some v => Some v
    | None => Obj.get k acc
    end.
Proof.
  revert acc. induction l as [|[k0 v0] rest IH]; intros acc Hnd; simpl;
    [reflexivity|].
  inversion Hnd as [|? ? Hnin Hnd']; subst.
  rewrite (IH _ Hnd'). destruct (String.eqb k0 k) eqn:E.
  - apply String.eqb_eq in E. subst k0.
    assert (Obj.get k rest = None) as ->.
    { destruct (Obj.get k rest) eqn:G; [|reflexivity].
      exfalso. apply Hnin. apply ObjFacts.in_keys_get. congruence. }
    apply ObjFacts.get_set_same.
  - apply String.eqb_neq in E.
    destruct (Obj.get k rest); [reflexivity|].
    now apply ObjFacts.get_set_other.
Qed.

(** X20: in the configuration exposed to the backend, [host], [port] and
    [backendPort] are those of the project, also when [custom] has keys of
    these names. *)
Theorem conf_addressing_keys (config : Config) :
  Obj.get "host" (Legacy.conf config) = Some (host config) /\
  Obj.get "port" (Legacy.conf config) = Some (port config) /\
  Obj.get "backendPort" (Legacy.conf config) = Some (backendPort config).
Proof.
  unfold Legacy.conf. cbn [fold_left Legacy.configKey String.eqb Ascii.eqb
                           Bool.eqb].
  repeat split.
  - rewrite !ObjFacts.get_set_other by discriminate.
    apply ObjFacts.get_set_same.
  - rewrite ObjFacts.get_set_other by discriminate.
    apply ObjFacts.get_set_same.
  - apply ObjFacts.get_set_same.
Qed.

(** X21: every other key of the exposed configuration is a key of [custom],
    with its value there; a key that [custom] does not have is not
    exposed. *)
Theorem conf_custom_keys (config : Config) (k : string) :
  NoDup (Obj.keys (custom config)) ->
  ~ In k ["host"; "port"; "backendPort"] ->
  Obj.get k (Legacy.conf config) = Obj.get k (custom config).
Proof.
  intros Hnd Hk. unfold Legacy.conf.
  cbn [fold_left Legacy.configKey String.eqb Ascii.eqb Bool.eqb].
  rewrite !ObjFacts.get_set_other by (intros <-; apply Hk; simpl; tauto).
  rewrite (fold_set_get _ _ _ Hnd). now destruct (Obj.get k (custom config)).
Qed.

(** ** The second sample project at work *)

Lemma table_of_pass_well_formed_sample :
  NoDup (Obj.keys (vueComponents (config (fst (Sample2.outcome true "web" "dev")))))
  /\
  forall p info,
    Obj.get p (vueComponents (config (fst (Sample2.outcome true "web" "dev"))))
    = Some info ->
    In p (vuePathsOf Sample.path_join (config (Sample.fresh "web" "dev"))
            Sample2.fs) /\
    (info = Obj.empty \/
     exists s, info = [("path", s)] /\ JS.startsWith s "/" = true).
Proof.
  apply (table_of_pass_well_formed Sample2.espree_parse Sample.pathToRegexp
           Sample.path_join Sample.path_relative Sample.nunjucks_render
           true Sample2.fs (Sample.clock 1000000) (Sample.fresh "web" "dev")
           (fst (Sample2.outcome true "web" "dev"))
           (snd (Sample2.outcome true "web" "dev"))).
  vm_compute. reflexivity.
Defined.

Lemma errors_of_pass_sample :
  exists scanned compiled,
    errors (fst (Sample2.outcome true "web" "dev")) = scanned ++ compiled /\
    Forall (fun e =>
              exists p,
                In p (vuePathsOf Sample.path_join
                        (config (Sample.fresh "web" "dev")) Sample2.fs) /\
                file e = fileOf Sample.path_relative
                           (config (Sample.fresh "web" "dev")) p) scanned /\
    Forall (fun e =>
              file e = None /\
              pagePathErrorOf Sample.pathToRegexp
                (config (Sample.fresh "web" "dev"))
                (vueComponents (config (fst (Sample2.outcome true "web" "dev"))))
                e) compiled /\
    (type (config (Sample.fresh "web" "dev")) <> "web" -> compiled = []).
Proof.
  apply (errors_of_pass Sample2.espree_parse Sample.pathToRegexp
           Sample.path_join Sample.path_relative Sample.nunjucks_render
           true Sample2.fs (Sample.clock 1000000) (Sample.fresh "web" "dev")
           (fst (Sample2.outcome true "web" "dev"))
           (snd (Sample2.outcome true "web" "dev"))).
  vm_compute. reflexivity.
Defined.

(** The path of [bad.vue] does not compile. *)
Lemma page_path_error_of_pass_sample :
  pagePathsOf (snd (Sample2.outcome true "web" "dev"))
  = Some ["/^/mixed(?:\/(?=$))?$/i"; "/^/ok(?:\/(?=$))?$/i"] /\
  In (Error "/p/src/bad.vue page path error: Unterminated group")
     (errors (fst (Sample2.outcome true "web" "dev"))) /\
  Obj.get "/p/src/bad.vue"
    (vueComponents (config (fst (Sample2.outcome true "web" "dev"))))
  = Some [("path", "/(")].
Proof.
  apply (page_path_error_of_pass Sample2.espree_parse Sample.pathToRegexp
           Sample.path_join Sample.path_relative Sample.nunjucks_render
           true Sample2.fs (Sample.clock 1000000) (Sample.fresh "web" "dev")
           (fst (Sample2.outcome true "web" "dev"))
           (snd (Sample2.outcome true "web" "dev"))
           [("/p/src/noexport.vue", []); ("/p/src/infostr.vue", []);
            ("/p/src/appsstr.vue", []); ("/p/src/pathnum.vue", []);
            ("/p/src/mixed.vue", [("path", "/mixed")])]
           "/p/src/bad.vue" [("path", "/(")]
           [("/p/src/ok.vue", [("path", "/ok")])]
           "/(" "Unterminated group");
    vm_compute; reflexivity.
Defined.

Lemma one_route_or_error_per_path_sample :
  exists pagePaths,
    pagePathsOf (snd (Sample2.outcome true "web" "dev")) = Some pagePaths /\
    List.length pagePaths
    + List.length (withoutFile (errors (fst (Sample2.outcome true "web" "dev"))))
    = List.length
        (withPath
           (vueComponents (config (fst (Sample2.outcome true "web" "dev"))))).
Proof.
  apply (one_route_or_error_per_path Sample2.espree_parse Sample.pathToRegexp
           Sample.path_join Sample.path_relative Sample.nunjucks_render
           true Sample2.fs (Sample.clock 1000000) (Sample.fresh "web" "dev")
           (fst (Sample2.outcome true "web" "dev"))
           (snd (Sample2.outcome true "web" "dev")));
    vm_compute; reflexivity.
Defined.

(** The pass that a [change] event starts after the first one. *)
Lemma pass_twice_sample :
  exists eff',
    Sample2.generateEntries false Sample2.fs (Sample.clock 2000000)
      (fst (Sample2.outcome true "web" "dev"))
    = Normal (fst (Sample2.outcome true "web" "dev"), eff') /\
    rendersOf eff' = rendersOf (snd (Sample2.outcome true "web" "dev")) /\
    writesOf eff' = writesOf (snd (Sample2.outcome true "web" "dev")).
Proof.
  apply (pass_twice Sample2.espree_parse Sample.pathToRegexp
           Sample.path_join Sample.path_relative Sample.nunjucks_render
           true false Sample2.fs (Sample.clock 1000000)
           (Sample.clock 2000000) (Sample.fresh "web" "dev")
           (fst (Sample2.outcome true "web" "dev"))
           (snd (Sample2.outcome true "web" "dev"))).
  - vm_compute. reflexivity.
  - discriminate.
Defined.


(** Three events in the development build of the second sample. *)
Lemma run_at_most_one_pass_per_event_sample :
  exists ctl' eff,
    run Sample2.espree_parse Sample.pathToRegexp Sample.path_join
      Sample.path_relative Sample.nunjucks_render
      [(Change "/p/src/ok.vue", Sample2.fs, (Sample.clock 2000000));
       (Unlink "/p/src/out.vue", Sample2.fs, (Sample.clock 3000000));
       (Unlink "/p/src/bad.vue", Sample2.fs_removed, (Sample.clock 4000000))]
      (fst (Sample2.started "web" "dev")) = Normal (ctl', eff) /\
    generations eff <= 3 /\
    watched ctl' = watched (fst (Sample2.started "web" "dev")) /\
    config (plugin ctl')
    = set_vueComponents (vueComponents (config (plugin ctl')))
        (config (plugin (fst (Sample2.started "web" "dev")))).
Proof.
  eexists. eexists. split; [vm_compute; reflexivity|].
  refine (run_at_most_one_pass_per_event Sample2.espree_parse
            Sample.pathToRegexp Sample.path_join Sample.path_relative
            Sample.nunjucks_render
            [(Change "/p/src/ok.vue", Sample2.fs, (Sample.clock 2000000));
             (Unlink "/p/src/out.vue", Sample2.fs, (Sample.clock 3000000));
             (Unlink "/p/src/bad.vue", Sample2.fs_removed, (Sample.clock 4000000))]
            (fst (Sample2.started "web" "dev")) _ _ _).
  vm_compute. reflexivity.
Defined.

(** [bad.vue] is removed from the project. *)
Lemma unlink_of_removed_component_sample :
  exists ctl' eff,
    handle Sample2.espree_parse Sample.pathToRegexp Sample.path_join
      Sample.path_relative Sample.nunjucks_render Sample2.fs_removed (Sample.clock 2000000)
      (Unlink "/p/src/bad.vue") (fst (Sample2.started "web" "dev"))
    = Normal (ctl', eff) /\
    generations eff = 1 /\
    Obj.has "/p/src/bad.vue" (vueComponents (config (plugin ctl'))) = false /\
    forall fs' now',
      handle Sample2.espree_parse Sample.pathToRegexp Sample.path_join
        Sample.path_relative Sample.nunjucks_render fs' now'
        (Unlink "/p/src/bad.vue") ctl' = Normal (ctl', []).
Proof.
  eexists. eexists. split; [vm_compute; reflexivity|].
  refine (unlink_of_removed_component Sample2.espree_parse
            Sample.pathToRegexp Sample.path_join Sample.path_relative
            Sample.nunjucks_render Sample2.fs_removed (Sample.clock 2000000)
            (fst (Sample2.started "web" "dev")) _ _ "/p/src/**/*.vue"
            "/p/src/bad.vue" _ _ _ _).
  - vm_compute. reflexivity.
  - vm_compute. reflexivity.
  - vm_compute. intuition discriminate.
  - vm_compute. reflexivity.
Defined.

(** An output directory that takes every file. *)
Lemma done_all_written_sample :
  exists disk',
    BackendWebpackPlugin.done (Obj.t string)
      (fun file data disk => (Obj.set file data disk, None))
      Sample.path_join "/out" Sample.compiled [] = Normal ([], disk').
Proof.
  apply (done_all_written (Obj.t string)
           (fun file data disk => (Obj.set file data disk, None))
           Sample.path_join "/out" Sample.compiled []).
  - reflexivity.
  - intros asset Hin. vm_compute in Hin.
    repeat (destruct Hin as [<-|Hin]; [eexists; reflexivity|]).
    contradiction.
  - reflexivity.
Defined.

Lemma done_sources_throw_sample :
  BackendWebpackPlugin.done (Obj.t string) Sample.outputFileSync
    Sample.path_join "/out"
    {| BackendWebpackPlugin.errors := [];
       BackendWebpackPlugin.assets :=
         [("backend.js",
           {| BackendWebpackPlugin.source := inr (Error "no source") |});
          ("backend.js.map",
           {| BackendWebpackPlugin.source := inr (Error "no map") |})] |}
    [("/out/old.js", "kept")]
  = Normal ([Error "no source"; Error "no map"], [("/out/old.js", "kept")]).
Proof.
  apply (done_sources_throw (Obj.t string) Sample.outputFileSync
           Sample.path_join "/out" _ [("/out/old.js", "kept")]
           [("backend.js", Error "no source");
            ("backend.js.map", Error "no map")]); reflexivity.
Defined.

Lemma conf_custom_keys_sample :
  Obj.get "title" (Legacy.conf (Sample.project "web" "dev"))
  = Some (VString "Sample") /\
  Obj.get "db" (Legacy.conf (Sample.project "web" "dev")) = None.
Proof.
  split.
  - refine (conf_custom_keys (Sample.project "web" "dev") "title" _ _).
    + vm_compute. repeat constructor. simpl. tauto.
    + simpl. intuition discriminate.
  - refine (conf_custom_keys (Sample.project "web" "dev") "db" _ _).
    + vm_compute. repeat constructor. simpl. tauto.
    + simpl. intuition discriminate.
Defined.

(** ** Starting the plugin, and rescanning *)

Section Starting.

Variable espree_parse : string -> option Program.
Variable pathToRegexp : string -> bool -> string + string.
Variable path_join : list string -> string.
Variable path_relative : string -> string -> string.
Variable nunjucks_render : string -> TemplateData -> string.

Local Abbreviation generateEntries :=
  (GenerateEntriesWebpackPlugin.generateEntries espree_parse pathToRegexp
     path_join path_relative nunjucks_render).
Local Abbreviation apply :=
  (GenerateEntriesWebpackPlugin.apply espree_parse pathToRegexp
     path_join path_relative nunjucks_render).
Local Abbreviation handle :=
  (GenerateEntriesWebpackPlugin.handle espree_parse pathToRegexp
     path_join path_relative nunjucks_render).

(** X23: [apply] runs the first pass; when the pass throws, so does [apply],
    and no watcher is set up; otherwise the watcher is set up in development
    mode only, on the pattern that the pass has searched. *)
Theorem apply_outcome fs now self :
  (forall ctl eff,
      apply fs now self = Normal (ctl, eff) ->
      generateEntries true fs now self = Normal (plugin ctl, eff) /\
      watched ctl
      = if String.eqb (env (config self)) "dev"
        then Some (path_join [projectDir (config self); "src"; "**"; "*.vue"])
        else None) /\
  (forall e,
      apply fs now self = Throw e <->
      generateEntries true fs now self = Throw e).
Proof.
  unfold GenerateEntriesWebpackPlugin.apply.
  destruct (generateEntries true fs now self) as [[r eff']|e'] eqn:Hg;
    cbn [bind].
  - split; [|intros e; split; discriminate].
    intros ctl eff [= <- <-]. cbn [plugin watched]. split; [reflexivity|].
    rewrite (generateEntries_plugin espree_parse pathToRegexp path_join
               path_relative nunjucks_render _ _ _ _ _ _ Hg).
    reflexivity.
  - split; [discriminate|]. intros e. split; intros [= ->]; reflexivity.
Qed.

Lemma regeneration_sets_no_timestamp fs now self r eff :
  generateEntries false fs now self = Normal (r, eff) -> utimesOf eff = [].
Proof.
  intros H.
  destruct (generateEntries_inv espree_parse pathToRegexp path_join
              path_relative nunjucks_render _ _ _ _ _ _ H)
    as (st & writes & _ & _ & _ & Hw & _ & ->).
  destruct (writeEntries_normal path_join _ _ _ _ _ _ _ Hw) as (_ & _ & Hu).
  now rewrite utimesOf_renders.
Qed.

(** X24: in development mode an [add] or a [change] event, whatever file it
    names, makes of the controller what one pass from an empty table and no
    errors makes of it, over the files as they are then; that pass sets no
    timestamp. *)
Theorem add_or_change_rescans fs now ctl ctl' eff pattern filePath :
  watched ctl = Some pattern ->
  handle fs now (Add filePath) ctl = Normal (ctl', eff) \/
  handle fs now (Change filePath) ctl = Normal (ctl', eff) ->
  generateEntries false fs now
    {| config := set_vueComponents Obj.empty (config (plugin ctl));
       errors := []; vuePattern := None |}
  = Normal (plugin ctl', eff) /\
  generations eff = 1 /\
  utimesOf eff = [].
Proof.
  intros Hw H.
  assert (GenerateEntriesWebpackPlugin.regenerate espree_parse pathToRegexp
            path_join path_relative nunjucks_render fs now ctl
          = Normal (ctl', eff)) as Hr.
  { unfold GenerateEntriesWebpackPlugin.handle in H. rewrite Hw in H.
    now destruct H. }
  destruct (regenerate_normal _ _ _ _ _ _ _ _ _ _ Hr) as [Hg _].
  split; [|split].
  - rewrite <- Hg.
    apply (generateEntries_config espree_parse pathToRegexp path_join
             path_relative nunjucks_render).
    intros components. reflexivity.
  - now destruct (generateEntries_normal _ _ _ _ _ _ _ _ _ _ _ Hg)
      as (st & _ & _ & _ & _ & Hn).
  - exact (regeneration_sets_no_timestamp _ _ _ _ _ Hg).
Qed.

End Starting.

(** The sample project ends its pass normally; with [hole.vue] the pass
    throws a [TypeError]; when [m.vue] cannot be read the pass throws what
    [fs.readFileSync] has thrown. *)
Lemma ways_a_pass_ends_sample :
  (exists r eff,
      Sample.generateEntries true Sample.fs (Sample.clock 1000000)
        (Sample.fresh "web" "dev")
      = Normal (r, eff)) /\
  (exists e,
      Sample.generateEntries true Sample.fs_elision (Sample.clock 1000000)
        (Sample.fresh "web" "dev") = Throw e /\
      name e = "TypeError") /\
  Sample.generateEntries true Sample.fs_unreadable (Sample.clock 1000000)
    (Sample.fresh "web" "dev")
  = Throw (Error "EISDIR: illegal operation on a directory, read").
Proof.
  split; [|split].
  - apply (proj2 (proj2 (ways_a_pass_ends Sample.espree_parse
                           Sample.pathToRegexp Sample.path_join
                           Sample.path_relative Sample.nunjucks_render true
                           Sample.fs (Sample.clock 1000000)
                           (Sample.fresh "web" "dev")))).
    + intros c. reflexivity.
    + intros p elements Hin. vm_compute in Hin.
      repeat (destruct Hin as [<-|Hin];
              [vm_compute; try discriminate; now intros [= <-]|]).
      contradiction.
  - destruct (Sample.generateEntries true Sample.fs_elision
                (Sample.clock 1000000) (Sample.fresh "web" "dev"))
      as [[r eff]|e] eqn:H.
    + vm_compute in H. discriminate H.
    + exists e. split; [reflexivity|].
      destruct (proj1 (proj2 (ways_a_pass_ends Sample.espree_parse
                                Sample.pathToRegexp Sample.path_join
                                Sample.path_relative Sample.nunjucks_render
                                true Sample.fs_elision (Sample.clock 1000000)
                                (Sample.fresh "web" "dev"))) e H)
        as [[c Hc]|[Hname _]]; [discriminate Hc | exact Hname].
  - vm_compute. reflexivity.
Defined.

Lemma apply_outcome_sample :
  watched (fst (Sample2.started "web" "dev")) = Some "/p/src/**/*.vue" /\
  watched (fst (Sample2.started "web" "production")) = None.
Proof.
  split.
  - refine (proj2 (proj1 (apply_outcome Sample2.espree_parse
                            Sample.pathToRegexp Sample.path_join
                            Sample.path_relative Sample.nunjucks_render
                            Sample2.fs (Sample.clock 1000000) (Sample.fresh "web" "dev"))
                     (fst (Sample2.started "web" "dev"))
                     (snd (Sample2.started "web" "dev")) _)).
    vm_compute. reflexivity.
  - refine (proj2 (proj1 (apply_outcome Sample2.espree_parse
                            Sample.pathToRegexp Sample.path_join
                            Sample.path_relative Sample.nunjucks_render
                            Sample2.fs (Sample.clock 1000000)
                            (Sample.fresh "web" "production"))
                     (fst (Sample2.started "web" "production"))
                     (snd (Sample2.started "web" "production")) _)).
    vm_compute. reflexivity.
Defined.

(** [ok.vue] changes, in the development build of the second sample. *)
Lemma add_or_change_rescans_sample :
  exists ctl' eff,
    handle Sample2.espree_parse Sample.pathToRegexp Sample.path_join
      Sample.path_relative Sample.nunjucks_render Sample2.fs_removed (Sample.clock 2000000)
      (Change "/p/src/ok.vue") (fst (Sample2.started "web" "dev"))
    = Normal (ctl', eff) /\
    Sample2.generateEntries false Sample2.fs_removed (Sample.clock 2000000)
      {| config :=
           set_vueComponents Obj.empty
             (config (plugin (fst (Sample2.started "web" "dev"))));
         errors := []; vuePattern := None |}
    = Normal (plugin ctl', eff) /\
    generations eff = 1 /\
    utimesOf eff = [].
Proof.
  eexists. eexists. split; [vm_compute; reflexivity|].
  refine (add_or_change_rescans Sample2.espree_parse Sample.pathToRegexp
            Sample.path_join Sample.path_relative Sample.nunjucks_render
            Sample2.fs_removed (Sample.clock 2000000) (fst (Sample2.started "web" "dev"))
            _ _ "/p/src/**/*.vue" "/p/src/ok.vue" _ _).
  - vm_compute. reflexivity.
  - right. vm_compute. reflexivity.
Defined.
